(** * The event-log engine of arm's log panel (src/cli/logPanel.py)

    A shallow embedding of the Python module and the properties of its
    event pipeline: display strings, buffer trimming, day-boundary
    annotation, deduplication, log-file backfill and the redraw loop.

    Conventions of the embedding.
    - A Python [str] is a [string]; Python 2 byte strings, so every
      character is one [ascii].
    - A Python number that may be an [int] or a [float] is a [pynum].
      Floats are read as the rationals they denote.
    - A [LogEntry] instance is an object: the lists of the program hold
      references ([ref]) into an object store, and [==] on two entries is
      identity of the references (the class defines no [__eq__]).
    - A Python exception is a [Raise] result. *)

From Stdlib Require Import ZArith QArith Qround Qminmax Ascii String Lia Lqa.
From Stdlib Require OrderedTypeEx.
From stdpp Require Import base option list sorting strings gmap.
From Equations Require Import Equations.

Close Scope Q_scope.
Local Open Scope Z_scope.

(** ** Python values and exceptions *)

Inductive pynum :=
  | PyInt (z : Z)
  | PyFloat (q : Q).

Inductive exn :=
  | IndexError
  | ValueError
  | KeyError
  | TypeError.

Inductive res (A : Type) :=
  | Ok (a : A)
  | Raise (e : exn).
Arguments Ok {A} a.
Arguments Raise {A} e.

#[global] Instance res_ret : MRet res := fun A a => Ok a.
#[global] Instance res_bind : MBind res := fun A B k m =>
  match m with
  | Ok a => k a
  | Raise e => Raise e
  end.

(** ** String operations of Python used by the module *)

Module Py.

(** [str.upper()] on a byte string: only a-z change. *)
Definition upper_ascii (c : ascii) : ascii :=
  let n := nat_of_ascii c in
  if (Nat.leb 97 n && Nat.leb n 122)%bool then ascii_of_nat (n - 32) else c.

Fixpoint upper (s : string) : string :=
  match s with
  | EmptyString => EmptyString
  | String c s' => String (upper_ascii c) (upper s')
  end.

Fixpoint lower_ascii_str (s : string) : string :=
  match s with
  | EmptyString => EmptyString
  | String c s' =>
      let n := nat_of_ascii c in
      String (if (Nat.leb 65 n && Nat.leb n 90)%bool then ascii_of_nat (n + 32) else c)
             (lower_ascii_str s')
  end.

(** The characters [str.split()] (no argument) treats as separators. *)
Definition is_space (c : ascii) : bool :=
  let n := nat_of_ascii c in
  (Nat.eqb n 32 || (Nat.leb 9 n && Nat.leb n 13))%bool.

(** [s.split()]: maximal runs of non-space characters.  [cur] is the
    word being read, reversed. *)
Fixpoint split_go (s : string) (cur : list ascii) : list string :=
  match s with
  | EmptyString =>
      match cur with
      | [] => []
      | _ => [string_of_list_ascii (rev cur)]
      end
  | String c s' =>
      if is_space c then
        match cur with
        | [] => split_go s' []
        | _ => string_of_list_ascii (rev cur) :: split_go s' []
        end
      else split_go s' (c :: cur)
  end.

Definition split (s : string) : list string := split_go s [].

(** [s.split(c)] for a one-character separator: fields may be empty. *)
Fixpoint split_on_go (sep : ascii) (s : string) (cur : list ascii) : list string :=
  match s with
  | EmptyString => [string_of_list_ascii (rev cur)]
  | String c s' =>
      if Ascii.eqb c sep then string_of_list_ascii (rev cur) :: split_on_go sep s' []
      else split_on_go sep s' (c :: cur)
  end.

Definition split_on (sep : ascii) (s : string) : list string := split_on_go sep s [].

(** [sep.join(l)] *)
Fixpoint join (sep : string) (l : list string) : string :=
  match l with
  | [] => EmptyString
  | [x] => x
  | x :: l' => x +:+ sep +:+ join sep l'
  end.

(** [s.startswith(p)] *)
Fixpoint startswith (s p : string) : bool :=
  match p, s with
  | EmptyString, _ => true
  | String _ _, EmptyString => false
  | String a p', String b s' => Ascii.eqb a b && startswith s' p'
  end.

(** [p in s] *)
Fixpoint contains (s p : string) : bool :=
  startswith s p ||
  match s with
  | EmptyString => false
  | String _ s' => contains s' p
  end.

(** [s.find(c)] for a one-character needle; [None] stands for -1. *)
Fixpoint find_char (c : ascii) (s : string) : option nat :=
  match s with
  | EmptyString => None
  | String a s' =>
      if Ascii.eqb a c then Some O else S <$> find_char c s'
  end.

(** [s[:n]] for [0 <= n] *)
Fixpoint take (n : nat) (s : string) : string :=
  match n, s with
  | O, _ => EmptyString
  | S _, EmptyString => EmptyString
  | S n', String c s' => String c (take n' s')
  end.

Fixpoint drop_last (s : string) : string :=
  match s with
  | EmptyString => EmptyString
  | String _ EmptyString => EmptyString
  | String c s' => String c (drop_last s')
  end.

(** [s[1:-1]] *)
Definition strip_ends (s : string) : string :=
  match s with
  | EmptyString => EmptyString
  | String _ s' => drop_last s'
  end.

(** [s[n:]] for [0 <= n] *)
Fixpoint drop (n : nat) (s : string) : string :=
  match n, s with
  | O, _ => s
  | S _, EmptyString => EmptyString
  | S n', String _ s' => drop n' s'
  end.

(** [s[1:]] *)
Definition tail (s : string) : string :=
  match s with
  | EmptyString => EmptyString
  | String _ s' => s'
  end.

(** ["%i" % z] *)
Definition digit (n : Z) : ascii := ascii_of_nat (48 + Z.to_nat n).

Fixpoint digits_go (fuel : nat) (n : Z) (acc : string) : string :=
  match fuel with
  | O => acc
  | S fuel' =>
      let acc' := String (digit (n mod 10)) acc in
      if n <? 10 then acc' else digits_go fuel' (n / 10) acc'
  end.

Definition fmt_i (z : Z) : string :=
  let n := Z.abs z in
  let body := digits_go (S (Z.to_nat (Z.log2 n))) n EmptyString in
  if z <? 0 then String "-"%char body else body.

(** ["%02i" % z]: zero padding to two columns.  A rendering shorter than two
    columns is a single digit, so the sign never meets the padding. *)
Definition fmt_02i (z : Z) : string :=
  let s := fmt_i z in
  if Nat.ltb (String.length s) 2 then String "0"%char s else s.

(** [l[:n]] for an [int] bound, negative bounds counting from the end *)
Definition slice_to {A} (n : Z) (l : list A) : list A :=
  if n <? 0 then list.take (Z.to_nat (Z.of_nat (length l) + n)) l
  else list.take (Z.to_nat n) l.

End Py.

(** ** Dictionaries

    A Python [dict] with string keys, as an association list whose first
    binding for a key is the current one. *)

Definition dict (V : Type) := list (string * V).

Fixpoint dict_get {V} (d : dict V) (k : string) : option V :=
  match d with
  | [] => None
  | (k', v) :: d' => if String.eqb k' k then Some v else dict_get d' k
  end.

Definition dict_set {V} (d : dict V) (k : string) (v : V) : dict V := (k, v) :: d.

(** A dict literal [{k1: v1, ..., kn: vn}]: later bindings win. *)
Definition dict_lit {V} (l : list (string * V)) : dict V :=
  fold_left (fun d kv => dict_set d kv.1 kv.2) l [].

(** ** Numbers *)

(** [int(q)] for a float: truncation toward zero. *)
Definition Qtrunc (q : Q) : Z :=
  if Qlt_le_dec q 0 then Qceiling q else Qfloor q.

Definition Qgtb (a b : Q) : bool := negb (Qle_bool a b).

(** [time.struct_time], in the order of its nine fields. *)
Record struct_time := mkTm {
  tm_year : Z; tm_mon : Z; tm_mday : Z;
  tm_hour : Z; tm_min : Z; tm_sec : Z;
  tm_wday : Z; tm_yday : Z; tm_isdst : Z
}.

(** [list(t)] for a [struct_time] *)
Definition tm_list (t : struct_time) : list Z :=
  [tm_year t; tm_mon t; tm_mday t; tm_hour t; tm_min t; tm_sec t;
   tm_wday t; tm_yday t; tm_isdst t].

(** ** Log entries and the object store *)

Definition DAYBREAK_EVENT : string := "DAYBREAK".
Definition DEDUPLICATION_TIMEOUT : Z := 100.
Definition MAX_REGEX_FILTERS : nat := 5.

(** The attributes of a [LogEntry] instance. *)
Record LogEntry := mkLogEntry {
  timestamp : pynum;
  type : string;
  msg : string;
  color : string;
  _displayMessage : option string
}.

(** [LogEntry.__init__] *)
Definition LogEntry_init (timestamp : pynum) (eventType msg color : string) : LogEntry :=
  {| timestamp := timestamp; type := eventType; msg := msg; color := color;
     _displayMessage := None |}.

(** A reference to a [LogEntry] object.  Two entries are [==] exactly when
    they are the same object, that is, the same reference. *)
Definition ref := nat.

(** The objects allocated so far: [objs] gives the attributes behind a
    reference, [fresh] is the next reference to hand out. *)
Record Store := mkStore {
  objs : ref -> LogEntry;
  fresh : ref
}.

Definition store_set (st : Store) (r : ref) (e : LogEntry) : Store :=
  {| objs := fun r' => if Nat.eqb r' r then e else objs st r'; fresh := fresh st |}.

(** [LogEntry(timestamp, eventType, msg, color)]: a new object. *)
Definition LogEntry_new (st : Store) (timestamp : pynum) (eventType msg color : string)
  : ref * Store :=
  (fresh st,
   {| objs := fun r' => if Nat.eqb r' (fresh st) then LogEntry_init timestamp eventType msg color
                        else objs st r';
      fresh := S (fresh st) |}).

(** Every reference of the list denotes an allocated object. *)
Definition allocated (st : Store) (l : list ref) : Prop :=
  Forall (fun r => (r < fresh st)%nat) l.

Definition is_daybreak (st : Store) (r : ref) : bool :=
  String.eqb (type (objs st r)) DAYBREAK_EVENT.

Arguments LogEntry_new : simpl never.

(** ** Module state

    The list objects of the program live in two heaps, one for lists of
    entries and one for lists of [(entry, duplicateCount)] tuples; a list is
    named by its index there.  [list(x)] and a list built by a call are new
    objects; assigning to a list object in place is [ev_write]/[dup_write].

    The memo of [getDaybreaks] is [CACHED_DAYBREAKS_ARGUMENTS] with
    [CACHED_DAYBREAKS_RESULT]: [None] as long as the globals hold their
    initial [None]s, then the copied argument list, the day and the copied
    result, which are always assigned together.  Likewise for
    [getDuplicates]. *)

Record Globals := mkGlobals {
  store : Store;
  evlists : list (list ref);
  duplists : list (list (ref * nat));
  CACHED_DAYBREAKS : option (nat * Z * nat);
  CACHED_DUPLICATES : option (nat * nat);
  COMMON_LOG_MESSAGES : option (dict (list string))
}.

Definition ev_read (g : Globals) (l : nat) : list ref := default [] (evlists g !! l).
Definition dup_read (g : Globals) (l : nat) : list (ref * nat) := default [] (duplists g !! l).

Definition set_store (g : Globals) (st : Store) : Globals :=
  mkGlobals st (evlists g) (duplists g) (CACHED_DAYBREAKS g) (CACHED_DUPLICATES g)
            (COMMON_LOG_MESSAGES g).

Definition ev_alloc (g : Globals) (v : list ref) : nat * Globals :=
  (length (evlists g),
   mkGlobals (store g) (evlists g ++ [v]) (duplists g) (CACHED_DAYBREAKS g)
             (CACHED_DUPLICATES g) (COMMON_LOG_MESSAGES g)).

Definition dup_alloc (g : Globals) (v : list (ref * nat)) : nat * Globals :=
  (length (duplists g),
   mkGlobals (store g) (evlists g) (duplists g ++ [v]) (CACHED_DAYBREAKS g)
             (CACHED_DUPLICATES g) (COMMON_LOG_MESSAGES g)).

Definition ev_write (g : Globals) (l : nat) (v : list ref) : Globals :=
  mkGlobals (store g) (<[l := v]> (evlists g)) (duplists g) (CACHED_DAYBREAKS g)
            (CACHED_DUPLICATES g) (COMMON_LOG_MESSAGES g).

Definition dup_write (g : Globals) (l : nat) (v : list (ref * nat)) : Globals :=
  mkGlobals (store g) (evlists g) (<[l := v]> (duplists g)) (CACHED_DAYBREAKS g)
            (CACHED_DUPLICATES g) (COMMON_LOG_MESSAGES g).

Definition set_CACHED_DAYBREAKS (g : Globals) (c : option (nat * Z * nat)) : Globals :=
  mkGlobals (store g) (evlists g) (duplists g) c (CACHED_DUPLICATES g) (COMMON_LOG_MESSAGES g).

Definition set_CACHED_DUPLICATES (g : Globals) (c : option (nat * nat)) : Globals :=
  mkGlobals (store g) (evlists g) (duplists g) (CACHED_DAYBREAKS g) c (COMMON_LOG_MESSAGES g).

Definition set_COMMON_LOG_MESSAGES (g : Globals) (c : option (dict (list string))) : Globals :=
  mkGlobals (store g) (evlists g) (duplists g) (CACHED_DAYBREAKS g) (CACHED_DUPLICATES g) c.


(** What [isDuplicate] returns: a boolean, or with its [getDuplicates] flag
    the indices of the duplicates. *)
Inductive dupResult :=
  | DupBool (b : bool)
  | DupIndices (l : list nat).

(** [for i in indices: del l[i]] *)
Definition del_indices {A} (indices : list nat) (l : list A) : list A :=
  fold_left (fun l i => delete i l) indices l.

Lemma length_del_indices {A} (indices : list nat) (l : list A) :
  (length (del_indices indices l) <= length l)%nat.
Proof.
  revert l. induction indices as [|i indices IH]; intros l; simpl; [lia|].
  etransitivity; [apply IH|].
  apply sublist_length, sublist_delete.
Qed.

(** ** The calendar of [time.strptime]

    [time.strptime(s, "%Y %b %d %H:%M:%S")] in the C locale, as the module
    calls it: fields separated by runs of white space, a four-digit year, a
    month abbreviation in any case, then numbers of one or two digits within
    the range of their field, and a day that exists in that month of that
    year.  [None] stands for the [ValueError]. *)

Definition is_leap (y : Z) : bool :=
  (y mod 4 =? 0) && (negb (y mod 100 =? 0) || (y mod 400 =? 0)).

Definition days_in_month (y m : Z) : Z :=
  if m =? 2 then (if is_leap y then 29 else 28)
  else if (m =? 4) || (m =? 6) || (m =? 9) || (m =? 11) then 30
  else 31.

Definition days_before_year (y : Z) : Z :=
  let p := y - 1 in p * 365 + p / 4 - p / 100 + p / 400.

Fixpoint days_before_month_go (y : Z) (months : nat) : Z :=
  match months with
  | O => 0
  | S k => days_before_month_go y k + days_in_month y (Z.of_nat (S k))
  end.

Definition days_before_month (y m : Z) : Z := days_before_month_go y (Z.to_nat (m - 1)).

(** [datetime.date(y, m, d).toordinal()] *)
Definition toordinal (y m d : Z) : Z := days_before_year y + days_before_month y m + d.

Definition is_digit (c : ascii) : bool :=
  let n := nat_of_ascii c in Nat.leb 48 n && Nat.leb n 57.

Fixpoint all_digits (s : string) : bool :=
  match s with
  | EmptyString => true
  | String c s' => is_digit c && all_digits s'
  end.

Fixpoint int_of_digits (s : string) (acc : Z) : Z :=
  match s with
  | EmptyString => acc
  | String c s' => int_of_digits s' (acc * 10 + Z.of_nat (nat_of_ascii c - 48))
  end.

(** A number of one or two digits between [lo] and [hi]. *)
Definition time_field (lo hi : Z) (s : string) : option Z :=
  let n := String.length s in
  if (Nat.leb 1 n && Nat.leb n 2 && all_digits s)%bool then
    let v := int_of_digits s 0 in
    if (lo <=? v) && (v <=? hi) then Some v else None
  else None.

Definition month_abbr : list string :=
  ["jan"; "feb"; "mar"; "apr"; "may"; "jun"; "jul"; "aug"; "sep"; "oct"; "nov"; "dec"].

Fixpoint index_of (x : string) (l : list string) : option nat :=
  match l with
  | [] => None
  | y :: l' => if String.eqb y x then Some O else S <$> index_of x l'
  end.

Definition starts_with_space (s : string) : bool :=
  match s with
  | String c _ => Py.is_space c
  | EmptyString => false
  end.

Definition ends_with_space (s : string) : bool :=
  match rev (list_ascii_of_string s) with
  | c :: _ => Py.is_space c
  | [] => false
  end.

Definition strptime (s : string) : option struct_time :=
  if starts_with_space s || ends_with_space s then None else
  match Py.split s with
  | [Y; b; d; hms] =>
      if (Nat.eqb (String.length Y) 4 && all_digits Y)%bool then
        let year := int_of_digits Y 0 in
        mon ← index_of (Py.lower_ascii_str b) month_abbr;
        let month := Z.of_nat (S mon) in
        day ← time_field 1 31 d;
        match Py.split_on ":" hms with
        | [Hs; Ms; Ss] =>
            hour ← time_field 0 23 Hs;
            minute ← time_field 0 59 Ms;
            second ← time_field 0 61 Ss;
            if day <=? days_in_month year month then
              let ordinal := toordinal year month day in
              Some (mkTm year month day hour minute second
                         ((ordinal + 6) mod 7)
                         (ordinal - toordinal year 1 1 + 1)
                         (-1))
            else None
        | _ => None
        end
      else None
  | _ => None
  end.

(** ** The daemon the panel is attached to

    What [getLogFileEntries] asks of [torTools.getConn()], of [system.call]
    and of the file system. *)
Record TorConn := mkTorConn {
  (** [getOption("Log", [], True)] *)
  getOption_Log : list string;
  getPathPrefix : string;
  (** [system.call("tail -n %i %s" % (n, path))]: the lines, none on failure *)
  tail_n : Z -> string -> list string;
  (** [open(path, "r").readlines()]; [None] for the [IOError] *)
  readlines : string -> option (list string)
}.

(** Truth of an optional [int]: neither [None] nor 0. *)
Definition truthy (n : option Z) : bool :=
  match n with
  | Some v => negb (v =? 0)
  | None => false
  end.

(** [l.index(x)] *)
Definition list_index (x : string) (l : list string) : res nat :=
  match index_of x l with
  | Some i => Ok i
  | None => Raise ValueError
  end.

(** ** The panel

    The attributes of a [LogPanel] that the buffer and the redraw thread
    use.  [regexFilter] is the compiled filter as the predicate its [search]
    decides, [None] for no filter. *)
Record Panel := mkPanel {
  loggedEvents : list string;
  msgLog : list ref;
  regexFilter : option (string -> bool);
  _lastLoggedEvents : list ref;
  _lastUpdate : Q;
  _halt : bool;
  (** [self.isPaused()] *)
  isPaused : bool
}.

Definition set_msgLog (self : Panel) (l : list ref) : Panel :=
  mkPanel (loggedEvents self) l (regexFilter self) (_lastLoggedEvents self)
          (_lastUpdate self) (_halt self) (isPaused self).

(** What one pass of the loop of [run] does: leave the loop, wait on
    [self._cond] with a timeout in seconds ([None] would be a wait without
    timeout), or redraw and note the day. *)
Inductive RunStep :=
  | Halted
  | CondWait (timeout : option Q)
  | Redraw (lastDay : Z).

(** [threading.Condition.wait]: when a thread that starts waiting at [t0]
    runs again, given the time of the next [notifyAll] if there is one.
    [None]: it never does. *)
Definition wait_returns (t0 : Q) (timeout : option Q) (notify : option Q) : option Q :=
  match timeout, notify with
  | None, None => None
  | None, Some n => Some n
  | Some d, None => Some (t0 + d)%Q
  | Some d, Some n => Some (Qmin n (t0 + d))%Q
  end.

(** ** More of Python's sequences and dictionaries *)

(** [c in s] for a one-character string [c] *)
Definition char_in (c : ascii) (s : string) : bool :=
  existsb (Ascii.eqb c) (list_ascii_of_string s).

(** [d.keys()] and [d.values()], each key once *)
Definition dict_keys {V} (d : dict V) : list string := remove_dups (d.*1).
Definition dict_values {V} (d : dict V) : list V := omap (dict_get d) (dict_keys d).

(** The order of [str]: byte by byte, a proper prefix first. *)
Definition str_le (a b : string) : Prop := String.leb a b = true.

#[global] Instance str_le_dec : RelDecision str_le.
Proof. intros a b. unfold str_le. apply _. Defined.

(** [sorted(l)] for a list of strings *)
Definition sorted (l : list string) : list string := merge_sort str_le l.

(** [l[i]] for an [int] index, negative indices counting from the end;
    [None] stands for the [IndexError]. *)
Definition py_index {A} (l : list A) (i : Z) : option A :=
  if i <? 0 then
    (if 0 <=? Z.of_nat (length l) + i then l !! Z.to_nat (Z.of_nat (length l) + i) else None)
  else l !! Z.to_nat i.

(** [l.remove(x)]: the list without the first [x]; [None] stands for the
    [ValueError] when there is none. *)
Fixpoint list_remove (x : string) (l : list string) : option (list string) :=
  match l with
  | [] => None
  | y :: l' => if String.eqb y x then Some l' else (y ::.) <$> list_remove x l'
  end.

(** ** Event types *)

Definition TOR_EVENT_TYPES : dict string :=
  dict_lit [("d", "DEBUG"); ("a", "ADDRMAP"); ("k", "DESCCHANGED"); ("s", "STREAM");
            ("i", "INFO"); ("f", "AUTHDIR_NEWDESCS"); ("g", "GUARD"); ("r", "STREAM_BW");
            ("n", "NOTICE"); ("h", "BUILDTIMEOUT_SET"); ("l", "NEWCONSENSUS");
            ("t", "STATUS_CLIENT");
            ("w", "WARN"); ("b", "BW"); ("m", "NEWDESC"); ("u", "STATUS_GENERAL");
            ("e", "ERR"); ("c", "CIRC"); ("p", "NS"); ("v", "STATUS_SERVER");
            ("j", "CLIENTS_SEEN"); ("q", "ORCONN")].

(** What [expandEvents] ends with: the set it returns, or the [ValueError]
    it raises, which carries the flags it did not recognize. *)
Inductive Expansion :=
  | Expanded (expandedEvents : gset string)
  | InvalidFlags (invalidFlags : string).

(** What [setEventListening] and [getMissingEventTypes] ask of
    [torTools.getConn()]. *)
Record Controller := mkController {
  (** [getInfo("events/names", None)] *)
  getInfo_events_names : option string;
  (** whether [addEventListener(listener, eventType)] returns; otherwise it
      raises [stem.ProtocolError] *)
  addEventListener_ok : string -> bool
}.

(** ** The regex filters of the panel

    [self.filterOptions], and [self.regexFilter] as the pattern it was
    compiled from, [None] for no filter. *)
Record Filters := mkFilters {
  filterOptions : list string;
  regexPattern : option string
}.

(** * The module *)

Section LogPanel.

(** What the module takes from outside the repository: the local time zone
    and calendar of [time], the runlevels of [stem.util.log], and the
    loaded configuration. *)

(** [TIMEZONE_OFFSET], fixed when the module is imported *)
Variable TIMEZONE_OFFSET : Z.
(** [time.localtime] *)
Variable localtime : pynum -> struct_time.
(** [time.mktime], on the nine fields of a time tuple *)
Variable mktime : list Z -> Q.
(** [list(log.Runlevel)] and the constants [log.DEBUG] ... [log.ERR] *)
Variable log_Runlevel : list string.
Variables log_DEBUG log_INFO log_NOTICE log_WARN log_ERR : string.
(** [conf.get_config("arm")]: each key with its list of values *)
Variable armConf : dict (list string).
(** the integer the configuration gives for a key of [CONFIG], before
    [conf_handler] sees it *)
Variable rawConfig : string -> Z.
(** [uiTools.getPrintable] *)
Variable getPrintable : string -> string.

Definition RUNLEVEL_EVENT_COLOR : dict string :=
  dict_lit [(log_DEBUG, "magenta"); (log_INFO, "blue"); (log_NOTICE, "green");
            (log_WARN, "yellow"); (log_ERR, "red")].

Definition conf_handler (key : string) (value : Z) : option Z :=
  if String.eqb key "features.log.maxLinesPerEntry" then Some (Z.max 1 value)
  else if String.eqb key "features.log.prepopulateReadLimit" then Some (Z.max 0 value)
  else if String.eqb key "features.log.maxRefreshRate" then Some (Z.max 10 value)
  else if String.eqb key "cache.logPanel.size" then Some (Z.max 1000 value)
  else None.

(** [CONFIG[key]] for an integer option: the handler's value where it gives
    one, the configured value otherwise. *)
Definition CONFIG (key : string) : Z :=
  match conf_handler key (rawConfig key) with
  | Some v => v
  | None => rawConfig key
  end.

(** [daysSince(timestamp)].  In Python 2 [/] on two ints is floor division,
    on a float it is true division, which [int] then truncates. *)
Definition daysSince (timestamp : pynum) : Z :=
  match timestamp with
  | PyInt z => (z - TIMEZONE_OFFSET) / 86400
  | PyFloat q => Qtrunc ((q - inject_Z TIMEZONE_OFFSET) / inject_Z 86400)%Q
  end.

(** [daysSince()] when [time.time()] reads [now] *)
Definition daysSince_now (now : Q) : Z := daysSince (PyFloat now).

(** [loadLogMessages()]: the value it gives [COMMON_LOG_MESSAGES] *)
Definition loadLogMessages : dict (list string) :=
  fold_left
    (fun common confKey =>
       if Py.startswith confKey "msg." then
         dict_set common (Py.upper (Py.drop 4 confKey)) (default [] (dict_get armConf confKey))
       else common)
    (armConf.*1) [].

(** ** LogEntry.getDisplayMessage

    The method returns a string and may assign [self._displayMessage]; the
    second component is [self] after the call. *)
Definition getDisplayMessage (self : LogEntry) (includeDate : bool) : string * LogEntry :=
  if includeDate then
    let entryTime := localtime (timestamp self) in
    let timeLabel :=
      Py.fmt_i (tm_mon entryTime) +:+ "/" +:+ Py.fmt_i (tm_mday entryTime) +:+ "/" +:+
      Py.fmt_i (tm_year entryTime) +:+ " " +:+ Py.fmt_02i (tm_hour entryTime) +:+ ":" +:+
      Py.fmt_02i (tm_min entryTime) +:+ ":" +:+ Py.fmt_02i (tm_sec entryTime) in
    (timeLabel +:+ " [" +:+ type self +:+ "] " +:+ msg self, self)
  else
    match _displayMessage self with
    | Some (String c s) => (String c s, self)
    | _ =>
        let entryTime := localtime (timestamp self) in
        let m :=
          Py.fmt_02i (tm_hour entryTime) +:+ ":" +:+ Py.fmt_02i (tm_min entryTime) +:+ ":" +:+
          Py.fmt_02i (tm_sec entryTime) +:+ " [" +:+ type self +:+ "] " +:+ msg self in
        (m, {| timestamp := timestamp self; type := type self; msg := msg self;
               color := color self; _displayMessage := Some m |})
    end.

(** The method called on the object behind a reference. *)
Definition getDisplayMessage_at (st : Store) (r : ref) (includeDate : bool) : string * Store :=
  let '(s, self') := getDisplayMessage (objs st r) includeDate in
  (s, store_set st r self').

(** ** LogPanel._trimEvents *)

(** The backward loop looking for the index to crop from: [i] is the index of
    the head of [revl], the entries still to visit from the last one down. *)
Fixpoint trim_breakpoint (st : Store) (currentDay logTTL : Z) (revl : list ref) (i : nat)
    (breakpoint : option nat) : option nat :=
  match revl with
  | [] => breakpoint
  | e :: revl' =>
      let daysSinceEvent := currentDay - daysSince (timestamp (objs st e)) in
      if daysSinceEvent >? logTTL
      then trim_breakpoint st currentDay logTTL revl' (pred i) (Some i)
      else breakpoint
  end.

(** [_trimEvents(eventListing)]: the list after the call, which crops it in
    place. *)
Definition _trimEvents (st : Store) (now : Q) (eventListing : list ref) : list ref :=
  let cacheSize := CONFIG "cache.logPanel.size" in
  let eventListing :=
    if Z.of_nat (length eventListing) >? cacheSize
    then take (Z.to_nat cacheSize) eventListing else eventListing in
  let logTTL := CONFIG "features.log.entryDuration" in
  if logTTL >? 0 then
    let currentDay := daysSince_now now in
    match trim_breakpoint st currentDay logTTL (reverse eventListing)
            (length eventListing - 1) None with
    | Some breakpoint => take breakpoint eventListing
    | None => eventListing
    end
  else eventListing.

(** ** getDaybreaks *)

(** The loop over [events]; the markers it creates are new objects. *)
Fixpoint daybreaks_loop (st : Store) (lastDay : Z) (events : list ref) : list ref * Store :=
  match events with
  | [] => ([], st)
  | entry :: events' =>
      let eventDay := daysSince (timestamp (objs st entry)) in
      if negb (eventDay =? lastDay) then
        let markerTimestamp := eventDay * 86400 + TIMEZONE_OFFSET in
        let '(marker, st1) :=
          LogEntry_new st (PyInt markerTimestamp) DAYBREAK_EVENT "" "white" in
        let '(rest, st2) := daybreaks_loop st1 eventDay events' in
        (marker :: entry :: rest, st2)
      else
        let '(rest, st2) := daybreaks_loop st eventDay events' in
        (entry :: rest, st2)
  end.

(** [getDaybreaks(events, ignoreTimeForCache)] when [time.time()] reads
    [now]: the list object it returns and the module afterwards. *)
Definition getDaybreaks (now : Q) (events : nat) (ignoreTimeForCache : bool) (g : Globals)
  : nat * Globals :=
  match ev_read g events with
  | [] => ev_alloc g []
  | _ =>
      let currentDay := daysSince_now now in
      let hit :=
        match CACHED_DAYBREAKS g with
        | Some (cargs, cday, cres) =>
            if bool_decide (ev_read g cargs = ev_read g events)
               && (ignoreTimeForCache || (cday =? currentDay))
            then Some cres else None
        | None => None
        end in
      match hit with
      | Some cres => ev_alloc g (ev_read g cres)
      | None =>
          let '(newListing, st') := daybreaks_loop (store g) currentDay (ev_read g events) in
          let '(result, g1) := ev_alloc (set_store g st') newListing in
          let '(cargs, g2) := ev_alloc g1 (ev_read g events) in
          let '(cres, g3) := ev_alloc g2 newListing in
          (result, set_CACHED_DAYBREAKS g3 (Some (cargs, currentDay, cres)))
      end
  end.

(** ** isDuplicate *)

(** The loop over the common messages of the event's type. *)
Fixpoint commonMatch (eventMsg forwardMsg : string) (commonMsgs : list string) : res bool :=
  match commonMsgs with
  | [] => Ok false
  | commonMsg :: commonMsgs' =>
      match commonMsg with
      | EmptyString => Raise IndexError
      | String c0 rest =>
          let isDuplicate :=
            if Ascii.eqb c0 "*"
            then Py.contains eventMsg rest && Py.contains forwardMsg rest
            else Py.startswith eventMsg commonMsg && Py.startswith forwardMsg commonMsg in
          if isDuplicate then Ok true else commonMatch eventMsg forwardMsg commonMsgs'
      end
  end.

(** The test of one forward entry of the same type. *)
Definition sameMessage (common : option (dict (list string))) (event forwardEntry : LogEntry)
  : res bool :=
  if String.eqb (msg event) (msg forwardEntry) then Ok true
  else
    match common with
    | None => Raise TypeError
    | Some d =>
        match dict_get d (type event) with
        | Some commonMsgs => commonMatch (msg event) (msg forwardEntry) commonMsgs
        | None => Ok false
        end
    end.

Fixpoint isDuplicate_loop (common : option (dict (list string))) (st : Store) (event : ref)
    (eventSet : list ref) (getDuplicates : bool) (i : nat) (duplicateIndices : list nat)
  : res dupResult :=
  let done := Ok (if getDuplicates then DupIndices duplicateIndices else DupBool false) in
  match eventSet with
  | [] => done
  | forwardEntry :: eventSet' =>
      if String.eqb (type (objs st forwardEntry)) DAYBREAK_EVENT then done
      else if String.eqb (type (objs st event)) (type (objs st forwardEntry)) then
        isDuplicate ← sameMessage common (objs st event) (objs st forwardEntry);
        if isDuplicate : bool then
          if getDuplicates
          then isDuplicate_loop common st event eventSet' getDuplicates (S i)
                                (duplicateIndices ++ [i])
          else Ok (DupBool true)
        else isDuplicate_loop common st event eventSet' getDuplicates (S i) duplicateIndices
      else isDuplicate_loop common st event eventSet' getDuplicates (S i) duplicateIndices
  end.

(** [isDuplicate(event, eventSet, getDuplicates)] with [COMMON_LOG_MESSAGES]
    holding [common] *)
Definition isDuplicate (common : option (dict (list string))) (st : Store) (event : ref)
    (eventSet : list ref) (getDuplicates : bool) : res dupResult :=
  isDuplicate_loop common st event eventSet getDuplicates 0 [].

Definition indices_of (r : dupResult) : list nat :=
  match r with
  | DupIndices l => l
  | DupBool _ => []
  end.

(** ** getDuplicates *)

(** [(time.time() - startTime) > DEDUPLICATION_TIMEOUT / 1000.0] *)
Definition timed_out (startTime t : Q) : bool :=
  Qgtb (t - startTime)%Q (inject_Z DEDUPLICATION_TIMEOUT / inject_Z 1000)%Q.

(** The [while eventsRemaining] loop.  [clock k] is what [time.time()] reads
    in the iteration numbered [k]; the result is [None] for the timeout. *)
Equations? dedup_loop (common : option (dict (list string))) (st : Store) (startTime : Q)
    (clock : nat -> Q) (k : nat) (eventsRemaining : list ref) (returnEvents : list (ref * nat))
  : res (option (list (ref * nat))) by wf (length eventsRemaining) lt :=
dedup_loop common st startTime clock k [] returnEvents := Ok (Some returnEvents);
dedup_loop common st startTime clock k (entry :: eventsRemaining) returnEvents
  with isDuplicate common st entry eventsRemaining true => {
  | Raise e := Raise e;
  | Ok r with timed_out startTime (clock k) => {
    | true := Ok None;
    | false :=
        dedup_loop common st startTime clock (S k)
          (del_indices (reverse (indices_of r)) eventsRemaining)
          (returnEvents ++ [(entry, length (indices_of r))]) } }.
Proof.
  pose proof (length_del_indices (reverse (indices_of r)) eventsRemaining). simpl. lia.
Qed.

(** [getDuplicates(events)] when [time.time()] first reads [startTime] and
    then [clock 0], [clock 1], ...: the list object it returns ([None] for the
    timeout) and the module afterwards. *)
Definition getDuplicates (startTime : Q) (clock : nat -> Q) (events : nat) (g : Globals)
  : res (option nat) * Globals :=
  let hit :=
    match CACHED_DUPLICATES g with
    | Some (cargs, cres) =>
        if bool_decide (ev_read g cargs = ev_read g events) then Some cres else None
    | None => None
    end in
  match hit with
  | Some cres =>
      let '(result, g1) := dup_alloc g (dup_read g cres) in (Ok (Some result), g1)
  | None =>
      let g0 :=
        match COMMON_LOG_MESSAGES g with
        | None => set_COMMON_LOG_MESSAGES g (Some loadLogMessages)
        | Some _ => g
        end in
      match dedup_loop (COMMON_LOG_MESSAGES g0) (store g0) startTime clock 0
              (ev_read g0 events) [] with
      | Raise e => (Raise e, g0)
      | Ok None => (Ok None, g0)
      | Ok (Some returnEvents) =>
          let '(result, g1) := dup_alloc g0 returnEvents in
          let '(cargs, g2) := ev_alloc g1 (ev_read g0 events) in
          let '(cres, g3) := dup_alloc g2 returnEvents in
          (Ok (Some result), set_CACHED_DUPLICATES g3 (Some (cargs, cres)))
      end
  end.

(** ** getLogFileEntries *)

(** The search of tor's [Log] options for a file. *)
Fixpoint findLogFile (entries : list string) : res (option (string * string)) :=
  match entries with
  | [] => Ok None
  | loggingEntry :: entries' =>
      let entryComp := Py.split loggingEntry in
      match entryComp !! 1%nat with
      | None => Raise IndexError
      | Some kind =>
          if String.eqb kind "file" then
            match entryComp !! 0%nat, entryComp !! 2%nat with
            | Some loggingTypes, Some loggingLocation => Ok (Some (loggingTypes, loggingLocation))
            | _, _ => Raise IndexError
            end
          else findLogFile entries'
      end
  end.

(** The read limit after the superset check.  [runlevels] is the local
    variable of that name, which by then holds [list(log.Runlevel)]. *)
Definition cropReadLimit (runlevels : list string) (loggingTypes : string)
    (readLimit addLimit : option Z) : res (option Z) :=
  let wanted :=
    truthy addLimit &&
    (negb (truthy readLimit) ||
     match readLimit, addLimit with
     | Some r, Some a => r >? a
     | _, _ => false
     end) in
  if wanted then
    logFileRunlevels ←
      match Py.find_char "-" loggingTypes with
      | Some divIndex =>
          sIndex ← list_index (Py.take divIndex loggingTypes) runlevels;
          eIndex ← list_index (Py.drop (S divIndex) loggingTypes) runlevels;
          Ok (drop sIndex (take (S eIndex) runlevels))
      | None =>
          sIndex ← list_index loggingTypes runlevels;
          Ok (drop sIndex runlevels)
      end;
    let isFileSubset :=
      forallb (fun runlevelType => bool_decide (runlevelType ∈ runlevels)) logFileRunlevels in
    Ok (if isFileSubset then addLimit else readLimit)
  else Ok readLimit.

(** Lines 208 to 259: where the log is, how much of it to read, and its
    lines.  [None] where the function returns [[]] at once. *)
Definition backfillLines (tor : TorConn) (readLimit addLimit : option Z)
  : res (option (option Z * string * list string)) :=
  found ← findLogFile (getOption_Log tor);
  match found with
  | None => Ok None
  | Some (loggingTypes, loggingLocation) =>
      let loggingLocation := getPathPrefix tor +:+ loggingLocation in
      let runlevels := log_Runlevel in
      let loggingTypes := Py.upper loggingTypes in
      readLimit ← cropReadLimit runlevels loggingTypes readLimit addLimit;
      let lines :=
        match readLimit with
        | Some n => if negb (n =? 0) then tail_n tor n loggingLocation
                    else default [] (readlines tor loggingLocation)
        | None => default [] (readlines tor loggingLocation)
        end in
      match lines with
      | [] => Ok None
      | _ => Ok (Some (readLimit, loggingLocation, lines))
      end
  end.

(** The time of a log line of which [lineComp] are the words. *)
Definition lineTime (currentUnixTime : Q) (currentLocalTime_tm_isdst : Z)
    (lineComp : list string) : res Q :=
  let timestamp := Py.join " " (take 3 lineComp) in
  let timestamp :=
    match Py.find_char "." timestamp with
    | Some i => Py.take i timestamp
    | None => timestamp
    end in
  let timestamp := "2012 " +:+ timestamp in
  match strptime timestamp with
  | None => Raise ValueError
  | Some t =>
      let eventTimeComp := <[8%nat := currentLocalTime_tm_isdst]> (tm_list t) in
      let eventTime := mktime eventTimeComp in
      if Qgtb eventTime (currentUnixTime + inject_Z 60)%Q then
        let eventTimeComp := alter (fun y => y - 1) 0%nat eventTimeComp in
        Ok (mktime eventTimeComp)
      else Ok eventTime
  end.

(** The loop over the lines, last line first: [lines] is the file reversed.
    [runlevels] is again the local variable. *)
Fixpoint scanLogLines (runlevels : list string) (currentUnixTime : Q)
    (currentLocalTime_tm_isdst : Z) (lines : list string) (st : Store)
  : res (list ref * Store) :=
  match lines with
  | [] => Ok ([], st)
  | line :: lines' =>
      let lineComp := Py.split line in
      if Nat.ltb (length lineComp) 4 then
        scanLogLines runlevels currentUnixTime currentLocalTime_tm_isdst lines' st
      else
        let eventType := Py.upper (Py.strip_ends (default "" (lineComp !! 3%nat))) in
        '(added, st1) ←
          (if bool_decide (eventType ∈ runlevels) then
             eventTime ← lineTime currentUnixTime currentLocalTime_tm_isdst lineComp;
             let eventMsg := Py.join " " (drop 4 lineComp) in
             match dict_get RUNLEVEL_EVENT_COLOR eventType with
             | None => Raise KeyError
             | Some color =>
                 let '(entry, st1) :=
                   LogEntry_new st (PyFloat eventTime) eventType eventMsg color in
                 Ok ([entry], st1)
             end
           else Ok ([], st));
        if Py.contains line "opening log file" then Ok (added, st1)
        else
          '(more, st2) ←
            scanLogLines runlevels currentUnixTime currentLocalTime_tm_isdst lines' st1;
          Ok (added ++ more, st2)
  end.

(** [getLogFileEntries(runlevels, readLimit, addLimit)] when [time.time()]
    reads [currentUnixTime] and [time.localtime().tm_isdst] is
    [currentLocalTime_tm_isdst]: the entries it returns, which are new
    objects, and the store afterwards. *)
Definition getLogFileEntries (tor : TorConn) (currentUnixTime : Q)
    (currentLocalTime_tm_isdst : Z) (runlevels : list string) (readLimit addLimit : option Z)
    (st : Store) : res (list ref * Store) :=
  match runlevels with
  | [] => Ok ([], st)
  | _ =>
      located ← backfillLines tor readLimit addLimit;
      match located with
      | None => Ok ([], st)
      | Some (readLimit, loggingLocation, lines) =>
          let runlevels := log_Runlevel in
          '(loggedEvents, st') ←
            scanLogLines runlevels currentUnixTime currentLocalTime_tm_isdst (reverse lines) st;
          let loggedEvents :=
            match addLimit with
            | Some a => if negb (a =? 0) then Py.slice_to a loggedEvents else loggedEvents
            | None => loggedEvents
            end in
          (* the closing [log.info] formats the read limit with [%i] *)
          match readLimit with
          | None => Raise TypeError
          | Some _ => Ok (loggedEvents, st')
          end
      end
  end.

(** ** LogPanel.run *)

(** [sleepTime] as one pass of the loop computes it, [daysSince()] reading
    the clock at [tDay] and [time.time()] at [tNow]. *)
Definition sleepTime (self : Panel) (lastDay : Z) (tDay tNow : Q) : Q :=
  let currentDay := daysSince_now tDay in
  let timeSinceReset := (tNow - _lastUpdate self)%Q in
  let maxLogUpdateRate := (inject_Z (CONFIG "features.log.maxRefreshRate") / inject_Z 1000)%Q in
  if (bool_decide (msgLog self = _lastLoggedEvents self) && (lastDay =? currentDay))
     || isPaused self
  then 5%Q
  else if Qgtb maxLogUpdateRate timeSinceReset
  then Qmax (5 # 100) (maxLogUpdateRate - timeSinceReset)%Q
  else 0%Q.

(** One pass of [while not self._halt]. *)
Definition run_iteration (self : Panel) (lastDay : Z) (tDay tNow : Q) : RunStep :=
  if _halt self then Halted
  else
    let sleepTime := sleepTime self lastDay tDay tNow in
    if negb (Qeq_bool sleepTime 0) then CondWait (Some sleepTime)
    else Redraw (daysSince_now tDay).

(** [LogPanel.stop]: the panel afterwards, and whether the condition is
    notified. *)
Definition stop (self : Panel) : Panel * bool :=
  (mkPanel (loggedEvents self) (msgLog self) (regexFilter self) (_lastLoggedEvents self)
           (_lastUpdate self) true (isPaused self),
   true).

(** ** LogPanel.registerEvent

    For a panel that saves no log file ([self.logFile] is [None], as it is
    unless [features.logFile] is set).  [now] is what [daysSince()] reads in
    [_trimEvents].  The result is the panel and the objects afterwards, and
    whether the condition is notified. *)
Definition registerEvent (self : Panel) (st : Store) (event : ref) (now : Q)
  : Panel * Store * bool :=
  if negb (bool_decide (type (objs st event) ∈ loggedEvents self)) then (self, st, false)
  else
    let e := objs st event in
    let st1 :=
      store_set st event
        (mkLogEntry (timestamp e) (type e) (getPrintable (msg e)) (color e)
                    (_displayMessage e)) in
    let self1 := set_msgLog self (_trimEvents st1 now (event :: msgLog self)) in
    match regexFilter self with
    | None => (self1, st1, true)
    | Some search =>
        let '(line, st2) := getDisplayMessage_at st1 event false in
        (self1, st2, search line)
    end.

(** ** LogPanel.reprepopulateEvents

    [prepopulate] is [CONFIG["features.log.prepopulate"]]; [now] is what the
    clock reads in [getLogFileEntries], [now'] in [_trimEvents]. *)
Definition reprepopulateEvents (tor : TorConn) (now now' : Q) (isdst : Z) (prepopulate : bool)
    (self : Panel) (st : Store) : res (Panel * Store) :=
  '(msgLog, st1) ←
    (if prepopulate then
       let setRunlevels := list_intersection (remove_dups (loggedEvents self)) log_Runlevel in
       let readLimit := CONFIG "features.log.prepopulateReadLimit" in
       let addLimit := CONFIG "cache.logPanel.size" in
       getLogFileEntries tor now isdst setRunlevels (Some readLimit) (Some addLimit) st
     else Ok ([], st));
  Ok (set_msgLog self (_trimEvents st1 now' msgLog), st1).

(** ** expandEvents *)

(** [runlevelIndex] for a flag of ["DINWE12345"], of which ["E5"] is the
    last case. *)
Definition runlevelIndex (flag : ascii) : nat :=
  if char_in flag "D1" then 1
  else if char_in flag "I2" then 2
  else if char_in flag "N3" then 3
  else if char_in flag "W4" then 4
  else 5.

(** The loop over the flags, which [break] leaves at an [A] or an [X]. *)
Fixpoint expandEvents_loop (eventAbbr : string) (expandedEvents : gset string)
    (invalidFlags : string) : gset string * string :=
  match eventAbbr with
  | EmptyString => (expandedEvents, invalidFlags)
  | String flag eventAbbr' =>
      if Ascii.eqb flag "A" then
        let armRunlevels := (fun runlevel => "ARM_" +:+ runlevel) <$> log_Runlevel in
        (list_to_set (dict_keys TOR_EVENT_TYPES ++ armRunlevels ++ ["UNKNOWN"]), invalidFlags)
      else if Ascii.eqb flag "X" then (∅, invalidFlags)
      else if char_in flag "DINWE12345" then
        let runlevelIndex := runlevelIndex flag in
        if char_in flag "DINWE" then
          let runlevelSet := drop runlevelIndex log_Runlevel in
          expandEvents_loop eventAbbr' (expandedEvents ∪ list_to_set runlevelSet) invalidFlags
        else if char_in flag "12345" then
          let runlevelSet :=
            (fun runlevel => "ARM_" +:+ runlevel) <$> drop runlevelIndex log_Runlevel in
          expandEvents_loop eventAbbr' (expandedEvents ∪ list_to_set runlevelSet) invalidFlags
        else expandEvents_loop eventAbbr' expandedEvents invalidFlags
      else if Ascii.eqb flag "U" then
        expandEvents_loop eventAbbr' (expandedEvents ∪ {["UNKNOWN"]}) invalidFlags
      else
        match dict_get TOR_EVENT_TYPES (String flag EmptyString) with
        | Some eventType =>
            expandEvents_loop eventAbbr' (expandedEvents ∪ {[eventType]}) invalidFlags
        | None =>
            expandEvents_loop eventAbbr' expandedEvents
                              (invalidFlags +:+ String flag EmptyString)
        end
  end.

(** [expandEvents(eventAbbr)] *)
Definition expandEvents (eventAbbr : string) : Expansion :=
  let '(expandedEvents, invalidFlags) := expandEvents_loop eventAbbr ∅ "" in
  if negb (String.eqb invalidFlags "") then InvalidFlags invalidFlags
  else Expanded expandedEvents.

(** ** getMissingEventTypes *)

Definition getMissingEventTypes (conn : Controller) : option (list string) :=
  match getInfo_events_names conn with
  | Some (String c s) =>
      let torEventTypes := Py.split_on " " (String c s) in
      let armEventTypes := dict_values TOR_EVENT_TYPES in
      Some (filter (fun event => event ∉ armEventTypes) torEventTypes)
  | _ => None
  end.

(** ** LogPanel.setEventListening

    The sorted list the method returns, and the event types for which
    [registerTorEvent] is a listener of the controller afterwards: the
    listener is removed, then added for each type, and a type for which
    [addEventListener] raises is dropped.  [set(None)], for a failed
    [GETINFO], is a [TypeError]. *)

(** [log.Runlevel.keys()] *)
Variable log_Runlevel_keys : list string.

Definition setEventListening (conn : Controller) (events : list string)
  : res (list string * gset string) :=
  let events : gset string := list_to_set events in
  let events :=
    if bool_decide ("ERROR" ∈ events) then (events ∪ {["ERR"]}) ∖ {["ERROR"]} else events in
  let events :=
    if bool_decide ("WARNING" ∈ events) then (events ∪ {["WARN"]}) ∖ {["WARNING"]} else events in
  let torEvents := events ∩ list_to_set (dict_values TOR_EVENT_TYPES) in
  let armEvents :=
    events ∩ list_to_set ((fun runlevel => "ARM_" +:+ runlevel) <$> log_Runlevel_keys) in
  torEvents ←
    (if bool_decide ("UNKNOWN" ∈ events) then
       match getMissingEventTypes conn with
       | Some missing => Ok (torEvents ∪ list_to_set missing)
       | None => Raise TypeError
       end
     else Ok torEvents);
  let torEvents :=
    filter (fun eventType => addEventListener_ok conn eventType = true) torEvents in
  Ok (sorted (elements (torEvents ∪ armEvents)), torEvents).

(** ** The regex filters

    [re_valid pattern] tells whether [re.compile(pattern)] returns; it
    raises [re.error] otherwise. *)
Variable re_valid : string -> bool.

(** The loop of [LogPanel.__init__] over [CONFIG["features.log.regex"]] *)
Fixpoint loadFilterOptions (configured : list string) (filterOptions : list string)
  : list string :=
  match configured with
  | [] => filterOptions
  | filter :: configured' =>
      if Nat.leb MAX_REGEX_FILTERS (length filterOptions) then filterOptions
      else if re_valid filter then loadFilterOptions configured' (filterOptions ++ [filter])
      else loadFilterOptions configured' filterOptions
  end.

(** [LogPanel.getFilter] *)
Definition getFilter (self : Filters) : res (option string) :=
  match regexPattern self with
  | Some _ =>
      match filterOptions self with
      | pattern :: _ => Ok (Some pattern)
      | [] => Raise IndexError
      end
  | None => Ok None
  end.

(** [LogPanel.setFilter], but for the redraw *)
Definition setFilter (self : Filters) (logFilter : option string) : Filters :=
  mkFilters (filterOptions self) logFilter.

(** [LogPanel.makeFilterSelection]: the [ValueError] of [list.remove] is not
    caught. *)
Definition makeFilterSelection (self : Filters) (selectedOption : option string)
  : res Filters :=
  match selectedOption with
  | Some (String c s) =>
      let selectedOption := String c s in
      if re_valid selectedOption then
        let self := setFilter self (Some selectedOption) in
        match list_remove selectedOption (filterOptions self) with
        | Some rest => Ok (mkFilters (selectedOption :: rest) (regexPattern self))
        | None => Raise ValueError
        end
      else
        match list_remove selectedOption (filterOptions self) with
        | Some rest => Ok (mkFilters rest (regexPattern self))
        | None => Raise ValueError
        end
  | _ => Ok (setFilter self None)
  end.

(** [LogPanel.showFilterPrompt], [regexInput] being what the user typed *)
Definition showFilterPrompt (self : Filters) (regexInput : option string) : Filters :=
  match regexInput with
  | Some (String c s) =>
      let regexInput := String c s in
      if re_valid regexInput then
        let self := setFilter self (Some regexInput) in
        let options :=
          match list_remove regexInput (filterOptions self) with
          | Some rest => rest
          | None => filterOptions self
          end in
        mkFilters (regexInput :: options) (regexPattern self)
      else self
  | _ => self
  end.

(** The branch of [LogPanel.handleKey] for the key [f]: [selection] is what
    [popups.showMenu] returns, [regexInput] what the user types if asked. *)
Definition handleKey_f (self : Filters) (selection : Z) (regexInput : option string)
  : res Filters :=
  let options := ["None"] ++ filterOptions self ++ ["New..."] in
  self ←
    (if selection =? 0 then Ok (setFilter self None)
     else if selection =? Z.of_nat (length options) - 1 then
       Ok (showFilterPrompt self regexInput)
     else if negb (selection =? -1) then
       match py_index (filterOptions self) (selection - 1) with
       | Some selected => makeFilterSelection self (Some selected)
       | None => Raise IndexError
       end
     else Ok self);
  Ok (if Nat.ltb MAX_REGEX_FILTERS (length (filterOptions self))
      then mkFilters (take MAX_REGEX_FILTERS (filterOptions self)) (regexPattern self)
      else self).

(** ** LogPanel.draw: the log to draw

    The lines of [draw] that put the log through [getDaybreaks] and
    [getDuplicates], before anything is painted.  [currentLog] is the list
    [self.getAttr("msgLog")] gives, [filtered] tells whether
    [self.regexFilter] is set, [showDateDividers] and [showDuplicateEntries]
    are the two options of [CONFIG].  The result is [deduplicatedLog] and
    the option [features.log.showDuplicateEntries] afterwards, which
    [setDuplicateVisability(True)] turns on when the deduplication timed
    out. *)
Definition draw_log (now startTime : Q) (clock : nat -> Q)
    (filtered showDateDividers showDuplicateEntries isPaused : bool)
    (currentLog : nat) (g : Globals) : res (nat * bool) * Globals :=
  let isDatesShown := negb filtered && showDateDividers in
  let '(eventLog, g1) :=
    if isDatesShown then getDaybreaks now currentLog isPaused g
    else ev_alloc g (ev_read g currentLog) in
  if negb showDuplicateEntries then
    match getDuplicates startTime clock eventLog g1 with
    | (Raise e, g2) => (Raise e, g2)
    | (Ok (Some deduplicatedLog), g2) => (Ok (deduplicatedLog, showDuplicateEntries), g2)
    | (Ok None, g2) =>
        let '(deduplicatedLog, g3) :=
          dup_alloc g2 ((fun entry => (entry, 0%nat)) <$> ev_read g2 eventLog) in
        (Ok (deduplicatedLog, true), g3)
    end
  else
    let '(deduplicatedLog, g2) :=
      dup_alloc g1 ((fun entry => (entry, 0%nat)) <$> ev_read g1 eventLog) in
    (Ok (deduplicatedLog, showDuplicateEntries), g2).

(** * The vocabulary of the properties *)

(** The one-line display string, as the method computes it. *)
Definition displayLine (self : LogEntry) : string :=
  let entryTime := localtime (timestamp self) in
  Py.fmt_02i (tm_hour entryTime) +:+ ":" +:+ Py.fmt_02i (tm_min entryTime) +:+ ":" +:+
  Py.fmt_02i (tm_sec entryTime) +:+ " [" +:+ type self +:+ "] " +:+ msg self.

(** [daysSinceEvent] in [_trimEvents]: the age of an entry in local days. *)
Definition daysSinceEvent (st : Store) (now : Q) (r : ref) : Z :=
  daysSince_now now - daysSince (timestamp (objs st r)).

(** The entries run from newer days to older ones. *)
Definition day_ordered (st : Store) (l : list ref) : Prop :=
  forall i j a b, (i <= j)%nat -> l !! i = Some a -> l !! j = Some b ->
    daysSince (timestamp (objs st b)) <= daysSince (timestamp (objs st a)).

(** The list cut at the index the backward scan found, if it found one. *)
Definition crop_at {A} (breakpoint : option nat) (l : list A) : list A :=
  match breakpoint with
  | Some b => take b l
  | None => l
  end.

(** [inserted P l k]: [k] is [l] with further elements put in, each of which
    satisfies [P]; the elements of [l] stay, in their order. *)
Inductive inserted (P : ref -> Prop) : list ref -> list ref -> Prop :=
  | inserted_nil : inserted P [] []
  | inserted_keep x l k : inserted P l k -> inserted P (x :: l) (x :: k)
  | inserted_new m l k : P m -> inserted P l k -> inserted P l (m :: k).

#[local] Hint Constructors inserted : core.

(** The memo of [getDaybreaks] holds a result for the arguments it holds:
    the cached result is the cached argument list with markers put in. *)
Definition daybreaks_cache_ok (g : Globals) : Prop :=
  match CACHED_DAYBREAKS g with
  | Some (cargs, _, cres) =>
      inserted (fun x => is_daybreak (store g) x = true) (ev_read g cargs) (ev_read g cres)
  | None => True
  end.

(** The memos name lists that exist. *)
Definition caches_allocated (g : Globals) : Prop :=
  match CACHED_DAYBREAKS g with
  | Some (cargs, _, cres) =>
      (cargs < length (evlists g))%nat /\ (cres < length (evlists g))%nat
  | None => True
  end
  /\ match CACHED_DUPLICATES g with
     | Some (cargs, cres) =>
         (cargs < length (evlists g))%nat /\ (cres < length (duplists g))%nat
     | None => True
     end.

(** What makes [j] an index [isDuplicate] may report for [event] in [full]:
    the entry there has the category of [event], and no DAYBREAK entry stands
    at or before it. *)
Definition good_index (st : Store) (event : ref) (full : list ref) (j : nat) : Prop :=
  exists f, full !! j = Some f
    /\ type (objs st f) = type (objs st event)
    /\ Forall (fun x => is_daybreak st x = false) (take (S j) full).

(** The sum of the duplicate counts of a result. *)
Definition count_sum (l : list (ref * nat)) : nat := sum_list_with snd l.

(** The only exception of the deduplication is the [IndexError] of
    [commonMsg[0]] on an empty common message. *)
Definition has_empty_message (d : dict (list string)) : Prop :=
  exists ty msgs, dict_get d ty = Some msgs /\ "" ∈ msgs.

(** [COMMON_LOG_MESSAGES] once [getDuplicates] has seen to it. *)
Definition effective_common (g : Globals) : dict (list string) :=
  match COMMON_LOG_MESSAGES g with
  | Some d => d
  | None => loadLogMessages
  end.

(** The memo of [getDuplicates] holds a result for the arguments it holds. *)
Definition duplicates_cache_ok (g : Globals) : Prop :=
  match CACHED_DUPLICATES g with
  | Some (cargs, cres) =>
      (count_sum (dup_read g cres) + length (dup_read g cres) = length (ev_read g cargs))%nat
  | None => True
  end.

(** [duplicate_of common st E a b]: in the loop of [getDuplicates] over [E],
    some pass pops [a] and finds [b] among its duplicates, at an index
    [isDuplicate] reports for [a] in what then remains. *)
Inductive duplicate_of (common : option (dict (list string))) (st : Store)
  : list ref -> ref -> ref -> Prop :=
  | duplicate_now entry eventsRemaining r i b :
      isDuplicate common st entry eventsRemaining true = Ok r ->
      i ∈ indices_of r -> eventsRemaining !! i = Some b ->
      duplicate_of common st (entry :: eventsRemaining) entry b
  | duplicate_later entry eventsRemaining r a b :
      isDuplicate common st entry eventsRemaining true = Ok r ->
      duplicate_of common st (del_indices (reverse (indices_of r)) eventsRemaining) a b ->
      duplicate_of common st (entry :: eventsRemaining) a b.

(** The log line of the specification's example. *)
Definition geoip_line : string := "Jul 15 18:29:48.806 [notice] Parsing GEOIP file.".

(** The time tuple of July 15, 18:29:48 in a year, as [lineTime] hands it to
    [mktime]: week day and day of the year are those of 2012. *)
Definition july15 (year isdst : Z) : list Z := [year; 7; 15; 18; 29; 48; 6; 197; isdst].

(** The entry as [registerEvent] leaves it before it looks at the filter:
    its message made printable. *)
Definition printable_entry (e : LogEntry) : LogEntry :=
  mkLogEntry (timestamp e) (type e) (getPrintable (msg e)) (color e) (_displayMessage e).

(** What the properties of the two memoizing functions assume of the module. *)
Definition module_ok (g : Globals) : Prop :=
  caches_allocated g /\ daybreaks_cache_ok g /\ duplicates_cache_ok g.

(** The number of day-boundary entries of a list. *)
Definition boundaries (st : Store) (l : list ref) : nat :=
  length (filter (fun x => is_daybreak st x = true) l).

(** The dated display string as the specification writes it,
    [MM/DD/YYYY HH:MM:SS [category] message], month and day on two digits. *)
Definition spec_dated_message (t : struct_time) (category message : string) : string :=
  Py.fmt_02i (tm_mon t) +:+ "/" +:+ Py.fmt_02i (tm_mday t) +:+ "/" +:+ Py.fmt_i (tm_year t)
  +:+ " " +:+ Py.fmt_02i (tm_hour t) +:+ ":" +:+ Py.fmt_02i (tm_min t) +:+ ":" +:+
  Py.fmt_02i (tm_sec t) +:+ " [" +:+ category +:+ "] " +:+ message.

(** The flags [expandEvents] knows: [A], [X], the runlevel flags, [U] and
    the keys of [TOR_EVENT_TYPES]. *)
Definition recognised (flag : ascii) : bool :=
  Ascii.eqb flag "A" || Ascii.eqb flag "X" || char_in flag "DINWE12345" || Ascii.eqb flag "U"
  || bool_decide (is_Some (dict_get TOR_EVENT_TYPES (String flag EmptyString))).

(** The flags in front of the first [A] or [X]. *)
Fixpoint scanned (eventAbbr : string) : string :=
  match eventAbbr with
  | EmptyString => EmptyString
  | String flag eventAbbr' =>
      if Ascii.eqb flag "A" || Ascii.eqb flag "X" then EmptyString
      else String flag (scanned eventAbbr')
  end.

(** The characters of a string that pass a test, in their order. *)
Fixpoint str_filter (f : ascii -> bool) (s : string) : string :=
  match s with
  | EmptyString => EmptyString
  | String c s' => if f c then String c (str_filter f s') else str_filter f s'
  end.

(** Flags that are all known, none of them [A] or [X]. *)
Definition plain_flags (eventAbbr : string) : Prop :=
  scanned eventAbbr = eventAbbr
  /\ str_filter (fun flag => negb (recognised flag)) eventAbbr = EmptyString.

(** What the flag [A] stands for: the keys of [TOR_EVENT_TYPES], arm's
    runlevels and [UNKNOWN]. *)
Definition all_events : gset string :=
  list_to_set (dict_keys TOR_EVENT_TYPES
               ++ ((fun runlevel => "ARM_" +:+ runlevel) <$> log_Runlevel) ++ ["UNKNOWN"]).

(** An event type of tor that arm has a flag for, and an event of arm's own
    log at one of the runlevels. *)
Definition tor_event (eventType : string) : Prop := eventType ∈ dict_values TOR_EVENT_TYPES.

Definition arm_event (eventType : string) : Prop :=
  exists runlevel, runlevel ∈ log_Runlevel_keys /\ eventType = "ARM_" +:+ runlevel.

(** The event types asked for, [ERROR] and [WARNING] under the names tor and
    arm have for them. *)
Definition asked_for (events : list string) (eventType : string) : Prop :=
  (eventType ∈ events /\ eventType <> "ERROR" /\ eventType <> "WARNING")
  \/ (eventType = "ERR" /\ "ERROR" ∈ events)
  \/ (eventType = "WARN" /\ "WARNING" ∈ events).



(** The memo of [getDuplicates] is empty or holds another list. *)
Definition duplicates_not_cached (g : Globals) (events : nat) : Prop :=
  forall cargs cres,
    CACHED_DUPLICATES g = Some (cargs, cres) -> ev_read g cargs <> ev_read g events.

(** What the filter menu keeps: every filter it offers compiles, and the
    filter in use is the first of them. *)
Definition filters_ok (self : Filters) : Prop :=
  Forall (fun pattern => re_valid pattern = true) (filterOptions self)
  /\ (length (filterOptions self) <= MAX_REGEX_FILTERS)%nat
  /\ forall pattern, regexPattern self = Some pattern -> head (filterOptions self) = Some pattern.

(** * Sample inputs

    A time zone at UTC, stem's runlevels, a tor that logs notices to a file,
    and small logs: the inputs at which the properties are exercised and the
    inputs that separate the code from the specification. *)

(** [mktime] in a zone at UTC without daylight saving. *)
Definition utc_mktime (t : list Z) : Q :=
  match t with
  | [y; m; d; hh; mi; ss; _; _; _] =>
      inject_Z ((toordinal y m d - 719163) * 86400 + hh * 3600 + mi * 60 + ss)
  | _ => 0%Q
  end.

(** The runlevels of stem, lowest first. *)
Definition stem_Runlevel : list string :=
  ["TRACE"; "DEBUG"; "INFO"; "NOTICE"; "WARN"; "ERROR"].

Definition notices_log : string := "/var/log/tor/notices.log".

(** A tor with [Log notice file /var/log/tor/notices.log] whose log holds one
    line. *)
Definition sample_tor : TorConn :=
  mkTorConn ["notice file /var/log/tor/notices.log"] ""
    (fun n path => if String.eqb path notices_log then [geoip_line] else [])
    (fun path => if String.eqb path notices_log then Some [geoip_line] else None).

(** No object yet. *)
Definition empty_store : Store :=
  mkStore (fun _ => LogEntry_init (PyInt 0) "" "" "") 0%nat.

(** Four entries, newest first: two equal notices of day 11, then a notice
    and a warning of day 10. *)
Definition sample_store : Store :=
  mkStore (fun r => match r with
                    | 0%nat => LogEntry_init (PyInt (11 * 86400 + 60)) "NOTICE" "a" "green"
                    | 1%nat => LogEntry_init (PyInt (11 * 86400 + 50)) "NOTICE" "a" "green"
                    | 2%nat => LogEntry_init (PyInt (10 * 86400 + 60)) "NOTICE" "a" "green"
                    | _ => LogEntry_init (PyInt (10 * 86400 + 50)) "WARN" "b" "yellow"
                    end) 4%nat.

(** The module after import, with one list object: the sample log. *)
Definition sample_globals : Globals :=
  mkGlobals sample_store [[0; 1; 2; 3]%nat] [] None None None.

(** Two hours into day 11. *)
Definition sample_now : Q := inject_Z (11 * 86400 + 7200).

(** A configuration: entries live 7 days, at most one redraw per 300 ms. *)
Definition sample_config (key : string) : Z :=
  if String.eqb key "features.log.entryDuration" then 7
  else if String.eqb key "features.log.maxRefreshRate" then 300
  else 1000.

(** July 5, 2012, 18:29:48, whatever the time stamp. *)
Definition july5_localtime (_ : pynum) : struct_time :=
  mkTm 2012 7 5 18 29 48 3 187 0.

(** An entry of day 0 in front of an entry of day 100. *)
Definition unordered_store : Store :=
  mkStore (fun r => match r with
                    | 0%nat => LogEntry_init (PyInt 3600) "NOTICE" "old" "green"
                    | _ => LogEntry_init (PyInt (100 * 86400)) "NOTICE" "young" "green"
                    end) 2%nat.

(** A log whose one entry is itself of the DAYBREAK category. *)
Definition daybreak_globals : Globals :=
  mkGlobals (mkStore (fun _ => LogEntry_init (PyInt (11 * 86400)) DAYBREAK_EVENT "" "white") 1%nat)
            [[0%nat]] [] None None None.

(** A log of one entry. *)
Definition single_globals : Globals :=
  mkGlobals sample_store [[3%nat]] [] None None None.

(** A panel drawn with its present log, and one whose log has changed since. *)
Definition idle_panel : Panel :=
  mkPanel ["NOTICE"] [0; 1]%nat None [0; 1]%nat 0%Q false false.

Definition changed_panel : Panel :=
  mkPanel ["NOTICE"] [1; 0; 1]%nat None [0; 1]%nat 0%Q false false.

(** The runlevels of [stem.util.log] as the examples in the docstring of
    [expandEvents] have them. *)
Definition arm_Runlevel : list string := ["TRACE"; "DEBUG"; "INFO"; "NOTICE"; "WARN"; "ERR"].

(** A tor that knows two event types arm has no flag for, and refuses to
    report bandwidth. *)
Definition sample_controller : Controller :=
  mkController (Some "CIRC BW CONF_CHANGED NOTICE SIGNAL")
               (fun eventType => negb (String.eqb eventType "BW")).

(** A log of three notices with one message. *)
Definition notices_globals : Globals :=
  mkGlobals sample_store [[0; 1; 2]%nat] [] None None None.

(** The last line of this log has no date. *)
Definition undated_tor : TorConn :=
  let lines := ["Jul 15 18:29:48.806 [notice] Parsing GEOIP file.";
                "out of order [notice] Parsing GEOIP file."] in
  mkTorConn ["notice file /var/log/tor/notices.log"] ""
    (fun n path => if String.eqb path notices_log then lines else [])
    (fun path => if String.eqb path notices_log then Some lines else None).

(** Every pattern compiles but the open parenthesis. *)
Definition sample_valid (pattern : string) : bool := negb (String.eqb pattern "(").

(** Three filters, the first of them in use. *)
Definition sample_filters : Filters := mkFilters ["warn"; "bw"; "circ"] (Some "warn").

(** * Properties *)

(** ** Display strings *)

Lemma append_assoc (a b c : string) : (a +:+ b) +:+ c = a +:+ (b +:+ c).
Proof.
  induction a as [|x a IH]; [reflexivity|].
  change (String x ((a +:+ b) +:+ c) = String x (a +:+ (b +:+ c))). by rewrite IH.
Qed.

Lemma fmt_02i_not_empty (z : Z) : exists c s, Py.fmt_02i z = String c s.
Proof.
  unfold Py.fmt_02i.
  destruct (Nat.ltb (String.length (Py.fmt_i z)) 2) eqn:E; [eauto|].
  destruct (Py.fmt_i z) as [|c s]; [discriminate E|eauto].
Qed.

Lemma displayLine_not_empty (self : LogEntry) : exists c s, displayLine self = String c s.
Proof.
  unfold displayLine.
  destruct (fmt_02i_not_empty (tm_hour (localtime (timestamp self)))) as (c & s & ->).
  exists c. eexists. reflexivity.
Qed.

(** C7 (amended).  Without the date flag a new entry gets the line
    [HH:MM:SS [category] message], which the call stores in the entry; once
    stored, the line is returned as it is, whatever the entry's other
    attributes have become.  With the date flag the result is
    [M/D/YYYY HH:MM:SS [category] message], month and day without padding,
    computed from the entry at each call and stored nowhere. *)
Theorem getDisplayMessage_lines (ts : pynum) (eventType message colour : string) :
  let self := LogEntry_init ts eventType message colour in
  let line := displayLine self in
  let t := localtime ts in
  getDisplayMessage self false
    = (line, mkLogEntry ts eventType message colour (Some line))
  /\ (forall ts' type' msg' color',
        let cached := mkLogEntry ts' type' msg' color' (Some line) in
        getDisplayMessage cached false = (line, cached))
  /\ (forall stored,
        let any := mkLogEntry ts eventType message colour stored in
        getDisplayMessage any true
        = (Py.fmt_i (tm_mon t) +:+ "/" +:+ Py.fmt_i (tm_mday t) +:+ "/" +:+
           Py.fmt_i (tm_year t) +:+ " " +:+ line, any)).
Proof.
  intros self line t. split; [reflexivity|]. split.
  - intros ts' type' msg' color' cached.
    destruct (displayLine_not_empty self) as (c & s & E).
    unfold getDisplayMessage, cached, line. simpl. rewrite E. reflexivity.
  - intros stored any. unfold getDisplayMessage, any, line, displayLine, self, t. simpl.
    f_equal. rewrite !append_assoc. reflexivity.
Qed.

(** ** Trimming the buffer *)

Lemma CONFIG_cache_size : 1000 <= CONFIG "cache.logPanel.size".
Proof. unfold CONFIG. simpl. lia. Qed.

(** The backward scan stops at the last entry that is young enough: what is
    cut is a run of old entries, and what stays ends with a young one. *)
Lemma trim_breakpoint_spec (st : Store) (now : Q) (logTTL : Z) (l : list ref) :
  forall bp,
    let r := trim_breakpoint st (daysSince_now now) logTTL (reverse l) (length l - 1) bp in
    (r = bp /\ forall x, last l = Some x -> daysSinceEvent st now x <= logTTL)
    \/ (exists b, r = Some b /\ (b < length l)%nat
         /\ Forall (fun x => logTTL < daysSinceEvent st now x) (drop b l)
         /\ forall x, last (take b l) = Some x -> daysSinceEvent st now x <= logTTL).
Proof.
  induction l as [|x l IH] using rev_ind; intros bp r.
  - left. split; [reflexivity|]. intros x Hx. discriminate Hx.
  - subst r. rewrite reverse_snoc, length_app. simpl.
    replace (length l + 1 - 1)%nat with (length l) by lia.
    fold (daysSinceEvent st now x).
    destruct (daysSinceEvent st now x >? logTTL) eqn:Hold.
    + right. replace (pred (length l)) with (length l - 1)%nat by lia.
      destruct (IH (Some (length l))) as [[-> Hlast] | (b & -> & Hb & Hdrop & Hlast)].
      * exists (length l). split; [reflexivity|]. split; [lia|].
        rewrite drop_app_length, take_app_length. split; [|exact Hlast].
        constructor; [lia|constructor].
      * exists b. split; [reflexivity|]. split; [lia|].
        rewrite drop_app_le, take_app_le by lia. split; [|exact Hlast].
        apply Forall_app. split; [exact Hdrop|]. constructor; [lia|constructor].
    + left. split; [reflexivity|]. intros y. rewrite last_snoc. intros [= <-]. lia.
Qed.

(** C3 (amended).  After [_trimEvents] the log holds at most
    [cache.logPanel.size] entries, a capacity of at least 1000, and is a
    prefix of what it was.  With a positive [features.log.entryDuration] the
    entries cut for their age are all older, in local days, than that
    duration, and the last entry kept is not; so when the log runs from newer
    days to older ones no entry kept is older than the duration.  With a
    duration of 0 or less only the capacity cuts. *)
Theorem trimEvents_capacity_and_age (st : Store) (now : Q) (eventListing : list ref) :
  let kept := _trimEvents st now eventListing in
  let cacheSize := CONFIG "cache.logPanel.size" in
  let logTTL := CONFIG "features.log.entryDuration" in
  let capped := take (Z.to_nat cacheSize) eventListing in
  1000 <= cacheSize
  /\ Z.of_nat (length kept) <= cacheSize
  /\ kept `prefix_of` capped
  /\ (0 < logTTL ->
        Forall (fun r => logTTL < daysSinceEvent st now r) (drop (length kept) capped)
        /\ (forall r, last kept = Some r -> daysSinceEvent st now r <= logTTL)
        /\ (day_ordered st kept -> Forall (fun r => daysSinceEvent st now r <= logTTL) kept))
  /\ (logTTL <= 0 -> kept = capped).
Proof.
  intros kept cacheSize logTTL capped.
  pose proof CONFIG_cache_size as Hsize. fold cacheSize in Hsize.
  assert (Hcap : (if Z.of_nat (length eventListing) >? cacheSize
                  then take (Z.to_nat cacheSize) eventListing else eventListing) = capped).
  { unfold capped. destruct (Z.of_nat (length eventListing) >? cacheSize) eqn:E; [reflexivity|].
    rewrite take_ge; [reflexivity|lia]. }
  assert (Hlen : Z.of_nat (length capped) <= cacheSize).
  { unfold capped. rewrite length_take. lia. }
  assert (Hkept : kept = if logTTL >? 0
                         then crop_at (trim_breakpoint st (daysSince_now now) logTTL
                                         (reverse capped) (length capped - 1) None) capped
                         else capped).
  { unfold kept, _trimEvents. fold cacheSize logTTL. rewrite Hcap.
    destruct (logTTL >? 0); [|reflexivity].
    destruct (trim_breakpoint _ _ _ _ _ _); reflexivity. }
  split; [exact Hsize|].
  destruct (logTTL >? 0) eqn:Httl.
  - destruct (trim_breakpoint_spec st now logTTL capped None)
      as [[Hr Hlast] | (b & Hr & Hb & Hdrop & Hlast)];
      cbv zeta in Hr; rewrite Hr in Hkept; simpl in Hkept.
    + rewrite Hkept. split; [exact Hlen|]. split; [reflexivity|]. split; [|lia].
      intros _. rewrite drop_all. split; [constructor|]. split; [exact Hlast|].
      intros Hord. apply Forall_forall. intros r Hr'.
      apply list_elem_of_lookup in Hr' as [i Hi].
      destruct (last capped) as [z|] eqn:Hz.
      * specialize (Hlast z eq_refl). rewrite last_lookup in Hz.
        pose proof (lookup_lt_Some _ _ _ Hi).
        pose proof (Hord i (pred (length capped)) r z ltac:(lia) Hi Hz).
        unfold daysSinceEvent in *. lia.
      * apply last_None in Hz. rewrite Hz in Hi. discriminate Hi.
    + assert (length kept = b) as Hkb by (rewrite Hkept, length_take; lia).
      split; [lia|]. split; [rewrite Hkept; apply prefix_take|]. split; [|lia].
      intros _. rewrite Hkb. split; [exact Hdrop|]. rewrite Hkept.
      split; [exact Hlast|].
      intros Hord. apply Forall_forall. intros r Hr'.
      apply list_elem_of_lookup in Hr' as [i Hi].
      destruct (last (take b capped)) as [z|] eqn:Hz.
      * specialize (Hlast z eq_refl). rewrite last_lookup in Hz.
        pose proof (lookup_lt_Some _ _ _ Hi).
        pose proof (Hord i (pred (length (take b capped))) r z ltac:(lia) Hi Hz).
        unfold daysSinceEvent in *. lia.
      * apply last_None in Hz. rewrite Hz in Hi. discriminate Hi.
  - rewrite Hkept. split; [exact Hlen|]. split; [reflexivity|]. split; [lia|]. reflexivity.
Qed.

(** ** Insertions into a list

    [inserted P l k]: [k] is [l] with further elements put in, each of which
    satisfies [P]; the elements of [l] stay, in their order. *)

Lemma inserted_refl P l : inserted P l l.
Proof. induction l; auto. Qed.

Lemma inserted_mono (P Q : ref -> Prop) l k :
  (forall x, x ∈ k -> P x -> Q x) -> inserted P l k -> inserted Q l k.
Proof.
  intros H Hi. induction Hi as [|x l k Hi IH|m l k Hm Hi IH]; [constructor|..].
  - constructor. apply IH. intros y Hy. apply H. by right.
  - constructor; [apply H; [left|exact Hm]|]. apply IH. intros y Hy. apply H. by right.
Qed.

Lemma inserted_sublist P l k : inserted P l k -> l `sublist_of` k.
Proof. induction 1; by constructor. Qed.

Lemma inserted_length P l k : inserted P l k -> (length l <= length k)%nat.
Proof. intros H. by apply sublist_length, (inserted_sublist P). Qed.

Lemma inserted_trans P l k j : inserted P l k -> inserted P k j -> inserted P l j.
Proof.
  intros H1 H2. revert l H1.
  induction H2 as [|x k j H2 IH|m k j Hm H2 IH]; intros l H1.
  - exact H1.
  - inversion H1; subst; auto.
  - auto.
Qed.

Lemma inserted_none P l k : inserted P l k -> Forall (fun x => ~ P x) k -> k = l.
Proof.
  induction 1 as [|x l k Hi IH|m l k Hm Hi IH]; intros Hk; [reflexivity|..].
  - inversion Hk; subst. f_equal. auto.
  - inversion Hk; subst. contradiction.
Qed.

Lemma inserted_Forall P l k : inserted P l k -> Forall P l -> Forall P k.
Proof. induction 1; intros Hl; [constructor|inversion Hl; subst; auto|auto]. Qed.

Lemma inserted_app P l1 l2 k1 k2 :
  inserted P l1 k1 -> inserted P l2 k2 -> inserted P (l1 ++ l2) (k1 ++ k2).
Proof. induction 1; intros H2; simpl; auto. Qed.

Lemma inserted_all P k : Forall P k -> inserted P [] k.
Proof. induction 1; auto. Qed.

Lemma inserted_cons_inv P a l k :
  inserted P (a :: l) k ->
  exists pre post, k = pre ++ a :: post /\ Forall P pre /\ inserted P l post.
Proof.
  intros H. remember (a :: l) as al eqn:E. revert a l E.
  induction H as [|x l k Hi IH|m l k Hm Hi IH]; intros a l' E; [discriminate E|..].
  - injection E as -> ->. exists [], k. auto.
  - destruct (IH _ _ E) as (pre & post & -> & Hpre & Hpost).
    exists (m :: pre), post. auto.
Qed.

Lemma inserted_app_inv P l1 l2 k :
  inserted P (l1 ++ l2) k ->
  exists k1 k2, k = k1 ++ k2 /\ inserted P l1 k1 /\ inserted P l2 k2.
Proof.
  revert k. induction l1 as [|a l1 IH]; intros k H.
  - exists [], k. auto.
  - apply inserted_cons_inv in H as (pre & post & -> & Hpre & Hpost).
    destruct (IH _ Hpost) as (k1 & k2 & -> & H1 & H2).
    exists (pre ++ a :: k1), k2. split; [by rewrite <- app_assoc|]. split; [|exact H2].
    apply (inserted_app P [] (a :: l1) pre (a :: k1)); [by apply inserted_all|auto].
Qed.

Lemma inserted_delete P (l : list ref) i x : l !! i = Some x -> P x -> inserted P (delete i l) l.
Proof.
  revert i. induction l as [|y l IH]; intros [|i] Hi Hx; simpl in *; try discriminate.
  - injection Hi as ->. constructor; [exact Hx|apply inserted_refl].
  - constructor. eauto.
Qed.

Lemma inserted_filter (f : ref -> bool) l k :
  inserted (fun x => f x = true) l k -> Forall (fun x => f x = false) l ->
  filter (fun x => f x = false) k = l.
Proof.
  induction 1 as [|x l k Hi IH|m l k Hm Hi IH]; intros Hl; [reflexivity|..].
  - inversion Hl; subst. rewrite filter_cons_True by assumption. f_equal. auto.
  - rewrite filter_cons_False by (rewrite Hm; discriminate). auto.
Qed.

(** ** Day boundaries *)

Lemma LogEntry_new_spec st ts ty m c :
  let '(r, st') := LogEntry_new st ts ty m c in
  r = fresh st /\ fresh st' = S (fresh st)
  /\ objs st' r = LogEntry_init ts ty m c
  /\ forall x, (x < fresh st)%nat -> objs st' x = objs st x.
Proof.
  unfold LogEntry_new. simpl. rewrite Nat.eqb_refl. repeat split; try reflexivity.
  intros x Hx. destruct (Nat.eqb_spec x (fresh st)); [lia|reflexivity].
Qed.

(** The loop only allocates: the objects that were there stay as they are. *)
Lemma daybreaks_loop_store st lastDay events :
  let '(out, st') := daybreaks_loop st lastDay events in
  (fresh st <= fresh st')%nat /\ forall x, (x < fresh st)%nat -> objs st' x = objs st x.
Proof.
  revert st lastDay. induction events as [|entry events IH]; intros st lastDay; cbn [daybreaks_loop].
  - split; [lia|auto].
  - destruct (negb _).
    + pose proof (LogEntry_new_spec st
        (PyInt (daysSince (timestamp (objs st entry)) * 86400 + TIMEZONE_OFFSET))
        DAYBREAK_EVENT "" "white") as Hnew.
      destruct (LogEntry_new _ _ _ _ _) as [marker st1].
      destruct Hnew as (_ & Hf & _ & Hold).
      specialize (IH st1 (daysSince (timestamp (objs st entry)))).
      destruct (daybreaks_loop st1 _ events) as [rest st2].
      destruct IH as [Hle Hsame]. split; [lia|].
      intros x Hx. rewrite Hsame by lia. auto.
    + specialize (IH st (daysSince (timestamp (objs st entry)))).
      destruct (daybreaks_loop st _ events) as [rest st2]. exact IH.
Qed.

(** What the loop returns is its input with markers put in. *)
Lemma daybreaks_loop_inserted st lastDay events :
  let '(out, st') := daybreaks_loop st lastDay events in
  inserted (fun x => is_daybreak st' x = true) events out.
Proof.
  revert st lastDay. induction events as [|entry events IH]; intros st lastDay; cbn [daybreaks_loop].
  - constructor.
  - destruct (negb _).
    + pose proof (LogEntry_new_spec st
        (PyInt (daysSince (timestamp (objs st entry)) * 86400 + TIMEZONE_OFFSET))
        DAYBREAK_EVENT "" "white") as Hnew.
      destruct (LogEntry_new _ _ _ _ _) as [marker st1].
      destruct Hnew as (-> & Hf & Hobj & Hold).
      specialize (IH st1 (daysSince (timestamp (objs st entry)))).
      pose proof (daybreaks_loop_store st1 (daysSince (timestamp (objs st entry))) events) as Hst.
      destruct (daybreaks_loop st1 _ events) as [rest st2].
      destruct Hst as [Hle Hsame].
      constructor; [|constructor; exact IH].
      unfold is_daybreak. rewrite Hsame by lia. rewrite Hobj. reflexivity.
    + specialize (IH st (daysSince (timestamp (objs st entry)))).
      destruct (daybreaks_loop st _ events) as [rest st2]. constructor. exact IH.
Qed.



Lemma ev_read_old g l more st dl c1 c2 c3 :
  (l < length (evlists g))%nat ->
  ev_read (mkGlobals st (evlists g ++ more) dl c1 c2 c3) l = ev_read g l.
Proof. intros H. unfold ev_read. simpl. by rewrite lookup_app_l. Qed.

Lemma ev_read_new g i more st dl c1 c2 c3 :
  ev_read (mkGlobals st (evlists g ++ more) dl c1 c2 c3) (length (evlists g) + i)
  = default [] (more !! i).
Proof.
  unfold ev_read. simpl. rewrite lookup_app_r by lia.
  by replace (length (evlists g) + i - length (evlists g))%nat with i by lia.
Qed.

(** The three ways through [getDaybreaks]: an empty input, a hit of the
    memo, and the loop. *)
Lemma getDaybreaks_spec now events ignoreTimeForCache g :
  let E := ev_read g events in
  let today := daysSince_now now in
  let n := length (evlists g) in
  (E = [] /\
   getDaybreaks now events ignoreTimeForCache g =
     (n, mkGlobals (store g) (evlists g ++ [[]]) (duplists g) (CACHED_DAYBREAKS g)
                   (CACHED_DUPLICATES g) (COMMON_LOG_MESSAGES g)))
  \/ (exists cargs cday cres,
        E <> [] /\ CACHED_DAYBREAKS g = Some (cargs, cday, cres) /\ ev_read g cargs = E
        /\ (ignoreTimeForCache = true \/ cday = today)
        /\ getDaybreaks now events ignoreTimeForCache g =
             (n, mkGlobals (store g) (evlists g ++ [ev_read g cres]) (duplists g)
                           (CACHED_DAYBREAKS g) (CACHED_DUPLICATES g)
                           (COMMON_LOG_MESSAGES g)))
  \/ (exists out st',
        E <> [] /\ daybreaks_loop (store g) today E = (out, st')
        /\ getDaybreaks now events ignoreTimeForCache g =
             (n, mkGlobals st' (evlists g ++ [out; E; out]) (duplists g)
                           (Some (S n, today, S (S n))) (CACHED_DUPLICATES g)
                           (COMMON_LOG_MESSAGES g))).
Proof.
  intros E today n. unfold getDaybreaks. fold E today.
  destruct E as [|e E'] eqn:HE; [left; split; reflexivity|].
  assert (Hmiss :
    exists out st', e :: E' <> [] /\ daybreaks_loop (store g) today (e :: E') = (out, st')
      /\ (let '(newListing, st') := daybreaks_loop (store g) today (e :: E') in
          let '(result, g1) := ev_alloc (set_store g st') newListing in
          let '(cargs, g2) := ev_alloc g1 (e :: E') in
          let '(cres, g3) := ev_alloc g2 newListing in
          (result, set_CACHED_DAYBREAKS g3 (Some (cargs, today, cres))))
         = (n, mkGlobals st' (evlists g ++ [out; e :: E'; out]) (duplists g)
                         (Some (S n, today, S (S n))) (CACHED_DUPLICATES g)
                         (COMMON_LOG_MESSAGES g))).
  { destruct (daybreaks_loop (store g) today (e :: E')) as [out st'] eqn:Hloop.
    exists out, st'. split; [discriminate|]. split; [reflexivity|].
    unfold ev_alloc, set_store, set_CACHED_DAYBREAKS. simpl.
    rewrite !length_app. simpl. fold n.
    replace (n + 1)%nat with (S n) by lia. replace (S n + 1)%nat with (S (S n)) by lia.
    rewrite <- !app_assoc. reflexivity. }
  destruct (CACHED_DAYBREAKS g) as [[[cargs cday] cres]|] eqn:Hc; [|right; right; exact Hmiss].
  destruct (bool_decide (ev_read g cargs = e :: E')) eqn:Heq; simpl;
    [|right; right; exact Hmiss].
  apply bool_decide_eq_true in Heq.
  destruct (ignoreTimeForCache || (cday =? today)) eqn:Hday; [|right; right; exact Hmiss].
  right; left. exists cargs, cday, cres. split; [discriminate|].
  split; [reflexivity|]. split; [exact Heq|].
  split; [|unfold ev_alloc; rewrite Hc; reflexivity].
  apply orb_true_iff in Hday as [H|H]; [by left|right; lia].
Qed.

Lemma ev_read_first g x more st dl c1 c2 c3 :
  ev_read (mkGlobals st (evlists g ++ x :: more) dl c1 c2 c3) (length (evlists g)) = x.
Proof. unfold ev_read. simpl. by rewrite list_lookup_middle. Qed.

Lemma getDaybreaks_empty now events ignoreTimeForCache g :
  ev_read g events = [] ->
  getDaybreaks now events ignoreTimeForCache g =
    (length (evlists g),
     mkGlobals (store g) (evlists g ++ [[]]) (duplists g) (CACHED_DAYBREAKS g)
               (CACHED_DUPLICATES g) (COMMON_LOG_MESSAGES g)).
Proof. intros H. unfold getDaybreaks. rewrite H. reflexivity. Qed.

Lemma getDaybreaks_hit now events ignoreTimeForCache g cargs cday cres :
  CACHED_DAYBREAKS g = Some (cargs, cday, cres) ->
  ev_read g cargs = ev_read g events ->
  ignoreTimeForCache = true \/ cday = daysSince_now now ->
  ev_read g events <> [] ->
  getDaybreaks now events ignoreTimeForCache g =
    (length (evlists g),
     mkGlobals (store g) (evlists g ++ [ev_read g cres]) (duplists g) (CACHED_DAYBREAKS g)
               (CACHED_DUPLICATES g) (COMMON_LOG_MESSAGES g)).
Proof.
  intros Hc Heq Hday Hne. unfold getDaybreaks. rewrite Hc.
  destruct (ev_read g events) as [|e E'] eqn:HE; [contradiction|].
  rewrite bool_decide_eq_true_2 by exact Heq.
  replace (ignoreTimeForCache || (cday =? daysSince_now now)) with true;
    [simpl; unfold ev_alloc; rewrite Hc; reflexivity|].
  symmetry. apply orb_true_iff. destruct Hday as [->| ->]; [by left|right; apply Z.eqb_refl].
Qed.

(** C9 (amended).  The list [getDaybreaks] returns holds every entry of its
    input, in the input's order, and besides them only entries of the
    DAYBREAK category.  When the input itself holds no DAYBREAK entry,
    removing the DAYBREAK entries from the result gives the input back. *)
Theorem getDaybreaks_inserts_markers (now : Q) (events : nat) (ignoreTimeForCache : bool)
    (g : Globals) :
  daybreaks_cache_ok g ->
  let E := ev_read g events in
  let '(result, g') := getDaybreaks now events ignoreTimeForCache g in
  let out := ev_read g' result in
  inserted (fun x => is_daybreak (store g') x = true) E out
  /\ (allocated (store g) E -> Forall (fun x => is_daybreak (store g) x = false) E ->
      filter (fun x => is_daybreak (store g') x = false) out = E).
Proof.
  intros Hok. cbv zeta.
  destruct (getDaybreaks_spec now events ignoreTimeForCache g)
    as [[HE ->] | [(cargs & cday & cres & _ & Hc & Hargs & Hday & ->) | (out & st' & HE & Hloop & ->)]];
    rewrite ev_read_first; simpl.
  - rewrite HE. split; [constructor|reflexivity].
  - unfold daybreaks_cache_ok in Hok. rewrite Hc, Hargs in Hok.
    split; [exact Hok|]. intros _ Hnone. by apply inserted_filter.
  - pose proof (daybreaks_loop_inserted (store g) (daysSince_now now) (ev_read g events)) as Hins.
    pose proof (daybreaks_loop_store (store g) (daysSince_now now) (ev_read g events)) as Hst.
    rewrite Hloop in Hins, Hst. destruct Hst as [_ Hsame].
    split; [exact Hins|]. intros Halloc Hnone. apply inserted_filter; [exact Hins|].
    unfold allocated in Halloc. rewrite Forall_forall in *.
    intros x Hx. unfold is_daybreak. rewrite Hsame by (by apply Halloc). by apply Hnone.
Qed.

Lemma ev_read_second g x y more st dl c1 c2 c3 :
  ev_read (mkGlobals st (evlists g ++ x :: y :: more) dl c1 c2 c3) (S (length (evlists g))) = y.
Proof.
  replace (S (length (evlists g))) with (length (evlists g) + 1)%nat by lia.
  by rewrite ev_read_new.
Qed.

Lemma ev_read_third g x y z more st dl c1 c2 c3 :
  ev_read (mkGlobals st (evlists g ++ x :: y :: z :: more) dl c1 c2 c3)
          (S (S (length (evlists g)))) = z.
Proof.
  replace (S (S (length (evlists g)))) with (length (evlists g) + 2)%nat by lia.
  by rewrite ev_read_new.
Qed.

Lemma getDaybreaks_empty_read now events ignoreTimeForCache g :
  ev_read g events = [] ->
  let '(result, g') := getDaybreaks now events ignoreTimeForCache g in
  ev_read g' result = [].
Proof. intros H. rewrite getDaybreaks_empty by exact H. apply ev_read_first. Qed.

Lemma getDaybreaks_hit_read now events ignoreTimeForCache g cargs cday cres :
  CACHED_DAYBREAKS g = Some (cargs, cday, cres) ->
  ev_read g cargs = ev_read g events ->
  ignoreTimeForCache = true \/ cday = daysSince_now now ->
  ev_read g events <> [] ->
  let '(result, g') := getDaybreaks now events ignoreTimeForCache g in
  ev_read g' result = ev_read g cres.
Proof.
  intros Hc Heq Hday Hne.
  rewrite (getDaybreaks_hit now events ignoreTimeForCache g cargs cday cres) by assumption.
  apply ev_read_first.
Qed.

(** C4 (amended).  With the day unchanged, a second call on the same,
    unchanged input returns the sequence of the first; and a call on the
    list the first call returned gives that sequence again when it holds no
    DAYBREAK entry. *)
Theorem getDaybreaks_again (now1 now2 : Q) (events : nat) (ignoreTimeForCache : bool)
    (g : Globals) :
  caches_allocated g -> daybreaks_cache_ok g -> (events < length (evlists g))%nat ->
  daysSince_now now1 = daysSince_now now2 ->
  let '(result, g1) := getDaybreaks now1 events ignoreTimeForCache g in
  let out := ev_read g1 result in
  (let '(again, g2) := getDaybreaks now2 events ignoreTimeForCache g1 in
   ev_read g2 again = out)
  /\ (Forall (fun x => is_daybreak (store g1) x = false) out ->
      let '(again, g2) := getDaybreaks now2 result ignoreTimeForCache g1 in
      ev_read g2 again = out).
Proof.
  intros [Halloc _] Hok Hev Hday.
  destruct (getDaybreaks_spec now1 events ignoreTimeForCache g)
    as [[HE ->] | [(cargs & cday & cres & HE & Hc & Hargs & Hd & ->)
                  | (out & st' & HE & Hloop & ->)]];
    cbv zeta; rewrite ev_read_first.
  - (* empty input *)
    match goal with |- context [getDaybreaks _ _ _ ?G] => set (g1 := G) end.
    assert (ev_read g1 events = []) as H1 by (unfold g1; by rewrite ev_read_old).
    assert (ev_read g1 (length (evlists g)) = []) as H2 by apply ev_read_first.
    split; [|intros _].
    + by apply getDaybreaks_empty_read.
    + by apply getDaybreaks_empty_read.
  - (* a hit: the memo stays as it is *)
    rewrite Hc in Halloc. destruct Halloc as [Ha Hr].
    unfold daybreaks_cache_ok in Hok. rewrite Hc, Hargs in Hok.
    match goal with |- context [getDaybreaks _ _ _ ?G] => set (g1 := G) end.
    assert (CACHED_DAYBREAKS g1 = Some (cargs, cday, cres)) as Hc1 by exact Hc.
    assert (ev_read g1 events = ev_read g events) as H1 by (unfold g1; by rewrite ev_read_old).
    assert (ev_read g1 cargs = ev_read g events) as H2
      by (unfold g1; by rewrite ev_read_old).
    assert (ev_read g1 cres = ev_read g cres) as H3 by (unfold g1; by rewrite ev_read_old).
    assert (ev_read g1 (length (evlists g)) = ev_read g cres) as H4 by apply ev_read_first.
    assert (ignoreTimeForCache = true \/ cday = daysSince_now now2) as Hd2
      by (rewrite <- Hday; exact Hd).
    split.
    + rewrite <- H3. apply (getDaybreaks_hit_read _ _ _ _ cargs cday); try assumption.
      * congruence.
      * congruence.
    + intros Hnone. simpl in Hnone.
      assert (ev_read g cres = ev_read g events) as Hsame.
      { apply (inserted_none _ _ _ Hok). eapply Forall_impl; [exact Hnone|].
        simpl. intros x Hx. rewrite Hx. discriminate. }
      rewrite <- H3. apply (getDaybreaks_hit_read _ _ _ _ cargs cday); try assumption.
      * congruence.
      * congruence.
  - (* the loop ran: the memo now holds this call *)
    pose proof (daybreaks_loop_inserted (store g) (daysSince_now now1) (ev_read g events)) as Hins.
    rewrite Hloop in Hins.
    match goal with |- context [getDaybreaks _ _ _ ?G] => set (g1 := G) end.
    set (n := length (evlists g)) in *.
    assert (CACHED_DAYBREAKS g1 = Some (S n, daysSince_now now1, S (S n))) as Hc1
      by reflexivity.
    assert (ev_read g1 events = ev_read g events) as H1 by (unfold g1; by rewrite ev_read_old).
    assert (ev_read g1 (S n) = ev_read g events) as H2 by apply ev_read_second.
    assert (ev_read g1 (S (S n)) = out) as H3 by apply ev_read_third.
    assert (ev_read g1 n = out) as H4 by apply ev_read_first.
    split.
    + rewrite <- H3.
      apply (getDaybreaks_hit_read _ _ _ _ (S n) (daysSince_now now1)); try assumption.
      * congruence.
      * by right.
      * congruence.
    + intros Hnone. simpl in Hnone.
      assert (out = ev_read g events) as Hsame.
      { apply (inserted_none _ _ _ Hins). eapply Forall_impl; [exact Hnone|].
        simpl. intros x Hx. rewrite Hx. discriminate. }
      rewrite <- H3.
      apply (getDaybreaks_hit_read _ _ _ _ (S n) (daysSince_now now1)); try assumption.
      * congruence.
      * by right.
      * congruence.
Qed.

(** ** Duplicates *)

Lemma isDuplicate_loop_inv common st event (full : list ref) :
  forall eventSet pre acc r,
    full = pre ++ eventSet ->
    isDuplicate_loop common st event eventSet true (length pre) acc = Ok r ->
    Forall (fun x => is_daybreak st x = false) pre ->
    StronglySorted lt acc ->
    Forall (fun j => (j < length pre)%nat /\ good_index st event full j) acc ->
    StronglySorted lt (indices_of r) /\ Forall (good_index st event full) (indices_of r).
Proof.
  induction eventSet as [|f es IH]; intros pre acc r Hfull Hr Hpre Hsorted Hacc.
  - injection Hr as <-. simpl. split; [exact Hsorted|].
    eapply Forall_impl; [exact Hacc|]. by intros j [_ H].
  - cbn [isDuplicate_loop] in Hr.
    destruct (String.eqb (type (objs st f)) DAYBREAK_EVENT) eqn:Hday.
    { injection Hr as <-. simpl. split; [exact Hsorted|].
      eapply Forall_impl; [exact Hacc|]. by intros j [_ H]. }
    assert (Hpre' : Forall (fun x => is_daybreak st x = false) (pre ++ [f])).
    { apply Forall_app. split; [exact Hpre|]. constructor; [exact Hday|constructor]. }
    assert (Hlen : length (pre ++ [f]) = S (length pre)).
    { rewrite length_app. simpl. lia. }
    assert (Hfull' : full = (pre ++ [f]) ++ es) by (by rewrite <- app_assoc).
    assert (Hweak : forall acc',
      Forall (fun j => (j < length pre)%nat /\ good_index st event full j) acc' ->
      Forall (fun j => (j < length (pre ++ [f]))%nat /\ good_index st event full j) acc').
    { intros acc' H. eapply Forall_impl; [exact H|]. intros j [Hj Hg].
      rewrite Hlen. split; [lia|exact Hg]. }
    rewrite <- Hlen in Hr.
    destruct (String.eqb (type (objs st event)) (type (objs st f))) eqn:Hty.
    + destruct (sameMessage common (objs st event) (objs st f)) as [[|]|e] eqn:Hsame;
        simpl in Hr; [| |discriminate Hr].
      * apply (IH (pre ++ [f]) (acc ++ [length pre]) r Hfull' Hr Hpre').
        -- apply StronglySorted_app. split; [|split; [exact Hsorted|repeat constructor]].
           intros x1 x2 Hx1 Hx2. apply list_elem_of_singleton in Hx2 as ->.
           rewrite Forall_forall in Hacc. apply (Hacc x1 Hx1).
        -- apply Forall_app. split; [by apply Hweak|].
           constructor; [|constructor]. split; [lia|].
           exists f. split; [rewrite Hfull; by apply list_lookup_middle|].
           split; [symmetry; by apply String.eqb_eq|].
           rewrite Hfull', <- Hlen, take_app_length. exact Hpre'.
      * apply (IH (pre ++ [f]) acc r Hfull' Hr Hpre' Hsorted). by apply Hweak.
    + apply (IH (pre ++ [f]) acc r Hfull' Hr Hpre' Hsorted). by apply Hweak.
Qed.

(** The indices [isDuplicate] reports increase, and each of them is the index
    of an entry of the event's category with no DAYBREAK entry at or before
    it. *)
Lemma isDuplicate_indices common st event eventSet r :
  isDuplicate common st event eventSet true = Ok r ->
  StronglySorted lt (indices_of r) /\ Forall (good_index st event eventSet) (indices_of r).
Proof.
  intros H.
  apply (isDuplicate_loop_inv common st event eventSet eventSet [] [] r eq_refl H); constructor.
Qed.

(** Deleting increasing indices from the last one down takes out exactly the
    entries at these indices. *)
Lemma del_indices_inserted (P : ref -> Prop) (indices : list nat) :
  forall l : list ref,
    StronglySorted lt indices ->
    Forall (fun j => exists x, l !! j = Some x /\ P x) indices ->
    inserted P (del_indices (reverse indices) l) l
    /\ (length (del_indices (reverse indices) l) + length indices = length l)%nat.
Proof.
  induction indices as [|i indices IH] using rev_ind; intros l Hsorted Hgood.
  - simpl. split; [apply inserted_refl|lia].
  - rewrite reverse_snoc. simpl.
    apply StronglySorted_app in Hsorted as (Hlt & Hsorted & _).
    apply Forall_app in Hgood as [Hgood Hi].
    inversion Hi as [|? ? (x & Hx & HP) _]; subst.
    destruct (IH (delete i l) Hsorted) as [Hins Hlen].
    { rewrite Forall_forall in *. intros j Hj.
      destruct (Hgood j Hj) as (y & Hy & HPy). exists y. split; [|exact HPy].
      rewrite list_lookup_delete_lt; [exact Hy|]. apply Hlt; [exact Hj|]. by left. }
    split.
    + eapply inserted_trans; [exact Hins|]. by apply (inserted_delete P l i x).
    + rewrite length_app. simpl.
      rewrite length_delete in Hlen by eauto.
      pose proof (lookup_lt_Some _ _ _ Hx). lia.
Qed.

(** One pass of the loop of [getDuplicates]. *)
Lemma dedup_loop_cons common st startTime clock k entry eventsRemaining returnEvents :
  dedup_loop common st startTime clock k (entry :: eventsRemaining) returnEvents =
  match isDuplicate common st entry eventsRemaining true with
  | Raise e => Raise e
  | Ok r =>
      if timed_out startTime (clock k) then Ok None
      else dedup_loop common st startTime clock (S k)
             (del_indices (reverse (indices_of r)) eventsRemaining)
             (returnEvents ++ [(entry, length (indices_of r))])
  end.
Proof.
  simp dedup_loop.
  destruct (isDuplicate common st entry eventsRemaining true) as [r|e]; simpl; [|reflexivity].
  destruct (timed_out startTime (clock k)); reflexivity.
Qed.

Lemma count_sum_snoc l x n : count_sum (l ++ [(x, n)]) = (count_sum l + n)%nat.
Proof. unfold count_sum. rewrite sum_list_with_app. simpl. lia. Qed.

(** Every entry the loop takes up is either emitted or counted once. *)
Lemma dedup_loop_counts common st startTime clock :
  forall n eventsRemaining k returnEvents out,
    length eventsRemaining = n ->
    dedup_loop common st startTime clock k eventsRemaining returnEvents = Ok (Some out) ->
    (length out + count_sum out
     = length returnEvents + count_sum returnEvents + length eventsRemaining)%nat.
Proof.
  induction n as [n IH] using lt_wf_ind.
  intros [|entry rest] k acc out Hn Hrun.
  - simp dedup_loop in Hrun. injection Hrun as <-. simpl. lia.
  - rewrite dedup_loop_cons in Hrun.
    destruct (isDuplicate common st entry rest true) as [r|e] eqn:Hdup; [|discriminate Hrun].
    destruct (timed_out startTime (clock k)); [discriminate Hrun|].
    destruct (isDuplicate_indices _ _ _ _ _ Hdup) as [Hsorted Hgood].
    destruct (del_indices_inserted (fun _ => True) (indices_of r) rest Hsorted) as [_ Hlen].
    { eapply Forall_impl; [exact Hgood|]. intros j (f & Hf & _). eauto. }
    simpl in Hn.
    apply (IH (length (del_indices (reverse (indices_of r)) rest)) ltac:(lia) _ _ _ _ eq_refl)
      in Hrun.
    rewrite length_app, count_sum_snoc in Hrun. simpl in *. lia.
Qed.

Lemma commonMatch_raise eventMsg forwardMsg commonMsgs e :
  commonMatch eventMsg forwardMsg commonMsgs = Raise e -> e = IndexError /\ "" ∈ commonMsgs.
Proof.
  induction commonMsgs as [|m ms IH]; simpl; [discriminate|].
  destruct m as [|c0 rest].
  - intros [= <-]. split; [reflexivity|left].
  - destruct (if Ascii.eqb c0 "*" then _ else _); [discriminate|].
    intros H. destruct (IH H) as [-> Hin]. split; [reflexivity|by right].
Qed.

Lemma sameMessage_raise d a b e :
  sameMessage (Some d) a b = Raise e -> e = IndexError /\ has_empty_message d.
Proof.
  unfold sameMessage. destruct (String.eqb _ _); [discriminate|].
  destruct (dict_get d (type a)) as [msgs|] eqn:Hd; [|discriminate].
  intros H. apply commonMatch_raise in H as [-> Hin].
  split; [reflexivity|]. by exists (type a), msgs.
Qed.

Lemma isDuplicate_loop_raise d st event getDuplicates :
  forall eventSet i acc e,
    isDuplicate_loop (Some d) st event eventSet getDuplicates i acc = Raise e ->
    e = IndexError /\ has_empty_message d.
Proof.
  induction eventSet as [|f es IH]; intros i acc e; cbn [isDuplicate_loop].
  - discriminate.
  - destruct (String.eqb (type (objs st f)) DAYBREAK_EVENT); [discriminate|].
    destruct (String.eqb (type (objs st event)) (type (objs st f))); [|apply IH].
    destruct (sameMessage (Some d) (objs st event) (objs st f)) as [[|]|e'] eqn:Hs; simpl.
    + destruct getDuplicates; [apply IH|discriminate].
    + apply IH.
    + intros [= <-]. by apply sameMessage_raise in Hs.
Qed.

Lemma dedup_loop_raise d st startTime clock :
  forall n eventsRemaining k returnEvents e,
    length eventsRemaining = n ->
    dedup_loop (Some d) st startTime clock k eventsRemaining returnEvents = Raise e ->
    e = IndexError /\ has_empty_message d.
Proof.
  induction n as [n IH] using lt_wf_ind.
  intros [|entry rest] k acc e Hn Hrun.
  - simp dedup_loop in Hrun. discriminate Hrun.
  - rewrite dedup_loop_cons in Hrun.
    destruct (isDuplicate (Some d) st entry rest true) as [r|e'] eqn:Hdup.
    + destruct (timed_out startTime (clock k)); [discriminate Hrun|].
      pose proof (length_del_indices (reverse (indices_of r)) rest). simpl in Hn.
      by apply (IH (length (del_indices (reverse (indices_of r)) rest)) ltac:(lia) _ _ _ _ eq_refl)
        in Hrun.
    + injection Hrun as <-. by apply isDuplicate_loop_raise in Hdup.
Qed.

(** [None] stands for a clock reading past the budget. *)
Lemma dedup_loop_timeout common st startTime clock :
  forall n eventsRemaining k returnEvents,
    length eventsRemaining = n ->
    dedup_loop common st startTime clock k eventsRemaining returnEvents = Ok None ->
    exists k', timed_out startTime (clock k') = true.
Proof.
  induction n as [n IH] using lt_wf_ind.
  intros [|entry rest] k acc Hn Hrun.
  - simp dedup_loop in Hrun. discriminate Hrun.
  - rewrite dedup_loop_cons in Hrun.
    destruct (isDuplicate common st entry rest true) as [r|e'] eqn:Hdup; [|discriminate Hrun].
    destruct (timed_out startTime (clock k)) eqn:Ht; [by exists k|].
    pose proof (length_del_indices (reverse (indices_of r)) rest). simpl in Hn.
    by apply (IH (length (del_indices (reverse (indices_of r)) rest)) ltac:(lia) _ _ _ eq_refl)
      in Hrun.
Qed.

Lemma dup_read_first g x more st el c1 c2 c3 :
  dup_read (mkGlobals st el (duplists g ++ x :: more) c1 c2 c3) (length (duplists g)) = x.
Proof. unfold dup_read. simpl. by rewrite list_lookup_middle. Qed.

Lemma dup_read_second g x y more st el c1 c2 c3 :
  dup_read (mkGlobals st el (duplists g ++ x :: y :: more) c1 c2 c3) (S (length (duplists g)))
  = y.
Proof.
  unfold dup_read. simpl. rewrite lookup_app_r by lia.
  by replace (S (length (duplists g)) - length (duplists g))%nat with 1%nat by lia.
Qed.

Lemma dup_read_old g l more st el c1 c2 c3 :
  (l < length (duplists g))%nat ->
  dup_read (mkGlobals st el (duplists g ++ more) c1 c2 c3) l = dup_read g l.
Proof. intros H. unfold dup_read. simpl. by rewrite lookup_app_l. Qed.

(** The ways through [getDuplicates]: a hit of the memo, or the loop with
    its three outcomes. *)
Lemma getDuplicates_spec startTime clock events g :
  let E := ev_read g events in
  let nd := length (duplists g) in
  let ne := length (evlists g) in
  (exists cargs cres,
      CACHED_DUPLICATES g = Some (cargs, cres) /\ ev_read g cargs = E
      /\ getDuplicates startTime clock events g =
           (Ok (Some nd),
            mkGlobals (store g) (evlists g) (duplists g ++ [dup_read g cres])
                      (CACHED_DAYBREAKS g) (CACHED_DUPLICATES g) (COMMON_LOG_MESSAGES g)))
  \/ (let g0 := mkGlobals (store g) (evlists g) (duplists g) (CACHED_DAYBREAKS g)
                          (CACHED_DUPLICATES g) (Some (effective_common g)) in
      getDuplicates startTime clock events g =
        match dedup_loop (Some (effective_common g)) (store g) startTime clock 0 E [] with
        | Raise e => (Raise e, g0)
        | Ok None => (Ok None, g0)
        | Ok (Some returnEvents) =>
            (Ok (Some nd),
             mkGlobals (store g) (evlists g ++ [E]) (duplists g ++ [returnEvents; returnEvents])
                       (CACHED_DAYBREAKS g) (Some (ne, S nd)) (Some (effective_common g)))
        end).
Proof.
  intros E nd ne. unfold getDuplicates.
  assert (Hmiss :
    (let g0 := match COMMON_LOG_MESSAGES g with
               | None => set_COMMON_LOG_MESSAGES g (Some loadLogMessages)
               | Some _ => g
               end in
     match dedup_loop (COMMON_LOG_MESSAGES g0) (store g0) startTime clock 0
             (ev_read g0 events) [] with
     | Raise e => (Raise e, g0)
     | Ok None => (Ok None, g0)
     | Ok (Some returnEvents) =>
         let '(result, g1) := dup_alloc g0 returnEvents in
         let '(cargs, g2) := ev_alloc g1 (ev_read g0 events) in
         let '(cres, g3) := dup_alloc g2 returnEvents in
         (Ok (Some result), set_CACHED_DUPLICATES g3 (Some (cargs, cres)))
     end)
    = match dedup_loop (Some (effective_common g)) (store g) startTime clock 0 E [] with
      | Raise e =>
          (Raise e, mkGlobals (store g) (evlists g) (duplists g) (CACHED_DAYBREAKS g)
                              (CACHED_DUPLICATES g) (Some (effective_common g)))
      | Ok None =>
          (Ok None, mkGlobals (store g) (evlists g) (duplists g) (CACHED_DAYBREAKS g)
                              (CACHED_DUPLICATES g) (Some (effective_common g)))
      | Ok (Some returnEvents) =>
          (Ok (Some nd),
           mkGlobals (store g) (evlists g ++ [E]) (duplists g ++ [returnEvents; returnEvents])
                     (CACHED_DAYBREAKS g) (Some (ne, S nd)) (Some (effective_common g)))
      end).
  { unfold effective_common, E, nd, ne. destruct g as [st el dl c1 c2 [d|]]; simpl.
    - destruct (dedup_loop _ _ _ _ _ _ _) as [[out|]|e]; try reflexivity.
      unfold dup_alloc, ev_alloc, set_CACHED_DUPLICATES. simpl.
      rewrite length_app, <- app_assoc. simpl.
      by replace (length dl + 1)%nat with (S (length dl)) by lia.
    - destruct (dedup_loop _ _ _ _ _ _ _) as [[out|]|e]; try reflexivity.
      unfold dup_alloc, ev_alloc, set_CACHED_DUPLICATES. simpl.
      rewrite length_app, <- app_assoc. simpl.
      by replace (length dl + 1)%nat with (S (length dl)) by lia. }
  destruct (CACHED_DUPLICATES g) as [[cargs cres]|] eqn:Hc; [|right; exact Hmiss].
  destruct (bool_decide (ev_read g cargs = ev_read g events)) eqn:Heq; [|right; exact Hmiss].
  apply bool_decide_eq_true in Heq.
  left. exists cargs, cres. split; [reflexivity|]. split; [exact Heq|].
  unfold dup_alloc. simpl. rewrite Hc. reflexivity.
Qed.

(** C2 (amended).  [getDuplicates] ends in one of three ways.  It returns a
    list of pairs that is no longer than the input and whose duplicate counts
    sum to the length of the input minus the number of pairs: every entry of
    the input, day boundaries included, is either emitted as a pair or
    counted once as a duplicate.  Or it returns [None] after a clock reading
    past the budget, and then no list and no memo has changed.  Or a common
    message of the configuration is empty and the call raises. *)
Theorem getDuplicates_counts (startTime : Q) (clock : nat -> Q) (events : nat) (g : Globals) :
  duplicates_cache_ok g ->
  let E := ev_read g events in
  match getDuplicates startTime clock events g with
  | (Ok (Some result), g') =>
      let out := dup_read g' result in
      (length out <= length E)%nat /\ (count_sum out + length out = length E)%nat
  | (Ok None, g') =>
      CACHED_DUPLICATES g' = CACHED_DUPLICATES g
      /\ duplists g' = duplists g /\ evlists g' = evlists g
      /\ exists k, timed_out startTime (clock k) = true
  | (Raise e, g') => e = IndexError /\ has_empty_message (effective_common g)
  end.
Proof.
  intros Hok. cbv zeta.
  destruct (getDuplicates_spec startTime clock events g)
    as [(cargs & cres & Hc & Hargs & ->) | ->]; cbv zeta.
  - rewrite dup_read_first. unfold duplicates_cache_ok in Hok. rewrite Hc, Hargs in Hok. lia.
  - destruct (dedup_loop _ _ _ _ _ _ _) as [[out|]|e] eqn:Hrun.
    + rewrite dup_read_first.
      apply (dedup_loop_counts _ _ _ _ _ _ _ _ _ eq_refl) in Hrun. simpl in Hrun. lia.
    + simpl. repeat split; try reflexivity.
      by apply (dedup_loop_timeout _ _ _ _ _ _ _ _ eq_refl) in Hrun.
    + by apply (dedup_loop_raise _ _ _ _ _ _ _ _ _ eq_refl) in Hrun.
Qed.

(** A duplicate has the category of the entry it is counted for, and stands
    after it with no DAYBREAK entry in between. *)
Lemma duplicate_of_split (common : option (dict (list string))) (st : Store)
    (E : list ref) (a b : ref) :
  duplicate_of common st E a b ->
  type (objs st a) = type (objs st b)
  /\ is_daybreak st b = false
  /\ exists before between after,
       E = before ++ a :: between ++ b :: after
       /\ Forall (fun x => is_daybreak st x = false) between.
Proof.
  induction 1 as [entry rest r i b Hdup Hi Hb | entry rest r a b Hdup Hlater IH].
  - destruct (isDuplicate_indices _ _ _ _ _ Hdup) as [_ Hgood].
    rewrite Forall_forall in Hgood. destruct (Hgood i Hi) as (f & Hf & Hty & Hnone).
    rewrite Hb in Hf. injection Hf as <-.
    rewrite (take_S_r _ _ _ Hb) in Hnone. apply Forall_app in Hnone as [Hbetween Hlast].
    inversion Hlast; subst.
    split; [by symmetry|]. split; [assumption|].
    exists [], (take i rest), (drop (S i) rest). split; [|exact Hbetween].
    simpl. f_equal. rewrite <- (take_drop_middle rest i b Hb) at 1. reflexivity.
  - destruct IH as (Hty & Hb & before & between & after & Hsplit & Hnone).
    split; [exact Hty|]. split; [exact Hb|].
    destruct (isDuplicate_indices _ _ _ _ _ Hdup) as [Hsorted Hgood].
    destruct (del_indices_inserted (fun x => is_daybreak st x = false) (indices_of r) rest Hsorted)
      as [Hins _].
    { eapply Forall_impl; [exact Hgood|]. intros j (f & Hf & _ & Hn).
      exists f. split; [exact Hf|].
      rewrite (take_S_r _ _ _ Hf) in Hn. apply Forall_app in Hn as [_ Hn].
      by inversion Hn. }
    rewrite Hsplit in Hins.
    apply inserted_app_inv in Hins as (k1 & k2 & -> & H1 & H2).
    apply inserted_cons_inv in H2 as (pre & post & -> & Hpre & H2).
    apply inserted_app_inv in H2 as (k3 & k4 & -> & H3 & H4).
    apply inserted_cons_inv in H4 as (pre' & post' & -> & Hpre' & H4).
    exists (entry :: k1 ++ pre), (k3 ++ pre'), post'. split.
    + simpl. f_equal. by rewrite <- !app_assoc.
    + apply Forall_app. split; [|exact Hpre']. by apply (inserted_Forall _ _ _ H3).
Qed.

Lemma NoDup_split_unique (x : ref) l1 l2 k1 k2 :
  NoDup (l1 ++ x :: l2) -> l1 ++ x :: l2 = k1 ++ x :: k2 -> l1 = k1 /\ l2 = k2.
Proof.
  intros Hnd Heq.
  assert (x ∉ l1) as H1.
  { apply NoDup_app in Hnd as (_ & H & _). intros Hin. apply (H x Hin). left. }
  assert (x ∉ k1) as H2.
  { rewrite Heq in Hnd. apply NoDup_app in Hnd as (_ & H & _).
    intros Hin. apply (H x Hin). left. }
  destruct (not_elem_of_app_cons_inv_l x x l1 l2 k1 k2 H2 H1 Heq) as (? & _ & ?). by split.
Qed.

(** C8.  Two entries that deduplication counts as duplicates of each other
    have the same category, and some occurrence of the one stands before an
    occurrence of the other with no DAYBREAK entry between them.  In a
    sequence of distinct entries, wherever the two stand, no DAYBREAK entry
    lies between them. *)
Theorem duplicates_same_day_same_category (common : option (dict (list string))) (st : Store)
    (E : list ref) (a b : ref) :
  duplicate_of common st E a b ->
  type (objs st a) = type (objs st b)
  /\ (exists before between after,
        E = before ++ a :: between ++ b :: after
        /\ Forall (fun x => is_daybreak st x = false) between)
  /\ (NoDup E ->
      (forall l1 l2 l3, E = l1 ++ a :: l2 ++ b :: l3 ->
                        Forall (fun x => is_daybreak st x = false) l2)
      /\ (forall l1 l2 l3, E <> l1 ++ b :: l2 ++ a :: l3)).
Proof.
  intros H. destruct (duplicate_of_split _ _ _ _ _ H)
    as (Hty & Hb & before & between & after & HE & Hnone).
  split; [exact Hty|]. split; [by exists before, between, after|].
  intros Hnd. split.
  - intros l1 l2 l3 HE'. rewrite HE in Hnd, HE'.
    destruct (NoDup_split_unique a _ _ _ _ Hnd HE') as [-> Htail].
    apply NoDup_app in Hnd as (_ & _ & Hnd). apply NoDup_cons in Hnd as [_ Hnd].
    destruct (NoDup_split_unique b _ _ _ _ Hnd Htail) as [-> _]. exact Hnone.
  - intros l1 l2 l3 HE'. rewrite HE in Hnd.
    assert (a ∈ between ++ b :: after) as Hin.
    { assert (before ++ a :: between ++ b :: after
              = (before ++ a :: between) ++ b :: after) as Hre by (by rewrite <- app_assoc).
      rewrite HE, Hre in HE'. rewrite Hre in Hnd.
      destruct (NoDup_split_unique b _ _ _ _ Hnd HE') as [_ ->].
      apply elem_of_app. right. right. apply elem_of_app. right. left. }
    apply NoDup_app in Hnd as (_ & _ & Hnd). apply NoDup_cons in Hnd as [Hnot _].
    contradiction.
Qed.

(** ** The memos and the lists handed out *)

Lemma getDaybreaks_fst now events ignoreTimeForCache g :
  (getDaybreaks now events ignoreTimeForCache g).1 = length (evlists g).
Proof.
  destruct (getDaybreaks_spec now events ignoreTimeForCache g)
    as [[_ ->] | [(? & ? & ? & _ & _ & _ & _ & ->) | (? & ? & _ & _ & ->)]]; reflexivity.
Qed.

Lemma ev_read_write_ne g l v l' : l' <> l -> ev_read (ev_write g l v) l' = ev_read g l'.
Proof. intros H. unfold ev_read, ev_write. simpl. by rewrite list_lookup_insert_ne. Qed.

Lemma dup_read_write_ne g l v l' : l' <> l -> dup_read (dup_write g l v) l' = dup_read g l'.
Proof. intros H. unfold dup_read, dup_write. simpl. by rewrite list_lookup_insert_ne. Qed.

Lemma getDuplicates_hit startTime clock events g cargs cres :
  CACHED_DUPLICATES g = Some (cargs, cres) ->
  ev_read g cargs = ev_read g events ->
  getDuplicates startTime clock events g =
    (Ok (Some (length (duplists g))),
     mkGlobals (store g) (evlists g) (duplists g ++ [dup_read g cres])
               (CACHED_DAYBREAKS g) (CACHED_DUPLICATES g) (COMMON_LOG_MESSAGES g)).
Proof.
  intros Hc Heq. unfold getDuplicates. rewrite Hc.
  rewrite bool_decide_eq_true_2 by exact Heq.
  unfold dup_alloc. rewrite Hc. reflexivity.
Qed.

(** C10.  Whatever a caller assigns to a list that [getDaybreaks] or
    [getDuplicates] returned, a later call with an equal input (for
    [getDaybreaks], on the same day) returns another list object, which
    holds what the first call returned. *)
Theorem memo_results_survive_mutation (g : Globals) (events events' : nat) :
  caches_allocated g ->
  (forall now1 now2 ignoreTimeForCache junk,
     daysSince_now now1 = daysSince_now now2 ->
     let '(result, g1) := getDaybreaks now1 events ignoreTimeForCache g in
     let out := ev_read g1 result in
     let g1' := ev_write g1 result junk in
     ev_read g1' events' = ev_read g events ->
     let '(again, g2) := getDaybreaks now2 events' ignoreTimeForCache g1' in
     again <> result /\ ev_read g2 again = out)
  /\ (forall startTime clock startTime' clock' junk result g1,
       getDuplicates startTime clock events g = (Ok (Some result), g1) ->
       let out := dup_read g1 result in
       let g1' := dup_write g1 result junk in
       ev_read g1' events' = ev_read g events ->
       exists again g2,
         getDuplicates startTime' clock' events' g1' = (Ok (Some again), g2)
         /\ again <> result /\ dup_read g2 again = out).
Proof.
  intros [HallocD HallocU]. split.
  - intros now1 now2 ignoreTimeForCache junk Hday.
    destruct (getDaybreaks_spec now1 events ignoreTimeForCache g)
      as [[HE ->] | [(cargs & cday & cres & HE & Hc & Hargs & Hd & ->)
                    | (out & st' & HE & Hloop & ->)]];
      cbv zeta; rewrite ev_read_first;
      match goal with |- context [ev_write ?G _ _] => set (g1 := G) end;
      set (n := length (evlists g)) in *;
      set (g1' := ev_write g1 n junk); intros Hin;
      pose proof (getDaybreaks_fst now2 events' ignoreTimeForCache g1') as Hfst;
      assert (length (evlists g1') = length (evlists g1)) as Hlen
        by (unfold g1', ev_write; simpl; apply length_insert).
    + pose proof (getDaybreaks_empty_read now2 events' ignoreTimeForCache g1') as Hread.
      rewrite Hin, HE in Hread. specialize (Hread eq_refl).
      destruct (getDaybreaks now2 events' ignoreTimeForCache g1') as [again g2].
      simpl in Hfst. split; [|exact Hread].
      rewrite Hfst, length_insert, length_app. simpl. unfold n. lia.
    + rewrite Hc in HallocD. destruct HallocD as [Ha Hr].
      pose proof (getDaybreaks_hit_read now2 events' ignoreTimeForCache g1' cargs cday cres)
        as Hread.
      assert (ev_read g1' cargs = ev_read g cargs) as H1.
      { unfold g1'. rewrite ev_read_write_ne by lia. unfold g1. by rewrite ev_read_old. }
      assert (ev_read g1' cres = ev_read g cres) as H2.
      { unfold g1'. rewrite ev_read_write_ne by lia. unfold g1. by rewrite ev_read_old. }
      rewrite H1, H2, Hin, Hargs in Hread.
      specialize (Hread Hc eq_refl ltac:(rewrite <- Hday; exact Hd) HE).
      destruct (getDaybreaks now2 events' ignoreTimeForCache g1') as [again g2].
      simpl in Hfst. split; [|exact Hread].
      rewrite Hfst, length_insert, length_app. simpl. unfold n. lia.
    + pose proof (getDaybreaks_hit_read now2 events' ignoreTimeForCache g1'
                    (S n) (daysSince_now now1) (S (S n))) as Hread.
      assert (ev_read g1' (S n) = ev_read g events) as H1.
      { unfold g1'. rewrite ev_read_write_ne by lia. apply ev_read_second. }
      assert (ev_read g1' (S (S n)) = out) as H2.
      { unfold g1'. rewrite ev_read_write_ne by lia. apply ev_read_third. }
      rewrite H1, H2, Hin in Hread.
      specialize (Hread eq_refl eq_refl ltac:(by right) HE).
      destruct (getDaybreaks now2 events' ignoreTimeForCache g1') as [again g2].
      simpl in Hfst. split; [|exact Hread].
      rewrite Hfst, length_insert, length_app. simpl. unfold n. lia.
  - intros startTime clock startTime' clock' junk result g1 Hcall. cbv zeta. intros Hin.
    set (nd := length (duplists g)) in *.
    destruct (getDuplicates_spec startTime clock events g)
      as [(cargs & cres & Hc & Hargs & Heq) | Heq]; cbv zeta in Heq; rewrite Heq in Hcall.
    + injection Hcall as <- <-. fold nd in Hin |- *.
      match goal with |- context [dup_write ?G _ _] => set (g1 := G) in * end.
      rewrite Hc in HallocU. destruct HallocU as [Ha Hr].
      assert (ev_read (dup_write g1 nd junk) cargs = ev_read (dup_write g1 nd junk) events')
        as H1 by (rewrite Hin; exact Hargs).
      eexists _, _. split; [apply (getDuplicates_hit _ _ _ _ cargs cres); [exact Hc|exact H1]|].
      split.
      * unfold dup_write, g1. simpl. rewrite length_insert, length_app. simpl. lia.
      * unfold dup_read at 1. simpl.
        rewrite list_lookup_middle by (by rewrite length_insert).
        rewrite dup_read_write_ne by (fold nd; lia).
        unfold g1. rewrite dup_read_old by exact Hr. by rewrite dup_read_first.
    + destruct (dedup_loop _ _ _ _ _ _ _) as [[out|]|e]; try discriminate Hcall.
      injection Hcall as <- <-. fold nd in Hin |- *.
      match goal with |- context [dup_write ?G _ _] => set (g1 := G) in * end.
      set (ne := length (evlists g)) in *.
      assert (ev_read (dup_write g1 nd junk) ne = ev_read (dup_write g1 nd junk) events')
        as H1.
      { rewrite Hin. unfold ev_read, dup_write, g1. simpl. by rewrite list_lookup_middle. }
      eexists _, _.
      split; [apply (getDuplicates_hit _ _ _ _ ne (S nd)); [reflexivity|exact H1]|].
      split.
      * unfold dup_write, g1. simpl. rewrite length_insert, length_app. simpl. lia.
      * unfold dup_read at 1. simpl.
        rewrite list_lookup_middle by (by rewrite length_insert).
        rewrite dup_read_write_ne by lia.
        unfold g1. by rewrite dup_read_second, dup_read_first.
Qed.

(** ** Backfill from the log file *)

(** The accepted runlevels only matter for being empty or not: the local
    variable that held them is assigned [list(log.Runlevel)] before any line
    is looked at. *)
Lemma getLogFileEntries_any_runlevels tor now isdst (runlevels runlevels' : list string)
    readLimit addLimit st :
  runlevels <> [] -> runlevels' <> [] ->
  getLogFileEntries tor now isdst runlevels readLimit addLimit st
  = getLogFileEntries tor now isdst runlevels' readLimit addLimit st.
Proof.
  intros H H'. unfold getLogFileEntries.
  destruct runlevels; [contradiction|]. destruct runlevels'; [contradiction|]. reflexivity.
Qed.

(** A line of fewer than four words, or of a category outside the runlevels,
    adds nothing, and the scan goes on unless the line carries the start-up
    marker. *)
Lemma scanLogLines_skip runlevels now isdst line lines st :
  (length (Py.split line) < 4)%nat
  \/ ((Py.upper (Py.strip_ends (default "" (Py.split line !! 3%nat))) ∉ runlevels)
      /\ Py.contains line "opening log file" = false) ->
  scanLogLines runlevels now isdst (line :: lines) st
  = scanLogLines runlevels now isdst lines st.
Proof.
  intros [Hshort | [Hcat Hmark]]; cbn [scanLogLines].
  - apply Nat.ltb_lt in Hshort. by rewrite Hshort.
  - destruct (Nat.ltb _ 4); [reflexivity|].
    rewrite bool_decide_eq_false_2 by exact Hcat. rewrite Hmark. simpl.
    destruct (scanLogLines runlevels now isdst lines st) as [[more st2]|e]; reflexivity.
Qed.





(** ** The redraw loop *)

Lemma Qmax_floor_nonzero (x : Q) : Qeq_bool (Qmax (5 # 100) x) 0 = false.
Proof.
  destruct (Qeq_bool (Qmax (5 # 100) x) 0) eqn:E; [|reflexivity].
  apply Qeq_bool_eq in E. pose proof (Q.le_max_l (5 # 100) x) as H.
  rewrite E in H. exfalso. revert H. unfold Qle. simpl. lia.
Qed.

Lemma store_set_same st r e : objs (store_set st r e) r = e.
Proof. unfold store_set. simpl. by rewrite Nat.eqb_refl. Qed.

(** [registerEvent] notifies the condition exactly for an event of a logged
    type whose display line passes the filter, if there is one. *)
Lemma registerEvent_notifies (self : Panel) (st : Store) (event : ref) (now : Q) :
  (registerEvent self st event now).2 = true <->
  type (objs st event) ∈ loggedEvents self
  /\ match regexFilter self with
     | None => True
     | Some search =>
         search (getDisplayMessage (printable_entry (objs st event)) false).1 = true
     end.
Proof.
  unfold registerEvent. fold (printable_entry (objs st event)).
  destruct (bool_decide (type (objs st event) ∈ loggedEvents self)) eqn:Hin; cbn [negb].
  - apply bool_decide_eq_true in Hin.
    destruct (regexFilter self) as [search|].
    + unfold getDisplayMessage_at. rewrite store_set_same.
      destruct (getDisplayMessage (printable_entry (objs st event)) false) as [line self'].
      cbn [fst snd]. split; [intros H; split; assumption|intros [_ H]; exact H].
    + cbn [snd]. split; [intros _; split; [exact Hin|exact I]|reflexivity].
  - apply bool_decide_eq_false in Hin. cbn [snd].
    split; [discriminate|intros [H _]; contradiction].
Qed.

(** An event of a logged type goes to the front of the log, which is then
    trimmed; any other event leaves the log as it is. *)
Lemma registerEvent_msgLog (self : Panel) (st : Store) (event : ref) (now : Q) :
  msgLog (registerEvent self st event now).1.1
  = if bool_decide (type (objs st event) ∈ loggedEvents self)
    then _trimEvents (store_set st event (printable_entry (objs st event))) now
                     (event :: msgLog self)
    else msgLog self.
Proof.
  unfold registerEvent. fold (printable_entry (objs st event)).
  destruct (bool_decide (type (objs st event) ∈ loggedEvents self)); cbn [negb];
    [|reflexivity].
  destruct (regexFilter self) as [search|]; [|reflexivity].
  destruct (getDisplayMessage_at _ event false) as [line st2]. reflexivity.
Qed.

(** After a repopulation the log is what [_trimEvents] leaves of the entries
    read back. *)
Lemma reprepopulateEvents_msgLog tor now now' isdst prepopulate self st self' st' :
  reprepopulateEvents tor now now' isdst prepopulate self st = Ok (self', st') ->
  exists entries, msgLog self' = _trimEvents st' now' entries.
Proof.
  unfold reprepopulateEvents. intros H.
  destruct (if prepopulate then _ else _) as [[entries st1]|e]; [|discriminate H].
  injection H as <- <-. by exists entries.
Qed.

(** C5 (amended).  One pass of the loop of [run], when the thread has not
    been halted.  If the log and the day are as they were at the last draw,
    or the panel is paused, the thread waits on its condition for at most 5
    seconds.  Otherwise, if less than the refresh period has passed since
    the last update, it waits for what is left of the period, and at least
    0.05 seconds; once the period has passed it redraws at once, without
    waiting.  A wait with a timeout ends at the next notification or when the
    timeout has passed, whichever comes first, and the loop then starts
    over.  [registerEvent] notifies for an event of a logged type that passes
    the filter, [stop] notifies and makes the next pass leave the loop. *)
Theorem run_iteration_waits (self : Panel) (lastDay : Z) (tDay tNow : Q) :
  _halt self = false ->
  let currentDay := daysSince_now tDay in
  let timeSinceReset := (tNow - _lastUpdate self)%Q in
  let maxLogUpdateRate :=
    (inject_Z (CONFIG "features.log.maxRefreshRate") / inject_Z 1000)%Q in
  let unchanged := msgLog self = _lastLoggedEvents self /\ lastDay = currentDay in
  (unchanged \/ isPaused self = true ->
     run_iteration self lastDay tDay tNow = CondWait (Some 5%Q))
  /\ (~ unchanged -> isPaused self = false -> (timeSinceReset < maxLogUpdateRate)%Q ->
      run_iteration self lastDay tDay tNow
      = CondWait (Some (Qmax (5 # 100) (maxLogUpdateRate - timeSinceReset)%Q)))
  /\ (~ unchanged -> isPaused self = false -> (maxLogUpdateRate <= timeSinceReset)%Q ->
      run_iteration self lastDay tDay tNow = Redraw currentDay)
  /\ (forall t0 d,
        wait_returns t0 (Some d) None = Some (t0 + d)%Q
        /\ forall n, wait_returns t0 (Some d) (Some n) = Some (Qmin n (t0 + d)%Q))
  /\ (forall st event now,
        (registerEvent self st event now).2 = true <->
        type (objs st event) ∈ loggedEvents self
        /\ match regexFilter self with
           | None => True
           | Some search =>
               search (getDisplayMessage (printable_entry (objs st event)) false).1 = true
           end)
  /\ ((stop self).2 = true /\ run_iteration (stop self).1 lastDay tDay tNow = Halted).
Proof.
  intros Hhalt currentDay timeSinceReset maxLogUpdateRate unchanged.
  unfold run_iteration at 1 2 3. unfold sleepTime. rewrite Hhalt.
  fold currentDay timeSinceReset maxLogUpdateRate.
  assert (Hidle : (bool_decide (msgLog self = _lastLoggedEvents self) && (lastDay =? currentDay))
                  = true <-> unchanged).
  { unfold unchanged. rewrite andb_true_iff, bool_decide_eq_true, Z.eqb_eq. reflexivity. }
  split; [|split; [|split; [|split; [|split]]]].
  - intros [Hu | Hp].
    + apply Hidle in Hu. rewrite Hu. reflexivity.
    + rewrite Hp, orb_true_r. reflexivity.
  - intros Hu Hp Hlt.
    destruct (bool_decide _ && _) eqn:E; [exfalso; by apply Hu, Hidle|].
    rewrite Hp. simpl. unfold Qgtb.
    destruct (Qle_bool maxLogUpdateRate timeSinceReset) eqn:Hle.
    + apply Qle_bool_iff in Hle. exfalso. by apply (Qlt_not_le _ _ Hlt).
    + simpl. by rewrite Qmax_floor_nonzero.
  - intros Hu Hp Hle.
    destruct (bool_decide _ && _) eqn:E; [exfalso; by apply Hu, Hidle|].
    rewrite Hp. simpl. unfold Qgtb.
    apply Qle_bool_iff in Hle. rewrite Hle. reflexivity.
  - intros t0 d. split; [reflexivity|]. intros n. reflexivity.
  - intros st event now. apply registerEvent_notifies.
  - split; reflexivity.
Qed.

(** ** The memos as an invariant of the module

    What the properties of the two memoizing functions assume of the module
    holds when it is imported and after each call of either function. *)


Lemma getDaybreaks_ok now events ignoreTimeForCache g :
  module_ok g -> module_ok (getDaybreaks now events ignoreTimeForCache g).2.
Proof.
  intros ([HaD HaU] & HokD & HokU).
  unfold module_ok, caches_allocated, daybreaks_cache_ok, duplicates_cache_ok in *.
  destruct (getDaybreaks_spec now events ignoreTimeForCache g)
    as [[HE ->] | [(cargs & cday & cres & HE & Hc & Hargs & Hd & ->)
                  | (out & st' & HE & Hloop & ->)]]; cbn [snd]; simpl.
  - destruct (CACHED_DAYBREAKS g) as [[[a d] c]|], (CACHED_DUPLICATES g) as [[a' c']|];
      rewrite ?length_app; simpl; repeat split; try lia; try exact I;
      rewrite ?ev_read_old by lia; try assumption.
  - destruct (CACHED_DAYBREAKS g) as [[[a d] c]|], (CACHED_DUPLICATES g) as [[a' c']|];
      rewrite ?length_app; simpl; repeat split; try lia; try exact I;
      rewrite ?ev_read_old by lia; try assumption.
  - pose proof (daybreaks_loop_inserted (store g) (daysSince_now now) (ev_read g events)) as Hins.
    rewrite Hloop in Hins. rewrite ev_read_second, ev_read_third.
    destruct (CACHED_DUPLICATES g) as [[a' c']|];
      rewrite ?length_app; simpl; repeat split; try lia; try exact Hins;
      rewrite ?ev_read_old by lia; try assumption.
Qed.

Lemma getDuplicates_ok startTime clock events g :
  module_ok g -> module_ok (getDuplicates startTime clock events g).2.
Proof.
  intros ([HaD HaU] & HokD & HokU).
  unfold module_ok, caches_allocated, daybreaks_cache_ok, duplicates_cache_ok in *.
  destruct (getDuplicates_spec startTime clock events g)
    as [(cargs & cres & Hc & Hargs & ->) | ->]; cbv zeta.
  - cbn [snd]; simpl.
    destruct (CACHED_DAYBREAKS g) as [[[a d] c]|], (CACHED_DUPLICATES g) as [[a' c']|];
      rewrite ?length_app; simpl; repeat split; try lia; try exact I;
      rewrite ?dup_read_old by lia; try assumption.
  - destruct (dedup_loop _ _ _ _ _ _ _) as [[out|]|e] eqn:Hrun; cbn [snd]; simpl;
      [|repeat split; assumption..].
    apply (dedup_loop_counts _ _ _ _ _ _ _ _ _ eq_refl) in Hrun. simpl in Hrun.
    rewrite dup_read_second, ev_read_first.
    destruct (CACHED_DAYBREAKS g) as [[[a d] c]|];
      rewrite ?length_app; simpl; repeat split; try lia;
      rewrite ?ev_read_old by lia; try assumption.
Qed.

(** Every positive count [getDuplicates] emits is made of duplicates in the
    sense of [duplicate_of]. *)
Lemma dedup_loop_counts_are_duplicates common st startTime clock :
  forall n eventsRemaining k returnEvents out,
    length eventsRemaining = n ->
    dedup_loop common st startTime clock k eventsRemaining returnEvents = Ok (Some out) ->
    exists new,
      out = returnEvents ++ new
      /\ Forall (fun p => p.2 = 0%nat \/ exists b, duplicate_of common st eventsRemaining p.1 b)
                new.
Proof.
  induction n as [n IH] using lt_wf_ind.
  intros [|entry rest] k acc out Hn Hrun.
  - simp dedup_loop in Hrun. injection Hrun as <-. exists []. by rewrite app_nil_r.
  - rewrite dedup_loop_cons in Hrun.
    destruct (isDuplicate common st entry rest true) as [r|e] eqn:Hdup; [|discriminate Hrun].
    destruct (timed_out startTime (clock k)); [discriminate Hrun|].
    pose proof (length_del_indices (reverse (indices_of r)) rest). simpl in Hn.
    apply (IH (length (del_indices (reverse (indices_of r)) rest)) ltac:(lia) _ _ _ _ eq_refl)
      in Hrun as (new & -> & Hnew).
    exists ((entry, length (indices_of r)) :: new). split; [by rewrite <- app_assoc|].
    constructor.
    + simpl. destruct (indices_of r) as [|i idxs] eqn:Hi; [by left|right].
      destruct (isDuplicate_indices _ _ _ _ _ Hdup) as [_ Hgood].
      rewrite Hi in Hgood. inversion Hgood as [|? ? (f & Hf & _) _]; subst.
      exists f. apply (duplicate_now common st entry rest r i f Hdup); [|exact Hf].
      rewrite Hi. left.
    + eapply Forall_impl; [exact Hnew|]. intros [a c] [H0|[b Hb]]; [by left|right].
      exists b. by apply (duplicate_later common st entry rest r).
Qed.

(** ** Event flags *)

Lemma append_empty_r (s : string) : s +:+ "" = s.
Proof. induction s as [|c s IH]; [reflexivity|]. change (String c (s +:+ "") = String c s). by rewrite IH. Qed.

Lemma append_cons (c : ascii) (s t : string) : String c s +:+ t = String c (s +:+ t).
Proof. reflexivity. Qed.

(** The loop adds to what it is given, and the flags it does not know are
    those of the scanned part, in their order. *)
Lemma expandEvents_loop_invalid (eventAbbr : string) :
  forall expandedEvents invalidFlags,
    (expandEvents_loop eventAbbr expandedEvents invalidFlags).2
    = invalidFlags +:+ str_filter (fun flag => negb (recognised flag)) (scanned eventAbbr).
Proof.
  induction eventAbbr as [|flag rest IH]; intros acc inv; cbn [expandEvents_loop scanned].
  - cbn [str_filter snd]. by rewrite append_empty_r.
  - destruct (Ascii.eqb flag "A") eqn:HA; [cbn [orb str_filter snd]; by rewrite append_empty_r|].
    destruct (Ascii.eqb flag "X") eqn:HX; [cbn [orb str_filter snd]; by rewrite append_empty_r|].
    cbn [orb str_filter]. unfold recognised at 1. rewrite HA, HX. cbn [orb].
    destruct (char_in flag "DINWE12345") eqn:HR; cbn [orb negb].
    { destruct (char_in flag "DINWE"); [apply IH|].
      destruct (char_in flag "12345"); apply IH. }
    destruct (Ascii.eqb flag "U") eqn:HU; cbn [orb negb]; [apply IH|].
    destruct (dict_get TOR_EVENT_TYPES (String flag "")) as [eventType|] eqn:HT.
    + rewrite bool_decide_eq_true_2 by eauto. cbn [negb]. apply IH.
    + rewrite bool_decide_eq_false_2 by (intros [? ?]; discriminate). cbn [negb].
      rewrite IH. rewrite append_assoc. reflexivity.
Qed.

(** X1.  [expandEvents] raises [ValueError] exactly when one of the flags in
    front of the first [A] or [X] is unknown, and the error then carries
    those unknown flags, in their order; otherwise it returns a set. *)
Theorem expandEvents_invalid_flags (eventAbbr : string) :
  let unknown := str_filter (fun flag => negb (recognised flag)) (scanned eventAbbr) in
  (forall invalidFlags,
     expandEvents eventAbbr = InvalidFlags invalidFlags <->
     invalidFlags = unknown /\ unknown <> "")
  /\ ((exists expandedEvents, expandEvents eventAbbr = Expanded expandedEvents) <->
      unknown = "").
Proof.
  intros unknown. unfold expandEvents.
  pose proof (expandEvents_loop_invalid eventAbbr ∅ "") as Hinv.
  destruct (expandEvents_loop eventAbbr ∅ "") as [expandedEvents invalidFlags].
  cbn [snd] in Hinv. change ("" +:+ ?s) with s in Hinv. fold unknown in Hinv. subst invalidFlags.
  destruct (String.eqb_spec unknown "") as [He|Hne]; cbn [negb].
  - split.
    + intros f. split; [discriminate|]. intros [_ H]. contradiction.
    + split; [intros _; exact He|]. intros _. by exists expandedEvents.
  - split.
    + intros f. split.
      * intros [= <-]. by split.
      * intros [-> _]. reflexivity.
    + split; [intros [e He]; discriminate He|]. intros He. contradiction.
Qed.

Lemma gset_union_empty_l (X : gset string) : ∅ ∪ X = X.
Proof. apply (left_id_L ∅ (∪)). Qed.

Lemma gset_union_empty_r (X : gset string) : X ∪ ∅ = X.
Proof. apply (right_id_L ∅ (∪)). Qed.

Lemma gset_union_assoc (X Y Z : gset string) : X ∪ (Y ∪ Z) = X ∪ Y ∪ Z.
Proof. apply (assoc_L (∪)). Qed.

(** One pass of the loop over a flag that is neither [A] nor [X]: it adds
    what the flag alone gives. *)
Lemma expandEvents_loop_step (flag : ascii) (rest : string) :
  Ascii.eqb flag "A" = false -> Ascii.eqb flag "X" = false ->
  forall expandedEvents invalidFlags,
    expandEvents_loop (String flag rest) expandedEvents invalidFlags
    = expandEvents_loop rest
        (expandedEvents ∪ (expandEvents_loop (String flag "") ∅ "").1)
        (invalidFlags +:+ (expandEvents_loop (String flag "") ∅ "").2).
Proof.
  intros HA HX acc inv. cbn [expandEvents_loop]. rewrite HA, HX.
  destruct (char_in flag "DINWE12345").
  { destruct (char_in flag "DINWE");
      [cbn [fst snd]; by rewrite append_empty_r, ?gset_union_empty_l|].
    destruct (char_in flag "12345");
      cbn [fst snd]; by rewrite append_empty_r, ?gset_union_empty_l, ?gset_union_empty_r. }
  destruct (Ascii.eqb flag "U");
    [cbn [fst snd]; by rewrite append_empty_r, ?gset_union_empty_l|].
  destruct (dict_get TOR_EVENT_TYPES (String flag ""));
    cbn [fst snd]; by rewrite ?append_empty_r, ?gset_union_empty_l, ?gset_union_empty_r.
Qed.

(** What follows an [A] or an [X] is never looked at. *)
Lemma expandEvents_loop_rest (flag : ascii) (pre post : string) :
  flag = "A"%char \/ flag = "X"%char ->
  forall expandedEvents invalidFlags,
    expandEvents_loop (pre +:+ String flag post) expandedEvents invalidFlags
    = expandEvents_loop (pre +:+ String flag "") expandedEvents invalidFlags.
Proof.
  intros Hflag. induction pre as [|c pre IH]; intros acc inv.
  - change ("" +:+ ?s) with s. destruct Hflag as [-> | ->]; reflexivity.
  - rewrite !append_cons.
    destruct (Ascii.eqb c "A") eqn:HA; [cbn [expandEvents_loop]; by rewrite HA|].
    destruct (Ascii.eqb c "X") eqn:HX; [cbn [expandEvents_loop]; by rewrite HA, HX|].
    rewrite (expandEvents_loop_step c (pre +:+ String flag post) HA HX),
            (expandEvents_loop_step c (pre +:+ String flag "") HA HX).
    apply IH.
Qed.

(** Over flags that are neither [A] nor [X] the loop only adds events. *)
Lemma expandEvents_loop_plain (pre : string) :
  scanned pre = pre ->
  forall rest expandedEvents invalidFlags,
    expandEvents_loop (pre +:+ rest) expandedEvents invalidFlags
    = expandEvents_loop rest
        (expandedEvents ∪ (expandEvents_loop pre ∅ "").1)
        (invalidFlags +:+ (expandEvents_loop pre ∅ "").2).
Proof.
  induction pre as [|c pre IH]; intros Hplain rest acc inv.
  - change ("" +:+ rest) with rest. cbn [expandEvents_loop fst snd].
    by rewrite append_empty_r, gset_union_empty_r.
  - cbn [scanned] in Hplain.
    destruct (Ascii.eqb c "A") eqn:HA; [discriminate Hplain|].
    destruct (Ascii.eqb c "X") eqn:HX; [discriminate Hplain|].
    cbn [orb] in Hplain. injection Hplain as Hplain.
    rewrite append_cons.
    rewrite (expandEvents_loop_step c (pre +:+ rest) HA HX), (expandEvents_loop_step c pre HA HX).
    set (e1 := (expandEvents_loop (String c "") ∅ "").1).
    set (i1 := (expandEvents_loop (String c "") ∅ "").2).
    assert (Hpre : forall X Y, expandEvents_loop pre X Y
                               = (X ∪ (expandEvents_loop pre ∅ "").1,
                                  Y +:+ (expandEvents_loop pre ∅ "").2)).
    { intros X Y. pose proof (IH Hplain "" X Y) as H. by rewrite append_empty_r in H. }
    rewrite (IH Hplain rest). rewrite (Hpre (∅ ∪ e1) ("" +:+ i1)). cbn [fst snd].
    change ("" +:+ i1) with i1.
    by rewrite gset_union_empty_l, gset_union_assoc, append_assoc.
Qed.

Lemma expandEvents_loop_acc (flags : string) :
  scanned flags = flags ->
  forall expandedEvents invalidFlags,
    expandEvents_loop flags expandedEvents invalidFlags
    = (expandedEvents ∪ (expandEvents_loop flags ∅ "").1,
       invalidFlags +:+ (expandEvents_loop flags ∅ "").2).
Proof.
  intros Hplain X Y. pose proof (expandEvents_loop_plain flags Hplain "" X Y) as H.
  by rewrite append_empty_r in H.
Qed.

Lemma scanned_filter_plain (flags : string) :
  plain_flags flags -> (expandEvents_loop flags ∅ "").2 = "".
Proof.
  intros [Hscan Hknown]. rewrite expandEvents_loop_invalid, Hscan, Hknown. reflexivity.
Qed.

(** X2.  Whatever follows the first [A] or [X] is ignored, unknown flags
    included; after known flags, [X] gives the empty set whatever came
    before it, and [A] gives arm's runlevels, [UNKNOWN] and the keys of
    [TOR_EVENT_TYPES]. *)
Theorem expandEvents_stops_at_A_or_X (pre post : string) :
  expandEvents (pre +:+ String "A" post) = expandEvents (pre +:+ "A")
  /\ expandEvents (pre +:+ String "X" post) = expandEvents (pre +:+ "X")
  /\ (plain_flags pre ->
      expandEvents (pre +:+ String "A" post) = Expanded all_events
      /\ expandEvents (pre +:+ String "X" post) = Expanded ∅).
Proof.
  split; [|split].
  - unfold expandEvents. by rewrite (expandEvents_loop_rest "A" pre post) by by left.
  - unfold expandEvents. by rewrite (expandEvents_loop_rest "X" pre post) by by right.
  - intros Hplain. pose proof (scanned_filter_plain pre Hplain) as Hinv.
    destruct Hplain as [Hscan _]. unfold expandEvents.
    rewrite !(expandEvents_loop_plain pre Hscan), Hinv. split; reflexivity.
Qed.

(** X3.  Without [A] and [X] the flags add up: two abbreviations that expand
    give, put together in either order, the union of their events. *)
Theorem expandEvents_union (flags1 flags2 : string) (events1 events2 : gset string) :
  scanned flags1 = flags1 -> scanned flags2 = flags2 ->
  expandEvents flags1 = Expanded events1 ->
  expandEvents flags2 = Expanded events2 ->
  expandEvents (flags1 +:+ flags2) = Expanded (events1 ∪ events2)
  /\ expandEvents (flags2 +:+ flags1) = Expanded (events1 ∪ events2).
Proof.
  intros H1 H2. unfold expandEvents.
  rewrite (expandEvents_loop_plain flags1 H1 flags2), (expandEvents_loop_plain flags2 H2 flags1).
  rewrite (expandEvents_loop_acc flags2 H2 (∅ ∪ _)), (expandEvents_loop_acc flags1 H1 (∅ ∪ _)).
  destruct (expandEvents_loop flags1 ∅ "") as [e1 i1], (expandEvents_loop flags2 ∅ "") as [e2 i2].
  cbn [fst snd].
  destruct (String.eqb_spec i1 ""); [|discriminate]. destruct (String.eqb_spec i2 ""); [|discriminate].
  subst i1 i2. cbn [negb]. intros [= ->] [= ->]. change ("" +:+ "" +:+ "") with "". cbn [String.eqb negb].
  rewrite !gset_union_empty_l. split; [reflexivity|]. f_equal. apply (comm_L (∪)).
Qed.

Lemma drop_subseteq_set (i j : nat) (l : list string) :
  (i <= j)%nat -> (list_to_set (drop j l) : gset string) ⊆ list_to_set (drop i l).
Proof.
  intros Hij x. rewrite !elem_of_list_to_set.
  replace j with (i + (j - i))%nat by lia. rewrite <- drop_drop. apply subseteq_drop.
Qed.

(** X4.  A runlevel flag stands for its runlevel and the higher ones: the
    i-th of [DINWE] gives the runlevels after the first i+1 of
    [log.Runlevel], the i-th of [12345] gives the same with [ARM_] in front,
    and a later flag gives a subset of what an earlier one gives. *)
Theorem expandEvents_runlevel_and_higher (i : nat) (letter digit : ascii) :
  list_ascii_of_string "DINWE" !! i = Some letter ->
  list_ascii_of_string "12345" !! i = Some digit ->
  let higher := drop (S i) log_Runlevel in
  expandEvents (String letter "") = Expanded (list_to_set higher)
  /\ expandEvents (String digit "")
     = Expanded (list_to_set ((fun runlevel => "ARM_" +:+ runlevel) <$> higher))
  /\ (forall j letter',
        (i <= j)%nat -> list_ascii_of_string "DINWE" !! j = Some letter' ->
        exists events,
          expandEvents (String letter' "") = Expanded events /\ events ⊆ list_to_set higher).
Proof.
  intros Hl Hd higher.
  assert (Hletter : forall k c, list_ascii_of_string "DINWE" !! k = Some c ->
            expandEvents (String c "") = Expanded (list_to_set (drop (S k) log_Runlevel))).
  { intros k c Hk. do 5 (destruct k as [|k]; [injection Hk as <-; unfold expandEvents;
      cbn [expandEvents_loop]; cbn; by rewrite gset_union_empty_l|]). discriminate Hk. }
  split; [by apply Hletter|]. split.
  - do 5 (destruct i as [|i]; [injection Hd as <-; unfold expandEvents;
      cbn [expandEvents_loop]; cbn; by rewrite gset_union_empty_l|]). discriminate Hd.
  - intros j letter' Hij Hj. eexists. split; [by apply Hletter|].
    apply drop_subseteq_set. lia.
Qed.

(** ** The event types listened to *)

Lemma str_le_compare (a b : string) : str_le a b <-> a = b \/ OrderedTypeEx.String_as_OT.lt a b.
Proof.
  unfold str_le, String.leb.
  change (String.compare a b) with (OrderedTypeEx.String_as_OT.cmp a b).
  destruct (OrderedTypeEx.String_as_OT.cmp a b) eqn:E.
  - apply OrderedTypeEx.String_as_OT.cmp_eq in E. split; [by left|done].
  - apply OrderedTypeEx.String_as_OT.cmp_lt in E. split; [by right|done].
  - split; [discriminate|]. intros [->|Hlt].
    + assert (OrderedTypeEx.String_as_OT.cmp b b = Eq) as Hb
        by by apply OrderedTypeEx.String_as_OT.cmp_eq.
      rewrite Hb in E. discriminate E.
    + apply OrderedTypeEx.String_as_OT.cmp_lt in Hlt. rewrite Hlt in E. discriminate E.
Qed.

#[local] Instance str_le_trans : Transitive str_le.
Proof.
  intros a b c. rewrite !str_le_compare. intros [->|Hab] [->|Hbc]; auto.
  right. eapply OrderedTypeEx.String_as_OT.lt_trans; eauto.
Qed.

#[local] Instance str_le_total : Total str_le.
Proof. intros a b. unfold str_le. apply String.leb_total. Qed.

#[local] Instance str_le_antisym : AntiSymm eq str_le.
Proof. intros a b. unfold str_le. apply String.leb_antisym. Qed.

Lemma sorted_Permutation (l : list string) : sorted l ≡ₚ l.
Proof. apply merge_sort_Permutation. Qed.

Lemma sorted_StronglySorted (l : list string) : StronglySorted str_le (sorted l).
Proof. apply (StronglySorted_merge_sort _). Qed.

Lemma elem_of_sorted (x : string) (l : list string) : x ∈ sorted l <-> x ∈ l.
Proof. by rewrite sorted_Permutation. Qed.

(** The sorted list of a set depends on the set only. *)
Lemma sorted_elements_unique (l : list string) (X : gset string) :
  StronglySorted str_le l -> NoDup l -> (forall x, x ∈ l <-> x ∈ X) ->
  l = sorted (elements X).
Proof.
  intros Hs Hn Hx. apply (StronglySorted_unique str_le); [exact Hs|apply sorted_StronglySorted|].
  rewrite sorted_Permutation. apply NoDup_Permutation; [exact Hn|apply NoDup_elements|].
  intros x. rewrite Hx, elem_of_elements. reflexivity.
Qed.

Lemma tor_values_not_arm :
  Forall (fun v => Py.startswith v "ARM_" = false
                   /\ v <> "ERROR" /\ v <> "WARNING" /\ v <> "UNKNOWN")
         (dict_values TOR_EVENT_TYPES).
Proof. vm_compute. repeat constructor; discriminate. Qed.

Lemma startswith_app (p s : string) : Py.startswith (p +:+ s) p = true.
Proof.
  induction p as [|c p IH]; [by destruct s|].
  rewrite append_cons. cbn [Py.startswith]. by rewrite Ascii.eqb_refl, IH.
Qed.

Lemma tor_event_not_arm (x : string) : tor_event x -> ~ arm_event x.
Proof.
  intros Ht (r & _ & ->). unfold tor_event in Ht.
  pose proof tor_values_not_arm as H. rewrite Forall_forall in H.
  destruct (H _ Ht) as [Hs _]. by rewrite startswith_app in Hs.
Qed.

(** The events asked for, with [ERROR] and [WARNING] under the names tor and
    arm use, as [setEventListening] computes them first. *)
Lemma setEventListening_Ok (conn : Controller) (events : list string) :
  let asked : gset string := list_to_set events in
  let asked :=
    if bool_decide ("ERROR" ∈ asked) then (asked ∪ {["ERR"]}) ∖ {["ERROR"]} else asked in
  let asked :=
    if bool_decide ("WARNING" ∈ asked) then (asked ∪ {["WARN"]}) ∖ {["WARNING"]} else asked in
  let armEvents :=
    asked ∩ list_to_set ((fun runlevel => "ARM_" +:+ runlevel) <$> log_Runlevel_keys) in
  let known := asked ∩ list_to_set (dict_values TOR_EVENT_TYPES) in
  forall result listening,
    setEventListening conn events = Ok (result, listening) ->
    exists torEvents : gset string,
      (if bool_decide ("UNKNOWN" ∈ asked)
       then exists missing, getMissingEventTypes conn = Some missing
                            /\ torEvents = known ∪ list_to_set missing
       else torEvents = known)
      /\ listening = filter (fun eventType => addEventListener_ok conn eventType = true) torEvents
      /\ result = sorted (elements (listening ∪ armEvents)).
Proof.
  intros asked0 asked1 asked armEvents known result listening.
  unfold setEventListening. fold asked0 asked1 asked armEvents known.
  destruct (bool_decide ("UNKNOWN" ∈ asked)).
  - destruct (getMissingEventTypes conn) as [missing|]; [|discriminate].
    cbn [mbind res_bind]. intros [= <- <-]. eexists. split; [by exists missing|]. by split.
  - cbn [mbind res_bind]. intros [= <- <-]. eexists. split; [reflexivity|]. by split.
Qed.

Lemma elem_of_asked (events : list string) (x : string) :
  let asked : gset string := list_to_set events in
  let asked :=
    if bool_decide ("ERROR" ∈ asked) then (asked ∪ {["ERR"]}) ∖ {["ERROR"]} else asked in
  let asked :=
    if bool_decide ("WARNING" ∈ asked) then (asked ∪ {["WARN"]}) ∖ {["WARNING"]} else asked in
  x ∈ asked <-> asked_for events x.
Proof.
  intros asked0 asked1 asked. unfold asked_for.
  assert (H0 : forall y, y ∈ asked0 <-> y ∈ events) by (intros y; apply elem_of_list_to_set).
  assert (H1 : forall y, y ∈ asked1 <-> (y ∈ events /\ y <> "ERROR") \/ (y = "ERR" /\ "ERROR" ∈ events)).
  { intros y. unfold asked1. case_bool_decide as HE.
    - rewrite elem_of_difference, elem_of_union, !elem_of_singleton, H0.
      rewrite H0 in HE. split.
      + intros [[Hy| ->] Hne]; [left; by split|right; by split].
      + intros [[Hy Hne]|[-> _]]; [split; [by left|done]|split; [by right|done]].
    - rewrite H0. rewrite H0 in HE. split.
      + intros Hy. left. split; [done|]. intros ->. contradiction.
      + intros [[Hy _]|[_ Hy]]; [done|contradiction]. }
  unfold asked. case_bool_decide as HW.
  - rewrite elem_of_difference, elem_of_union, !elem_of_singleton, H1.
    rewrite H1 in HW. destruct HW as [[HW _]|[? _]]; [|discriminate].
    split.
    + intros [[[[Hx Hne]|[-> HE]]| ->] Hnw]; [left; by repeat split|right; left; by split|right; right; by split].
    + intros [(Hx & Hne & Hnw)|[[-> HE]|[-> _]]].
      * split; [left; left; by split|done].
      * split; [left; right; by split|done].
      * split; [by right|done].
  - rewrite H1. rewrite H1 in HW. split.
    + intros [[Hx Hne]|[-> HE]]; [left; repeat split; [done..|]|right; left; by split].
      intros ->. apply HW. left. by split.
    + intros [(Hx & Hne & Hnw)|[[-> HE]|[-> Hw]]]; [left; by split|right; by split|].
      exfalso. apply HW. left. by split.
Qed.

Lemma asked_for_UNKNOWN (events : list string) : asked_for events "UNKNOWN" <-> "UNKNOWN" ∈ events.
Proof.
  unfold asked_for. split.
  - intros [(H & _)|[[? _]|[? _]]]; [done|discriminate..].
  - intros H. left. by repeat split.
Qed.

Lemma asked_for_arm (events : list string) (x : string) :
  arm_event x -> asked_for events x <-> x ∈ events.
Proof.
  intros (r & _ & ->). unfold asked_for. split.
  - intros [(H & _)|[[? _]|[? _]]]; [done|discriminate..].
  - intros H. left. by repeat split.
Qed.

Lemma asked_for_tor (events : list string) (x : string) :
  tor_event x -> x ∈ events -> asked_for events x.
Proof.
  intros Ht Hx. pose proof tor_values_not_arm as H. rewrite Forall_forall in H.
  destruct (H _ Ht) as (_ & ? & ? & _). left. by repeat split.
Qed.

(** What [setEventListening] returns, in terms of sets. *)
Lemma setEventListening_elem (conn : Controller) (events result : list string)
    (listening : gset string) :
  setEventListening conn events = Ok (result, listening) ->
  (forall x, x ∈ result <-> x ∈ listening \/ (arm_event x /\ x ∈ events))
  /\ (forall x, x ∈ listening <->
        addEventListener_ok conn x = true
        /\ ((tor_event x /\ asked_for events x)
            \/ ("UNKNOWN" ∈ events
                /\ exists missing, getMissingEventTypes conn = Some missing /\ x ∈ missing)))
  /\ result = sorted (elements (list_to_set result : gset string)).
Proof.
  intros Hrun. pose proof (elem_of_asked events) as Hasked. cbv zeta in Hasked.
  apply setEventListening_Ok in Hrun. cbv zeta in Hrun.
  match type of Hasked with forall x, x ∈ ?A <-> _ => set (asked := A) in * end.
  destruct Hrun as (torEvents & Htor & -> & ->).
  assert (Hres : forall x,
            x ∈ sorted (elements
                  (filter (fun eventType => addEventListener_ok conn eventType = true) torEvents
                   ∪ asked ∩ list_to_set ((fun runlevel => "ARM_" +:+ runlevel) <$> log_Runlevel_keys)))
            <-> x ∈ filter (fun eventType => addEventListener_ok conn eventType = true) torEvents
                \/ (arm_event x /\ x ∈ events)).
  { intros x. rewrite elem_of_sorted, elem_of_elements, elem_of_union, elem_of_intersection.
    rewrite Hasked, elem_of_list_to_set, list_elem_of_fmap. unfold arm_event.
    split.
    - intros [H|[Ha (r & -> & Hr)]]; [by left|right].
      assert (arm_event ("ARM_" +:+ r)) as Harm by by exists r.
      split; [by exists r|]. by apply (asked_for_arm events) in Ha.
    - intros [H|[(r & Hr & ->) Hx]]; [by left|right].
      split; [|by exists r]. apply asked_for_arm; [by exists r|done]. }
  split; [exact Hres|]. split.
  - intros x. rewrite elem_of_filter.
    destruct (bool_decide ("UNKNOWN" ∈ asked)) eqn:HU;
      [apply bool_decide_eq_true in HU|apply bool_decide_eq_false in HU];
      rewrite Hasked, asked_for_UNKNOWN in HU.
    + destruct Htor as (missing & Hm & ->).
      rewrite elem_of_union, elem_of_intersection, Hasked, !elem_of_list_to_set.
      split.
      * intros [Hok [[Ha Ht]|Hx]]; (split; [done|]); [by left|right; split; [done|by exists missing]].
      * intros [Hok [[Ht Ha]|(_ & m & Hm' & Hx)]]; (split; [done|]); [by left|right].
        rewrite Hm in Hm'. by injection Hm' as ->.
    + subst torEvents.
      rewrite elem_of_intersection, Hasked, !elem_of_list_to_set.
      split.
      * intros [Hok [Ha Ht]]. split; [done|by left].
      * intros [Hok [[Ht Ha]|(HU' & _)]]; [by split|contradiction].
  - apply sorted_elements_unique.
    + apply sorted_StronglySorted.
    + rewrite sorted_Permutation. apply NoDup_elements.
    + intros x. by rewrite elem_of_list_to_set.
Qed.

(** X5.  The list [setEventListening] returns is in the order of [sorted]
    and holds no event type twice. *)
Theorem setEventListening_sorted (conn : Controller) (events result : list string)
    (listening : gset string) :
  setEventListening conn events = Ok (result, listening) ->
  StronglySorted str_le result /\ NoDup result.
Proof.
  intros Hrun. apply setEventListening_Ok in Hrun as (torEvents & _ & _ & ->). split.
  - apply sorted_StronglySorted.
  - rewrite sorted_Permutation. apply NoDup_elements.
Qed.

(** X6.  [setEventListening] returns what was set: the event types the
    controller now reports to the panel, each of which it accepted, and the
    events of arm's own log that were asked for, which need no controller.
    Every event type of tor that was asked for and accepted is among them,
    [ERROR] and [WARNING] under the names [ERR] and [WARN]; a type arm has no
    flag for is only there when [UNKNOWN] was asked for. *)
Theorem setEventListening_returns_what_is_set (conn : Controller) (events result : list string)
    (listening : gset string) :
  setEventListening conn events = Ok (result, listening) ->
  (forall x, x ∈ listening -> x ∈ result /\ addEventListener_ok conn x = true)
  /\ (forall x, x ∈ result -> x ∈ listening \/ (arm_event x /\ x ∈ events))
  /\ (forall x, arm_event x -> x ∈ events -> x ∈ result)
  /\ (forall x, tor_event x -> asked_for events x -> addEventListener_ok conn x = true ->
                x ∈ listening)
  /\ (forall x, x ∈ listening -> ~ tor_event x -> "UNKNOWN" ∈ events).
Proof.
  intros Hrun. destruct (setEventListening_elem _ _ _ _ Hrun) as (Hres & Hlis & _).
  split; [|split; [|split; [|split]]].
  - intros x Hx. split; [apply Hres; by left|]. by apply Hlis in Hx as [? _].
  - intros x Hx. by apply Hres.
  - intros x Ha Hx. apply Hres. right. by split.
  - intros x Ht Ha Hok. apply Hlis. split; [done|]. left. by split.
  - intros x Hx Hnt. apply Hlis in Hx as [_ [[Ht _]|[HU _]]]; [contradiction|done].
Qed.

Lemma getMissingEventTypes_None (conn : Controller) :
  getMissingEventTypes conn = None <->
  getInfo_events_names conn = None \/ getInfo_events_names conn = Some "".
Proof.
  unfold getMissingEventTypes. destruct (getInfo_events_names conn) as [[|c s]|].
  - split; [by right|done].
  - split; [discriminate|]. intros [?|?]; discriminate.
  - split; [by left|done].
Qed.

Lemma setEventListening_without_UNKNOWN (conn : Controller) (events : list string) :
  "UNKNOWN" ∉ events ->
  exists result listening, setEventListening conn events = Ok (result, listening).
Proof.
  intros Hno. pose proof (elem_of_asked events "UNKNOWN") as HU. cbv zeta in HU.
  rewrite asked_for_UNKNOWN in HU. unfold setEventListening.
  match type of HU with ?x ∈ ?A <-> _ => set (asked := A) in * end.
  rewrite bool_decide_eq_false_2 by (by rewrite HU). cbn [mbind res_bind]. eauto.
Qed.

(** X7.  The only exception of [setEventListening] is the [TypeError] of
    [set(None)]: it is raised exactly when [UNKNOWN] is asked for and the
    [GETINFO events/names] query gives nothing. *)
Theorem setEventListening_raises (conn : Controller) (events : list string) :
  let failed := getInfo_events_names conn = None \/ getInfo_events_names conn = Some "" in
  (forall e, setEventListening conn events = Raise e <->
             e = TypeError /\ "UNKNOWN" ∈ events /\ failed)
  /\ ((exists result listening, setEventListening conn events = Ok (result, listening)) <->
      ~ ("UNKNOWN" ∈ events /\ failed)).
Proof.
  intros failed. unfold failed. pose proof (getMissingEventTypes_None conn) as HN.
  pose proof (elem_of_asked events "UNKNOWN") as HU. cbv zeta in HU.
  rewrite asked_for_UNKNOWN in HU. unfold setEventListening.
  match type of HU with ?x ∈ ?A <-> _ => set (asked := A) in * end.
  destruct (bool_decide ("UNKNOWN" ∈ asked)) eqn:Hb;
    [apply bool_decide_eq_true in Hb|apply bool_decide_eq_false in Hb]; rewrite HU in Hb.
  - destruct (getMissingEventTypes conn) as [missing|]; cbn [mbind res_bind].
    + assert (Hno : ~ (getInfo_events_names conn = None \/ getInfo_events_names conn = Some ""))
        by (intros H; by apply HN in H).
      split.
      * intros e. split; [discriminate|]. intros (_ & _ & H). contradiction.
      * split; [intros _ [_ H]; contradiction|]. intros _. eauto.
    + assert (Hyes : getInfo_events_names conn = None \/ getInfo_events_names conn = Some "")
        by by apply HN.
      split.
      * intros e. split; [intros [= <-]; by repeat split|]. by intros (-> & _).
      * split; [intros (? & ? & [=])|]. intros H. exfalso. apply H. by split.
  - cbn [mbind res_bind]. split.
    + intros e. split; [discriminate|]. intros (_ & ? & _). contradiction.
    + split; [intros _ [? _]; contradiction|]. intros _. eauto.
Qed.

(** X8.  When [UNKNOWN] is not asked for, what [setEventListening] returns
    is a fixed point: called with its own result it sets and returns the
    same. *)
Theorem setEventListening_again (conn : Controller) (events result : list string)
    (listening : gset string) :
  "UNKNOWN" ∉ events ->
  setEventListening conn events = Ok (result, listening) ->
  setEventListening conn result = Ok (result, listening).
Proof.
  intros HU Hrun. destruct (setEventListening_elem _ _ _ _ Hrun) as (Hres & Hlis & Hsorted).
  pose proof tor_values_not_arm as Htor. rewrite Forall_forall in Htor.
  assert (Hlt : forall x, x ∈ listening -> tor_event x).
  { intros x Hx. apply Hlis in Hx as [_ [[Ht _]|[? _]]]; [done|contradiction]. }
  assert (Hplain : forall x, x ∈ result -> x <> "ERROR" /\ x <> "WARNING" /\ x <> "UNKNOWN").
  { intros x Hx. apply Hres in Hx as [Hx|[(r & _ & ->) _]].
    - apply Hlt, Htor in Hx as (_ & ? & ? & ?). done.
    - repeat split; discriminate. }
  assert (HU' : "UNKNOWN" ∉ result) by (intros H; by apply Hplain in H as (_ & _ & ?)).
  destruct (setEventListening_without_UNKNOWN conn result HU')
    as (result' & listening' & Hrun').
  rewrite Hrun'. destruct (setEventListening_elem _ _ _ _ Hrun') as (Hres' & Hlis' & Hsorted').
  assert (Hasked : forall x, asked_for result x <-> x ∈ result).
  { intros x. unfold asked_for. split.
    - intros [(H & _)|[[_ H]|[_ H]]]; [done|by apply Hplain in H as (? & ? & ?)..].
    - intros H. left. split; [done|]. by apply Hplain in H as (? & ? & ?). }
  assert (Hl : listening' = listening).
  { apply set_eq. intros x. rewrite Hlis'. split.
    - intros [Hok' [[Ht Ha]|[? _]]]; [|contradiction].
      apply Hasked, Hres in Ha as [?|[Ha _]]; [done|]. by apply tor_event_not_arm in Ht.
    - intros Hx. pose proof (Hlt _ Hx) as Ht. apply Hlis in Hx as Hx'. destruct Hx' as [Hok' _].
      split; [done|]. left. split; [done|]. apply Hasked, Hres. by left. }
  subst listening'. f_equal. f_equal.
  rewrite Hsorted, Hsorted'. f_equal. f_equal. apply set_eq. intros x.
  rewrite !elem_of_list_to_set, Hres', Hres. split.
  - intros [?|[Ha [?|[_ Hx]]]]; [by left..|]. right. by split.
  - intros [?|[Ha Hx]]; [by left|]. right. split; [done|]. right. by split.
Qed.

(** ** Days *)

Ltac day_constants :=
  unfold Qdiv in *; change (inject_Z 86400) with (86400 # 1)%Q in *;
  change (/ (86400 # 1))%Q with (1 # 86400)%Q in *.

Lemma inject_Z_sub (a b : Z) : (inject_Z a - inject_Z b == inject_Z (a - b))%Q.
Proof. unfold Qminus, Z.sub. by rewrite inject_Z_plus, inject_Z_opp. Qed.

Lemma Qtrunc_nonneg (q : Q) : (0 <= q)%Q -> Qtrunc q = Qfloor q.
Proof.
  intros Hq. unfold Qtrunc. destruct (Qlt_le_dec q 0) as [Hlt|_]; [|reflexivity].
  exfalso. by apply (Qlt_not_le _ _ Hlt).
Qed.

Lemma Qtrunc_le (q1 q2 : Q) : (q1 <= q2)%Q -> Qtrunc q1 <= Qtrunc q2.
Proof.
  intros Hle. unfold Qtrunc.
  destruct (Qlt_le_dec q1 0) as [H1|H1], (Qlt_le_dec q2 0) as [H2|H2].
  - by apply Qceiling_resp_le.
  - transitivity 0.
    + change 0 with (Qceiling 0). apply Qceiling_resp_le. by apply Qlt_le_weak.
    + change 0 with (Qfloor 0). by apply Qfloor_resp_le.
  - exfalso. apply (Qlt_not_le _ _ H2). by apply (Qle_trans _ q1).
  - by apply Qfloor_resp_le.
Qed.

(** X9.  A later time stamp is never of an earlier day. *)
Theorem daysSince_monotone :
  (forall z1 z2 : Z, z1 <= z2 -> daysSince (PyInt z1) <= daysSince (PyInt z2))
  /\ (forall q1 q2 : Q, (q1 <= q2)%Q -> daysSince (PyFloat q1) <= daysSince (PyFloat q2)).
Proof.
  split.
  - intros z1 z2 Hle. cbn [daysSince]. apply Z.div_le_mono; lia.
  - intros q1 q2 Hle. cbn [daysSince]. apply Qtrunc_le. day_constants. lra.
Qed.

(** X10.  [daysSince] counts the days of local time since the epoch.  An
    [int] is always rounded down.  A [float] is rounded toward zero: from the
    local epoch on this is rounding down and agrees with the [int], but in
    the day before the local epoch a [float] is of day 0 where the [int] is
    of day -1. *)
Theorem daysSince_rounding :
  (forall z : Z,
     let day := daysSince (PyInt z) in
     day * 86400 <= z - TIMEZONE_OFFSET < (day + 1) * 86400)
  /\ (forall q : Q,
        (inject_Z TIMEZONE_OFFSET <= q)%Q ->
        let day := daysSince (PyFloat q) in
        (inject_Z (day * 86400) <= q - inject_Z TIMEZONE_OFFSET < inject_Z ((day + 1) * 86400))%Q)
  /\ (forall z : Z,
        TIMEZONE_OFFSET <= z -> daysSince (PyFloat (inject_Z z)) = daysSince (PyInt z))
  /\ (forall z : Z,
        TIMEZONE_OFFSET - 86400 < z < TIMEZONE_OFFSET ->
        daysSince (PyInt z) = -1 /\ daysSince (PyFloat (inject_Z z)) = 0).
Proof.
  split; [|split; [|split]].
  - intros z day. unfold day. cbn [daysSince].
    pose proof (Z.div_mod (z - TIMEZONE_OFFSET) 86400 ltac:(lia)).
    pose proof (Z.mod_pos_bound (z - TIMEZONE_OFFSET) 86400 ltac:(lia)). lia.
  - intros q Hq day. unfold day. cbn [daysSince].
    set (x := ((q - inject_Z TIMEZONE_OFFSET) / inject_Z 86400)%Q).
    assert (0 <= x)%Q as Hx by (unfold x; day_constants; lra).
    rewrite (Qtrunc_nonneg x Hx).
    pose proof (Qfloor_le x) as Hlo. pose proof (Qlt_floor x) as Hhi.
    rewrite !inject_Z_mult. rewrite inject_Z_plus in *.
    unfold x in *. day_constants. change (inject_Z 1) with 1%Q in *. split; lra.
  - intros z Hz. cbn [daysSince].
    assert ((inject_Z z - inject_Z TIMEZONE_OFFSET) / inject_Z 86400
            == inject_Z (z - TIMEZONE_OFFSET) / inject_Z 86400)%Q as Heq.
    { by rewrite inject_Z_sub. }
    rewrite Qtrunc_nonneg.
    + rewrite (Qfloor_comp _ _ Heq). symmetry. apply Zdiv_Qdiv.
    + assert (inject_Z 0 <= inject_Z z - inject_Z TIMEZONE_OFFSET)%Q as H0.
      { rewrite inject_Z_sub, <- Zle_Qle. lia. }
      change (inject_Z 0) with 0%Q in H0. day_constants. lra.
  - intros z Hz. cbn [daysSince]. split.
    + symmetry. apply (Z.div_unique_pos _ _ _ (z - TIMEZONE_OFFSET + 86400)); lia.
    + assert (inject_Z z - inject_Z TIMEZONE_OFFSET < 0)%Q as Hhi.
      { rewrite inject_Z_sub. change 0%Q with (inject_Z 0). rewrite <- Zlt_Qlt. lia. }
      assert (inject_Z (- 86400) < inject_Z z - inject_Z TIMEZONE_OFFSET)%Q as Hlo.
      { rewrite inject_Z_sub, <- Zlt_Qlt. lia. }
      change (inject_Z (-86400)) with (- (86400 # 1))%Q in Hlo.
      set (x := ((inject_Z z - inject_Z TIMEZONE_OFFSET) / inject_Z 86400)%Q).
      assert (- 1 < x /\ x < 0)%Q as [Hx1 Hx2] by (unfold x; day_constants; split; lra).
      unfold Qtrunc. destruct (Qlt_le_dec x 0) as [_|Hpos];
        [|exfalso; by apply (Qlt_not_le _ _ Hx2)].
      apply Z.le_antisymm.
      * change 0 with (Qceiling 0). apply Qceiling_resp_le. by apply Qlt_le_weak.
      * pose proof (Qle_ceiling x) as Hc.
        assert (inject_Z (-1) < inject_Z (Qceiling x))%Q as Hc'
          by (eapply Qlt_le_trans; [exact Hx1|exact Hc]).
        rewrite <- Zlt_Qlt in Hc'. lia.
Qed.

(** ** More on day boundaries *)




(** ** More on duplicates *)

Lemma inserted_filter_kept (f : ref -> bool) l k :
  inserted (fun x => f x = false) l k ->
  filter (fun x => f x = true) k = filter (fun x => f x = true) l.
Proof.
  induction 1 as [|x l k _ IH|m l k Hm _ IH]; [reflexivity| |].
  - rewrite !filter_cons. destruct (decide (f x = true)); by rewrite IH.
  - rewrite filter_cons. destruct (decide (f m = true)) as [Ht|_]; [congruence|exact IH].
Qed.

(** The duplicates of an entry are never DAYBREAK entries, and a DAYBREAK
    entry has none. *)
Lemma good_index_not_daybreak st event full j :
  good_index st event full j ->
  is_daybreak st event = false
  /\ exists f, full !! j = Some f /\ is_daybreak st f = false.
Proof.
  intros (f & Hf & Hty & Hall).
  assert (is_daybreak st f = false) as Hnd.
  { rewrite Forall_forall in Hall. apply Hall.
    apply (list_elem_of_lookup_2 _ j). rewrite lookup_take_lt by lia. exact Hf. }
  split; [|eauto]. unfold is_daybreak in *. by rewrite <- Hty.
Qed.

(** What the loop of [getDuplicates] emits: entries of its input in their
    order, the first of them first, and every DAYBREAK entry, with no
    duplicate counted for it. *)
Lemma dedup_loop_entries common st startTime clock :
  forall n eventsRemaining k returnEvents out,
    length eventsRemaining = n ->
    dedup_loop common st startTime clock k eventsRemaining returnEvents = Ok (Some out) ->
    exists new,
      out = returnEvents ++ new
      /\ new.*1 `sublist_of` eventsRemaining
      /\ head (new.*1) = head eventsRemaining
      /\ filter (fun x => is_daybreak st x = true) (new.*1)
         = filter (fun x => is_daybreak st x = true) eventsRemaining
      /\ Forall (fun p => is_daybreak st p.1 = true -> p.2 = 0%nat) new.
Proof.
  induction n as [n IH] using lt_wf_ind.
  intros [|entry rest] k acc out Hn Hrun.
  - simp dedup_loop in Hrun. injection Hrun as <-. exists []. rewrite app_nil_r.
    repeat split; constructor.
  - rewrite dedup_loop_cons in Hrun.
    destruct (isDuplicate common st entry rest true) as [r|e] eqn:Hdup; [|discriminate Hrun].
    destruct (timed_out startTime (clock k)); [discriminate Hrun|].
    destruct (isDuplicate_indices _ _ _ _ _ Hdup) as [Hsorted Hgood].
    destruct (del_indices_inserted (fun x => is_daybreak st x = false) (indices_of r) rest
                Hsorted) as [Hins Hlen].
    { eapply Forall_impl; [exact Hgood|]. intros j Hj.
      by apply good_index_not_daybreak in Hj as [_ ?]. }
    simpl in Hn.
    apply (IH (length (del_indices (reverse (indices_of r)) rest)) ltac:(lia) _ _ _ _ eq_refl)
      in Hrun as (new & -> & Hsub & _ & Hday & Hzero).
    exists ((entry, length (indices_of r)) :: new). split; [by rewrite <- app_assoc|].
    cbn [fmap list_fmap fst head]. split; [|split; [reflexivity|split]].
    + apply sublist_skip. etransitivity; [exact Hsub|]. by eapply inserted_sublist.
    + rewrite !filter_cons. rewrite Hday, (inserted_filter_kept _ _ _ Hins). reflexivity.
    + constructor; [|exact Hzero]. cbn [fst snd]. intros Hentry.
      destruct (indices_of r) as [|j idxs]; [reflexivity|].
      inversion Hgood as [|? ? Hj _]; subst.
      apply good_index_not_daybreak in Hj as [Hno _]. congruence.
Qed.

(** X13.  What a call that goes through the loop returns holds entries of
    the input in the order of the input, beginning with its first entry. *)
Theorem getDuplicates_entries_in_order (startTime : Q) (clock : nat -> Q) (events : nat)
    (g : Globals) (result : nat) (g' : Globals) :
  duplicates_not_cached g events ->
  getDuplicates startTime clock events g = (Ok (Some result), g') ->
  (dup_read g' result).*1 `sublist_of` ev_read g events
  /\ head ((dup_read g' result).*1) = head (ev_read g events).
Proof.
  intros Hmiss Hrun.
  destruct (getDuplicates_spec startTime clock events g)
    as [(cargs & cres & Hc & Hargs & _) | Hspec]; [exfalso; exact (Hmiss _ _ Hc Hargs)|].
  cbv zeta in Hspec. rewrite Hspec in Hrun.
  destruct (dedup_loop _ _ _ _ _ _ _) as [[out|]|e] eqn:Hloop; [|discriminate Hrun..].
  injection Hrun as <- <-. rewrite dup_read_first.
  apply (dedup_loop_entries _ _ _ _ _ _ _ _ _ eq_refl) in Hloop
    as (new & -> & Hsub & Hhead & _). by split.
Qed.

(** X14.  A DAYBREAK entry is never folded into another entry and never
    stands for one: what a call that goes through the loop returns holds
    every DAYBREAK entry of the input, in its order and with the count 0. *)
Theorem getDuplicates_keeps_daybreaks (startTime : Q) (clock : nat -> Q) (events : nat)
    (g : Globals) (result : nat) (g' : Globals) :
  duplicates_not_cached g events ->
  getDuplicates startTime clock events g = (Ok (Some result), g') ->
  filter (fun x => is_daybreak (store g') x = true) ((dup_read g' result).*1)
  = filter (fun x => is_daybreak (store g') x = true) (ev_read g events)
  /\ Forall (fun p => is_daybreak (store g') p.1 = true -> p.2 = 0%nat) (dup_read g' result).
Proof.
  intros Hmiss Hrun.
  destruct (getDuplicates_spec startTime clock events g)
    as [(cargs & cres & Hc & Hargs & _) | Hspec]; [exfalso; exact (Hmiss _ _ Hc Hargs)|].
  cbv zeta in Hspec. rewrite Hspec in Hrun.
  destruct (dedup_loop _ _ _ _ _ _ _) as [[out|]|e] eqn:Hloop; [|discriminate Hrun..].
  injection Hrun as <- <-. rewrite dup_read_first. cbn [store].
  apply (dedup_loop_entries _ _ _ _ _ _ _ _ _ eq_refl) in Hloop
    as (new & -> & _ & _ & Hday & Hzero). by split.
Qed.

Lemma isDuplicate_loop_all_equal common st event :
  is_daybreak st event = false ->
  forall eventSet i acc,
    Forall (fun f => type (objs st f) = type (objs st event)
                     /\ msg (objs st f) = msg (objs st event)) eventSet ->
    isDuplicate_loop common st event eventSet true i acc
    = Ok (DupIndices (acc ++ seq i (length eventSet))).
Proof.
  intros Hevent. induction eventSet as [|f es IH]; intros i acc Hall; cbn [isDuplicate_loop].
  - by rewrite app_nil_r.
  - inversion Hall as [|? ? [Hty Hmsg] Hrest]; subst.
    unfold is_daybreak in Hevent. rewrite Hty, Hevent.
    rewrite (proj2 (String.eqb_eq _ _) eq_refl).
    unfold sameMessage. rewrite Hmsg, (proj2 (String.eqb_eq _ _) eq_refl).
    cbn [mbind res_bind]. rewrite IH by exact Hrest.
    cbn [length seq]. by rewrite <- app_assoc.
Qed.

Lemma del_indices_all {A} (l : list A) : del_indices (reverse (seq 0 (length l))) l = [].
Proof.
  induction l as [|x l IH] using rev_ind; [reflexivity|].
  rewrite length_app. cbn [length]. rewrite Nat.add_1_r, seq_S, reverse_snoc.
  cbn [Nat.add]. unfold del_indices. cbn [fold_left].
  replace (delete (length l) (l ++ [x])) with l; [exact IH|].
  rewrite delete_middle. by rewrite app_nil_r.
Qed.

(** X15.  A run of entries of one category with one message, the first of
    them in front, comes back as that first entry with the count of the
    others, whatever the common messages are, if the clock has not run out
    at its first reading. *)
Theorem getDuplicates_equal_messages (startTime : Q) (clock : nat -> Q) (events : nat)
    (g : Globals) (e : ref) (rest : list ref) :
  duplicates_not_cached g events ->
  ev_read g events = e :: rest ->
  is_daybreak (store g) e = false ->
  Forall (fun f => type (objs (store g) f) = type (objs (store g) e)
                   /\ msg (objs (store g) f) = msg (objs (store g) e)) rest ->
  timed_out startTime (clock 0%nat) = false ->
  exists result g',
    getDuplicates startTime clock events g = (Ok (Some result), g')
    /\ dup_read g' result = [(e, length rest)].
Proof.
  intros Hmiss HE Hday Hall Hclock.
  destruct (getDuplicates_spec startTime clock events g)
    as [(cargs & cres & Hc & Hargs & _) | Hspec]; [exfalso; exact (Hmiss _ _ Hc Hargs)|].
  cbv zeta in Hspec. rewrite Hspec, HE, dedup_loop_cons.
  unfold isDuplicate. rewrite (isDuplicate_loop_all_equal _ _ _ Hday rest 0 [] Hall).
  rewrite Hclock. cbn [indices_of app]. rewrite del_indices_all, length_seq.
  simp dedup_loop. eexists _, _. split; [reflexivity|]. by rewrite dup_read_first.
Qed.

(** X16.  [getDuplicates] gives up only when the clock has run out: with a
    clock that stays within [DEDUPLICATION_TIMEOUT] it never returns [None];
    and a call that goes through the loop with the clock run out at its
    first reading returns [None] for a list that is not empty, unless the
    scan of the first entry raised. *)
Theorem getDuplicates_deadline (startTime : Q) (clock : nat -> Q) (events : nat)
    (g : Globals) :
  ((forall k, timed_out startTime (clock k) = false) ->
   (getDuplicates startTime clock events g).1 <> Ok None)
  /\ (duplicates_not_cached g events -> ev_read g events <> [] ->
      timed_out startTime (clock 0%nat) = true ->
      (getDuplicates startTime clock events g).1 = Ok None
      \/ (getDuplicates startTime clock events g).1 = Raise IndexError).
Proof.
  destruct (getDuplicates_spec startTime clock events g)
    as [(cargs & cres & Hc & Hargs & ->) | Hspec].
  - split; [intros _; discriminate|]. intros Hmiss. exfalso. exact (Hmiss _ _ Hc Hargs).
  - cbv zeta in Hspec. rewrite Hspec. split.
    + intros Hclock.
      destruct (dedup_loop _ _ _ _ _ _ _) as [[out|]|e] eqn:Hloop; cbn [fst]; [discriminate| |discriminate].
      apply (dedup_loop_timeout _ _ _ _ _ _ _ _ eq_refl) in Hloop as [k Hk].
      rewrite Hclock in Hk. discriminate Hk.
    + intros _ HE Hclock. destruct (ev_read g events) as [|e rest]; [contradiction|].
      rewrite dedup_loop_cons.
      destruct (isDuplicate _ _ _ _ _) as [r|err] eqn:Hdup.
      * rewrite Hclock. by left.
      * right. cbn [fst]. f_equal.
        by apply isDuplicate_loop_raise in Hdup as [-> _].
Qed.

(** ** More on isDuplicate *)

Lemma commonMatch_sym (m1 m2 : string) (commonMsgs : list string) :
  commonMatch m1 m2 commonMsgs = commonMatch m2 m1 commonMsgs.
Proof.
  induction commonMsgs as [|[|c0 rest] l IH]; cbn [commonMatch]; [reflexivity..|].
  rewrite (andb_comm (Py.contains m1 rest)), (andb_comm (Py.startswith m1 (String c0 rest))).
  by rewrite IH.
Qed.

(** X17.  The test of two entries of one category is symmetric, and an entry
    is a duplicate of any entry with its message, whatever the common
    messages are. *)
Theorem sameMessage_symmetric (common : option (dict (list string))) (a b : LogEntry) :
  (type a = type b -> sameMessage common a b = sameMessage common b a)
  /\ (msg a = msg b -> sameMessage common a b = Ok true).
Proof.
  unfold sameMessage. split.
  - intros Hty. rewrite (String.eqb_sym (msg b)), Hty.
    destruct (String.eqb (msg a) (msg b)); [reflexivity|].
    destruct common as [d|]; [|reflexivity].
    destruct (dict_get d (type b)); [apply commonMatch_sym|reflexivity].
  - intros ->. by rewrite (proj2 (String.eqb_eq _ _) eq_refl).
Qed.

(** The two ways of calling [isDuplicate] agree, wherever the loop starts. *)
Lemma isDuplicate_loop_modes common st event :
  forall eventSet i acc r,
    isDuplicate_loop common st event eventSet true i acc = Ok r ->
    exists found,
      indices_of r = acc ++ found
      /\ forall i' acc',
           isDuplicate_loop common st event eventSet false i' acc'
           = Ok (DupBool (negb (bool_decide (found = [])))).
Proof.
  induction eventSet as [|f es IH]; intros i acc r Hr; cbn [isDuplicate_loop] in *.
  - injection Hr as <-. exists []. split; [by rewrite app_nil_r|reflexivity].
  - destruct (String.eqb (type (objs st f)) DAYBREAK_EVENT).
    { injection Hr as <-. exists []. split; [by rewrite app_nil_r|reflexivity]. }
    destruct (String.eqb (type (objs st event)) (type (objs st f))).
    + destruct (sameMessage common (objs st event) (objs st f)) as [[|]|e];
        cbn [mbind res_bind] in *; [| |discriminate Hr].
      * apply IH in Hr as (found & Hidx & _). exists (i :: found).
        split; [by rewrite Hidx, <- app_assoc|]. reflexivity.
      * apply IH in Hr as (found & Hidx & Hbool). exists found. split; [exact Hidx|].
        intros i' acc'. apply Hbool.
    + apply IH in Hr as (found & Hidx & Hbool). exists found. split; [exact Hidx|].
      intros i' acc'. apply Hbool.
Qed.

(** X18.  Without its [getDuplicates] flag [isDuplicate] tells whether the
    list of indices it returns with the flag is not empty. *)
Theorem isDuplicate_modes_agree (common : option (dict (list string))) (st : Store)
    (event : ref) (eventSet : list ref) (duplicateIndices : list nat) :
  isDuplicate common st event eventSet true = Ok (DupIndices duplicateIndices) ->
  isDuplicate common st event eventSet false
  = Ok (DupBool (negb (bool_decide (duplicateIndices = [])))).
Proof.
  intros Hr. apply isDuplicate_loop_modes in Hr as (found & Hidx & Hbool).
  cbn [indices_of app] in Hidx. subst found. apply Hbool.
Qed.

(** The indices the loop adds are exactly those of the entries in front of
    the first DAYBREAK entry that have the category of the event and pass
    the test of the messages. *)
Lemma isDuplicate_loop_complete common st event :
  forall eventSet i acc r,
    isDuplicate_loop common st event eventSet true i acc = Ok r ->
    exists found,
      indices_of r = acc ++ found
      /\ forall j,
           j ∈ found <->
           exists k f, j = (i + k)%nat /\ eventSet !! k = Some f
             /\ Forall (fun x => is_daybreak st x = false) (take (S k) eventSet)
             /\ type (objs st f) = type (objs st event)
             /\ sameMessage common (objs st event) (objs st f) = Ok true.
Proof.
  induction eventSet as [|f es IH]; intros i acc r Hr; cbn [isDuplicate_loop] in *.
  - injection Hr as <-. exists []. split; [by rewrite app_nil_r|].
    intros j. split; [intros Hj; by apply elem_of_nil in Hj|].
    intros (k & f & _ & Hk & _). discriminate Hk.
  - destruct (String.eqb (type (objs st f)) DAYBREAK_EVENT) eqn:Hday.
    { injection Hr as <-. exists []. split; [by rewrite app_nil_r|].
      intros j. split; [intros Hj; by apply elem_of_nil in Hj|].
      intros (k & f' & _ & _ & Hall & _). cbn [take] in Hall.
      inversion Hall as [|? ? Hf _]; subst. unfold is_daybreak in Hf. congruence. }
    assert (Hshift : forall found : list nat,
      (forall j, j ∈ found <->
         exists k f', j = (S i + k)%nat /\ es !! k = Some f'
           /\ Forall (fun x => is_daybreak st x = false) (take (S k) es)
           /\ type (objs st f') = type (objs st event)
           /\ sameMessage common (objs st event) (objs st f') = Ok true) ->
      forall j, j ∈ found <->
         exists k f', j = (i + k)%nat /\ (f :: es) !! k = Some f' /\ k <> 0%nat
           /\ Forall (fun x => is_daybreak st x = false) (take (S k) (f :: es))
           /\ type (objs st f') = type (objs st event)
           /\ sameMessage common (objs st event) (objs st f') = Ok true).
    { intros found Hfound j. rewrite Hfound. split.
      - intros (k & f' & -> & Hk & Hall & Hty & Hsame). exists (S k), f'.
        split; [lia|]. split; [exact Hk|]. split; [lia|]. split; [|by split].
        cbn [take]. constructor; [exact Hday|exact Hall].
      - intros (k & f' & -> & Hk & Hk0 & Hall & Hty & Hsame).
        destruct k as [|k]; [contradiction|]. exists k, f'.
        split; [lia|]. split; [exact Hk|]. split; [|by split].
        cbn [take] in Hall. by inversion Hall. }
    destruct (String.eqb (type (objs st event)) (type (objs st f))) eqn:Hty.
    + apply String.eqb_eq in Hty.
      destruct (sameMessage common (objs st event) (objs st f)) as [[|]|e] eqn:Hsame;
        cbn [mbind res_bind] in *; [| |discriminate Hr].
      * apply IH in Hr as (found & Hidx & Hfound). exists (i :: found).
        split; [by rewrite Hidx, <- app_assoc|].
        intros j. rewrite elem_of_cons, (Hshift found Hfound j). split.
        -- intros [->|(k & f' & Hj & Hk & _ & Hrest)].
           ++ exists 0%nat, f. split; [lia|]. split; [reflexivity|].
              split; [cbn [take]; by repeat constructor|]. by split.
           ++ by exists k, f'.
        -- intros (k & f' & -> & Hk & Hrest). destruct k as [|k]; [left; lia|right].
           exists (S k), f'. split; [reflexivity|]. split; [exact Hk|]. split; [lia|exact Hrest].
      * apply IH in Hr as (found & Hidx & Hfound). exists found. split; [exact Hidx|].
        intros j. rewrite (Hshift found Hfound j). split.
        -- intros (k & f' & Hj & Hk & _ & Hrest). by exists k, f'.
        -- intros (k & f' & -> & Hk & Hall & Hty' & Hsame').
           destruct k as [|k]; [injection Hk as <-; congruence|].
           exists (S k), f'. split; [reflexivity|]. split; [exact Hk|]. split; [lia|]. by split.
    + apply IH in Hr as (found & Hidx & Hfound). exists found. split; [exact Hidx|].
      intros j. rewrite (Hshift found Hfound j). split.
      * intros (k & f' & Hj & Hk & _ & Hrest). by exists k, f'.
      * intros (k & f' & -> & Hk & Hall & Hty' & Hsame').
        destruct k as [|k].
        { injection Hk as <-. apply String.eqb_neq in Hty. congruence. }
        exists (S k), f'. split; [reflexivity|]. split; [exact Hk|]. split; [lia|]. by split.
Qed.

(** X19.  With its [getDuplicates] flag [isDuplicate] returns, in increasing
    order, the indices of exactly those entries that stand in front of the
    first DAYBREAK entry, have the category of the event and pass the test
    of the messages. *)
Theorem isDuplicate_indices_exact (common : option (dict (list string))) (st : Store)
    (event : ref) (eventSet : list ref) (duplicateIndices : list nat) :
  isDuplicate common st event eventSet true = Ok (DupIndices duplicateIndices) ->
  StronglySorted lt duplicateIndices
  /\ forall j,
       j ∈ duplicateIndices <->
       exists f, eventSet !! j = Some f
         /\ Forall (fun x => is_daybreak st x = false) (take (S j) eventSet)
         /\ type (objs st f) = type (objs st event)
         /\ sameMessage common (objs st event) (objs st f) = Ok true.
Proof.
  intros Hr. split; [by apply isDuplicate_indices in Hr as [? _]|].
  apply isDuplicate_loop_complete in Hr as (found & Hidx & Hfound).
  cbn [indices_of app] in Hidx. subst found. intros j. rewrite Hfound. split.
  - intros (k & f & -> & Hrest). by exists f.
  - intros (f & Hrest). by exists j, f.
Qed.

(** ** The log after an event and after a repopulation *)

(** What [_trimEvents] keeps is a prefix within the capacity, and it keeps
    the first entry unless that entry is older than the duration. *)
Lemma trimEvents_kept (st : Store) (now : Q) (eventListing : list ref) :
  let kept := _trimEvents st now eventListing in
  let logTTL := CONFIG "features.log.entryDuration" in
  kept `prefix_of` eventListing
  /\ Z.of_nat (length kept) <= CONFIG "cache.logPanel.size"
  /\ (forall e rest,
        eventListing = e :: rest ->
        logTTL <= 0 \/ daysSinceEvent st now e <= logTTL ->
        head kept = Some e).
Proof.
  intros kept logTTL. set (cacheSize := CONFIG "cache.logPanel.size").
  set (capped := take (Z.to_nat cacheSize) eventListing).
  pose proof CONFIG_cache_size as Hsize. fold cacheSize in Hsize.
  assert (Hcap : (if Z.of_nat (length eventListing) >? cacheSize
                  then take (Z.to_nat cacheSize) eventListing else eventListing) = capped).
  { unfold capped. destruct (Z.of_nat (length eventListing) >? cacheSize) eqn:E; [reflexivity|].
    rewrite take_ge; [reflexivity|lia]. }
  assert (Hlen : Z.of_nat (length capped) <= cacheSize).
  { unfold capped. rewrite length_take. lia. }
  assert (Hpre : capped `prefix_of` eventListing) by apply prefix_take.
  assert (Hhead : forall e rest, eventListing = e :: rest -> head capped = Some e).
  { intros e rest ->. unfold capped. destruct (Z.to_nat cacheSize) eqn:E; [lia|reflexivity]. }
  assert (Hkept : kept = if logTTL >? 0
                         then crop_at (trim_breakpoint st (daysSince_now now) logTTL
                                         (reverse capped) (length capped - 1) None) capped
                         else capped).
  { unfold kept, _trimEvents. fold cacheSize logTTL. rewrite Hcap.
    destruct (logTTL >? 0); [|reflexivity].
    destruct (trim_breakpoint _ _ _ _ _ _); reflexivity. }
  destruct (logTTL >? 0) eqn:Httl.
  - destruct (trim_breakpoint_spec st now logTTL capped None)
      as [[Hr _] | (b & Hr & Hb & Hdrop & _)];
      cbv zeta in Hr; rewrite Hr in Hkept; simpl in Hkept; rewrite Hkept.
    + split; [exact Hpre|]. split; [exact Hlen|]. intros e rest He _. by eapply Hhead.
    + split; [etransitivity; [apply prefix_take|exact Hpre]|].
      split; [rewrite length_take; lia|].
      intros e rest He Hyoung. specialize (Hhead e rest He).
      destruct capped as [|c capped']; [discriminate Hhead|]. injection Hhead as ->.
      destruct b as [|b]; [|reflexivity].
      exfalso. cbn [drop] in Hdrop. inversion Hdrop as [|? ? Hold _]; subst. lia.
  - rewrite Hkept. split; [exact Hpre|]. split; [exact Hlen|].
    intros e rest He _. by eapply Hhead.
Qed.

Lemma trimEvents_store (st st' : Store) (now : Q) (eventListing : list ref) :
  (forall r, timestamp (objs st' r) = timestamp (objs st r)) ->
  _trimEvents st' now eventListing = _trimEvents st now eventListing.
Proof.
  intros Hts. unfold _trimEvents.
  assert (Hbp : forall currentDay logTTL revl i bp,
            trim_breakpoint st' currentDay logTTL revl i bp
            = trim_breakpoint st currentDay logTTL revl i bp).
  { intros currentDay logTTL revl. induction revl as [|e revl IH]; intros i bp; [reflexivity|].
    cbn [trim_breakpoint]. rewrite Hts, IH. reflexivity. }
  by rewrite Hbp.
Qed.

(** X20.  An event of a type that is not logged changes nothing.  An event
    of a logged type is put in front of the log, which stays a prefix of
    what it then is and within the capacity; the event itself stays unless
    it is older than the duration; its message is made printable, and no
    other object changes. *)
Theorem registerEvent_log (self : Panel) (st : Store) (event : ref) (now : Q) :
  let '(self', st', notified) := registerEvent self st event now in
  let logTTL := CONFIG "features.log.entryDuration" in
  (type (objs st event) ∉ loggedEvents self -> self' = self /\ st' = st /\ notified = false)
  /\ (type (objs st event) ∈ loggedEvents self ->
      msgLog self' `prefix_of` event :: msgLog self
      /\ Z.of_nat (length (msgLog self')) <= CONFIG "cache.logPanel.size"
      /\ (logTTL <= 0 \/ daysSinceEvent st now event <= logTTL ->
          head (msgLog self') = Some event)
      /\ msg (objs st' event) = getPrintable (msg (objs st event))
      /\ timestamp (objs st' event) = timestamp (objs st event)
      /\ type (objs st' event) = type (objs st event)
      /\ (forall r, r <> event -> objs st' r = objs st r)).
Proof.
  unfold registerEvent. fold (printable_entry (objs st event)).
  set (st1 := store_set st event (printable_entry (objs st event))).
  assert (Hts : forall r, timestamp (objs st1 r) = timestamp (objs st r)).
  { intros r. unfold st1, store_set. cbn [objs]. by destruct (Nat.eqb_spec r event) as [->|]. }
  assert (Hother : forall r, r <> event -> objs st1 r = objs st r).
  { intros r Hr. unfold st1, store_set. cbn [objs]. by destruct (Nat.eqb_spec r event). }
  assert (Hself : objs st1 event = printable_entry (objs st event)) by apply store_set_same.
  destruct (bool_decide (type (objs st event) ∈ loggedEvents self)) eqn:Hin; cbn [negb].
  - apply bool_decide_eq_true in Hin.
    pose proof (trimEvents_kept st1 now (event :: msgLog self)) as (Hpre & Hlen & Hhead).
    assert (Hlog : forall st2 : Store,
              let self1 := set_msgLog self (_trimEvents st1 now (event :: msgLog self)) in
              msgLog self1 `prefix_of` event :: msgLog self
              /\ Z.of_nat (length (msgLog self1)) <= CONFIG "cache.logPanel.size"
              /\ (CONFIG "features.log.entryDuration" <= 0
                  \/ daysSinceEvent st now event <= CONFIG "features.log.entryDuration" ->
                  head (msgLog self1) = Some event)).
    { intros _. cbn [set_msgLog msgLog]. split; [exact Hpre|]. split; [exact Hlen|].
      intros Hyoung. apply (Hhead event (msgLog self) eq_refl).
      unfold daysSinceEvent in *. by rewrite Hts. }
    destruct (regexFilter self) as [search|].
    + unfold getDisplayMessage_at.
      destruct (getDisplayMessage (objs st1 event) false) as [line entry'] eqn:Hdisp.
      assert (Hentry : msg entry' = msg (objs st1 event)
                       /\ timestamp entry' = timestamp (objs st1 event)
                       /\ type entry' = type (objs st1 event)).
      { unfold getDisplayMessage in Hdisp.
        destruct (_displayMessage (objs st1 event)) as [[|c s]|];
          injection Hdisp as _ <-; by repeat split. }
      destruct Hentry as (Hm & Ht & Hty).
      split; [intros Hno; contradiction|]. intros _.
      destruct (Hlog st1) as (H1 & H2 & H3).
      split; [exact H1|]. split; [exact H2|]. split; [exact H3|].
      rewrite store_set_same, Hm, Ht, Hty, Hself.
      split; [reflexivity|]. split; [reflexivity|]. split; [reflexivity|].
      intros r Hr. unfold store_set. cbn [objs].
      destruct (Nat.eqb_spec r event); [contradiction|]. by apply Hother.
    + split; [intros Hno; contradiction|]. intros _.
      destruct (Hlog st1) as (H1 & H2 & H3).
      split; [exact H1|]. split; [exact H2|]. split; [exact H3|].
      rewrite Hself. split; [reflexivity|]. split; [reflexivity|]. split; [reflexivity|].
      exact Hother.
  - apply bool_decide_eq_false in Hin.
    split; [by intros _|]. intros Hyes. contradiction.
Qed.

(** ** More on the backfill *)

(** The entries the scan returns are the objects it makes, one for a line at
    most, of categories among [runlevels]; the objects that were there stay
    as they are. *)
Lemma scanLogLines_new (runlevels : list string) (now : Q) (isdst : Z) (lines : list string) :
  forall st entries st',
    scanLogLines runlevels now isdst lines st = Ok (entries, st') ->
    entries = seq (fresh st) (length entries)
    /\ fresh st' = (fresh st + length entries)%nat
    /\ (length entries <= length lines)%nat
    /\ (forall x, (x < fresh st)%nat -> objs st' x = objs st x)
    /\ Forall (fun r => type (objs st' r) ∈ runlevels) entries.
Proof.
  induction lines as [|line lines IH]; intros st entries st' Hrun; cbn [scanLogLines] in Hrun.
  - injection Hrun as <- <-. cbn [length seq]. repeat split; [lia|lia|constructor].
  - destruct (Nat.ltb (length (Py.split line)) 4).
    { apply IH in Hrun as (H1 & H2 & H3 & H4 & H5). cbn [length]. repeat split; [done..|lia|done|done]. }
    set (eventType := Py.upper (Py.strip_ends (default "" (Py.split line !! 3%nat)))) in *.
    assert (Hadded : forall added st1,
              (added = [] /\ st1 = st)
              \/ (added = [fresh st] /\ fresh st1 = S (fresh st)
                  /\ type (objs st1 (fresh st)) = eventType /\ eventType ∈ runlevels
                  /\ forall x, (x < fresh st)%nat -> objs st1 x = objs st x) ->
              forall more st2,
                scanLogLines runlevels now isdst lines st1 = Ok (more, st2) \/ (more = [] /\ st2 = st1) ->
                (length more <= length lines)%nat ->
                (more = seq (fresh st1) (length more) /\ fresh st2 = (fresh st1 + length more)%nat
                 /\ (forall x, (x < fresh st1)%nat -> objs st2 x = objs st1 x)
                 /\ Forall (fun r => type (objs st2 r) ∈ runlevels) more) ->
                (added ++ more) = seq (fresh st) (length (added ++ more))
                /\ fresh st2 = (fresh st + length (added ++ more))%nat
                /\ (length (added ++ more) <= length (line :: lines))%nat
                /\ (forall x, (x < fresh st)%nat -> objs st2 x = objs st x)
                /\ Forall (fun r => type (objs st2 r) ∈ runlevels) (added ++ more)).
    { intros added st1 [[-> ->]|(-> & Hf & Hty & Hin & Hold)] more st2 _ Hlen (Hm & Hf2 & Hold2 & Hall).
      - cbn [app length]. repeat split; [done|lia|lia|done|done].
      - cbn [app length seq]. rewrite Hf in Hm, Hf2. repeat split.
        + by rewrite <- Hm.
        + lia.
        + lia.
        + intros x Hx. rewrite Hold2 by lia. by apply Hold.
        + constructor; [|exact Hall]. rewrite Hold2 by lia. by rewrite Hty. }
    destruct (bool_decide (eventType ∈ runlevels)) eqn:Hin.
    + apply bool_decide_eq_true in Hin.
      destruct (lineTime now isdst (Py.split line)) as [eventTime|e]; [|discriminate Hrun].
      cbn [mbind res_bind] in Hrun.
      destruct (dict_get RUNLEVEL_EVENT_COLOR eventType) as [colour|]; [|discriminate Hrun].
      pose proof (LogEntry_new_spec st (PyFloat eventTime) eventType
                    (Py.join " " (drop 4 (Py.split line))) colour) as Hnew.
      destruct (LogEntry_new _ _ _ _ _) as [entry st1].
      destruct Hnew as (-> & Hf & Hobj & Hold). cbn [mbind res_bind] in Hrun.
      assert (Hcase : [fresh st] = [fresh st] /\ fresh st1 = S (fresh st)
                      /\ type (objs st1 (fresh st)) = eventType /\ eventType ∈ runlevels
                      /\ forall x, (x < fresh st)%nat -> objs st1 x = objs st x).
      { repeat split; [done|by rewrite Hobj|done|done]. }
      destruct (Py.contains line "opening log file").
      * injection Hrun as <- <-.
        rewrite <- (app_nil_r [fresh st]).
        apply (Hadded [fresh st] st1 (or_intror Hcase) [] st1); [by right|cbn; lia|].
        cbn [length seq]. repeat split; [lia|constructor].
      * destruct (scanLogLines runlevels now isdst lines st1) as [[more st2]|e] eqn:Hmore;
          [|discriminate Hrun].
        cbn [mbind res_bind] in Hrun. injection Hrun as <- <-.
        apply IH in Hmore as Hm. destruct Hm as (H1 & H2 & H3 & H4 & H5).
        apply (Hadded [fresh st] st1 (or_intror Hcase) more st2); [by left|done|done].
    + cbn [mbind res_bind] in Hrun.
      destruct (Py.contains line "opening log file").
      * injection Hrun as <- <-. cbn [length seq]. repeat split; [lia|lia|constructor].
      * destruct (scanLogLines runlevels now isdst lines st) as [[more st2]|e] eqn:Hmore;
          [|discriminate Hrun].
        cbn [mbind res_bind] in Hrun. injection Hrun as <- <-.
        apply IH in Hmore as Hm. destruct Hm as (H1 & H2 & H3 & H4 & H5).
        apply (Hadded [] st (or_introl (conj eq_refl eq_refl)) more st2);
          [by left|done|done].
Qed.

(** The entries [getLogFileEntries] returns, as objects. *)
Lemma getLogFileEntries_new (tor : TorConn) (now : Q) (isdst : Z)
    (runlevels : list string) (readLimit addLimit : option Z) (st : Store)
    (entries : list ref) (st' : Store) :
  match addLimit with Some a => 0 <= a | None => True end ->
  getLogFileEntries tor now isdst runlevels readLimit addLimit st = Ok (entries, st') ->
  entries = seq (fresh st) (length entries)
  /\ (fresh st + length entries <= fresh st')%nat
  /\ match addLimit with
     | Some a => 0 < a -> Z.of_nat (length entries) <= a
     | None => True
     end
  /\ Forall (fun r => type (objs st' r) ∈ log_Runlevel) entries
  /\ (forall x, (x < fresh st)%nat -> objs st' x = objs st x).
Proof.
  intros Hadd Hrun. unfold getLogFileEntries in Hrun.
  assert (Hnil : Ok ([], st) = Ok (entries, st') ->
                 entries = seq (fresh st) (length entries)
                 /\ (fresh st + length entries <= fresh st')%nat
                 /\ match addLimit with
                    | Some a => 0 < a -> Z.of_nat (length entries) <= a
                    | None => True
                    end
                 /\ Forall (fun r => type (objs st' r) ∈ log_Runlevel) entries
                 /\ (forall x, (x < fresh st)%nat -> objs st' x = objs st x)).
  { intros [= <- <-]. cbn [length seq]. repeat split; [lia| |constructor].
    destruct addLimit; [intros; cbn; lia|done]. }
  destruct runlevels as [|r0 rs]; [by apply Hnil|].
  destruct (backfillLines tor readLimit addLimit) as [[[[rl loc] lines]|]|e];
    cbn [mbind res_bind] in Hrun; [|by apply Hnil|discriminate Hrun].
  destruct (scanLogLines log_Runlevel now isdst (reverse lines) st) as [[found st1]|e] eqn:Hscan;
    cbn [mbind res_bind] in Hrun; [|discriminate Hrun].
  destruct rl as [n|]; [|discriminate Hrun]. injection Hrun as <- <-.
  apply scanLogLines_new in Hscan as (Hseq & Hfresh & _ & Hold & Hall).
  assert (Hcrop : exists k, (k <= length found)%nat
            /\ match addLimit with
               | Some a => if negb (a =? 0) then Py.slice_to a found else found
               | None => found
               end = take k found
            /\ match addLimit with
               | Some a => 0 < a -> Z.of_nat k <= a
               | None => True
               end).
  { destruct addLimit as [a|]; [|exists (length found); by rewrite take_ge].
    destruct (Z.eqb_spec a 0) as [->|Ha]; cbn [negb].
    - exists (length found). rewrite take_ge by lia. repeat split; [lia..|]. lia.
    - unfold Py.slice_to. destruct (Z.ltb_spec a 0); [lia|].
      exists (Nat.min (Z.to_nat a) (length found)). split; [lia|]. split.
      + destruct (Nat.le_ge_cases (Z.to_nat a) (length found)).
        * by rewrite Nat.min_l.
        * rewrite Nat.min_r by done. by rewrite !take_ge.
      + intros _. lia. }
  destruct Hcrop as (k & Hk & -> & Hlim).
  rewrite length_take, Nat.min_l by lia. split; [|split; [lia|split; [exact Hlim|split]]].
  - rewrite Hseq at 1. rewrite take_seq. f_equal. lia.
  - by apply Forall_take.
  - exact Hold.
Qed.

(** X21.  What [getLogFileEntries] returns are new objects, in the order in
    which it made them, of categories among [log.Runlevel]; with a positive
    [addLimit] they are at most that many; the objects that were there
    before stay as they are. *)
Theorem getLogFileEntries_new_entries (tor : TorConn) (now : Q) (isdst : Z)
    (runlevels : list string) (readLimit addLimit : option Z) (st : Store)
    (entries : list ref) (st' : Store) :
  match addLimit with Some a => 0 <= a | None => True end ->
  getLogFileEntries tor now isdst runlevels readLimit addLimit st = Ok (entries, st') ->
  entries = seq (fresh st) (length entries)
  /\ (fresh st + length entries <= fresh st')%nat
  /\ match addLimit with
     | Some a => 0 < a -> Z.of_nat (length entries) <= a
     | None => True
     end
  /\ Forall (fun r => type (objs st' r) ∈ log_Runlevel) entries
  /\ (forall x, (x < fresh st)%nat -> objs st' x = objs st x).
Proof. apply getLogFileEntries_new. Qed.

(** X22.  After a repopulation the log holds new objects only, nothing of
    what it held before: at most [cache.logPanel.size] entries read back
    from the log file, in the order in which they were made, each of a
    category among [log.Runlevel].  Without [features.log.prepopulate], or
    when no runlevel of tor is logged, the log is empty and no object is
    made. *)
Theorem reprepopulateEvents_log (tor : TorConn) (now now' : Q) (isdst : Z) (prepopulate : bool)
    (self : Panel) (st : Store) (self' : Panel) (st' : Store) :
  reprepopulateEvents tor now now' isdst prepopulate self st = Ok (self', st') ->
  msgLog self' = seq (fresh st) (length (msgLog self'))
  /\ Z.of_nat (length (msgLog self')) <= CONFIG "cache.logPanel.size"
  /\ Forall (fun r => type (objs st' r) ∈ log_Runlevel) (msgLog self')
  /\ (forall x, (x < fresh st)%nat -> objs st' x = objs st x)
  /\ (prepopulate = false
      \/ (forall eventType, eventType ∈ loggedEvents self -> eventType ∉ log_Runlevel) ->
      msgLog self' = [] /\ st' = st)
  /\ loggedEvents self' = loggedEvents self /\ regexFilter self' = regexFilter self
  /\ _lastLoggedEvents self' = _lastLoggedEvents self /\ _halt self' = _halt self.
Proof.
  unfold reprepopulateEvents. intros Hrun.
  set (setRunlevels := list_intersection (remove_dups (loggedEvents self)) log_Runlevel) in *.
  pose proof CONFIG_cache_size as Hsize.
  assert (0 <= CONFIG "cache.logPanel.size") as Hadd by lia.
  destruct (if prepopulate then _ else _) as [[entries st1]|e] eqn:Hread; [|discriminate Hrun].
  cbn [mbind res_bind] in Hrun. injection Hrun as <- <-.
  cbn [set_msgLog msgLog loggedEvents regexFilter _lastLoggedEvents _halt].
  assert (Hentries : entries = seq (fresh st) (length entries)
                     /\ Forall (fun r => type (objs st1 r) ∈ log_Runlevel) entries
                     /\ (forall x, (x < fresh st)%nat -> objs st1 x = objs st x)
                     /\ (prepopulate = false \/ setRunlevels = [] -> entries = [] /\ st1 = st)).
  { destruct prepopulate.
    - pose proof (getLogFileEntries_new tor now isdst setRunlevels _
                    (Some (CONFIG "cache.logPanel.size")) st entries st1 Hadd Hread)
        as (H1 & _ & _ & H4 & H5).
      split; [exact H1|split; [exact H4|split; [exact H5|]]].
      intros [?|Hempty]; [discriminate|].
      rewrite Hempty in Hread. cbn [getLogFileEntries] in Hread. by injection Hread as <- <-.
    - injection Hread as <- <-. split; [reflexivity|split; [constructor|split; [done|done]]]. }
  destruct Hentries as (Hseq & Hall & Hold & Hnone).
  pose proof (trimEvents_kept st1 now' entries) as ([rest Hpre] & Hlen & _).
  set (kept := _trimEvents st1 now' entries) in *.
  split; [|split; [exact Hlen|split; [|split; [exact Hold|split; [|by repeat split]]]]].
  - rewrite Hpre, length_app, seq_app in Hseq.
    apply app_inj_1 in Hseq as [? _]; [done|by rewrite length_seq].
  - rewrite Hpre in Hall. by apply Forall_app in Hall as [? _].
  - intros Hoff.
    assert (prepopulate = false \/ setRunlevels = []) as Hoff'.
    { destruct Hoff as [?|Hno]; [by left|right].
      destruct setRunlevels as [|x l] eqn:E; [reflexivity|exfalso].
      assert (x ∈ setRunlevels) as Hx by (rewrite E; left).
      unfold setRunlevels in Hx. apply list_elem_of_intersection in Hx as [Hx1 Hx2].
      rewrite !elem_of_remove_dups in Hx1. exact (Hno x Hx1 Hx2). }
    destruct (Hnone Hoff') as [-> ->]. split; [|reflexivity].
    destruct kept; [reflexivity|discriminate Hpre].
Qed.

(** X23.  The scan ends at the line that tells of tor opening its log
    file: the lines before it in the file, which come after it in the scan,
    are not looked at, whatever they hold.  The line has to have its four
    words: a shorter line is passed over before the test. *)
Theorem scanLogLines_stops_at_marker (runlevels : list string) (now : Q) (isdst : Z)
    (newer older : list string) (marker : string) (st : Store) :
  Py.contains marker "opening log file" = true ->
  (4 <= length (Py.split marker))%nat ->
  scanLogLines runlevels now isdst (newer ++ marker :: older) st
  = scanLogLines runlevels now isdst (newer ++ [marker]) st.
Proof.
  intros Hmarker Hwords. revert st.
  induction newer as [|line newer IH]; intros st; cbn [app scanLogLines].
  - destruct (Nat.ltb_spec (length (Py.split marker)) 4) as [|_]; [lia|].
    rewrite Hmarker. reflexivity.
  - destruct (Nat.ltb (length (Py.split line)) 4); [apply IH|].
    destruct (if bool_decide _ then _ else _) as [[added st1]|e]; [|reflexivity].
    cbn [mbind res_bind]. destruct (Py.contains line "opening log file"); [reflexivity|].
    by rewrite IH.
Qed.

(** X24.  A line of four words or more whose category is a runlevel and
    whose first three words are not a date and a time ends the whole call
    with a [ValueError], when it is the last line of the file. *)
Theorem getLogFileEntries_bad_timestamp (tor : TorConn) (now : Q) (isdst : Z)
    (runlevels : list string) (readLimit addLimit limit : option Z) (st : Store)
    (loggingLocation line : string) (older : list string) :
  runlevels <> [] ->
  backfillLines tor readLimit addLimit = Ok (Some (limit, loggingLocation, older ++ [line])) ->
  (4 <= length (Py.split line))%nat ->
  Py.upper (Py.strip_ends (default "" (Py.split line !! 3%nat))) ∈ log_Runlevel ->
  lineTime now isdst (Py.split line) = Raise ValueError ->
  getLogFileEntries tor now isdst runlevels readLimit addLimit st = Raise ValueError.
Proof.
  intros Hrl Hlines Hwords Hcat Htime. unfold getLogFileEntries.
  destruct runlevels as [|r0 rs]; [contradiction|].
  rewrite Hlines. cbn [mbind res_bind]. rewrite reverse_snoc. cbn [scanLogLines].
  destruct (Nat.ltb_spec (length (Py.split line)) 4) as [|_]; [lia|].
  rewrite bool_decide_eq_true_2 by exact Hcat. rewrite Htime. reflexivity.
Qed.

Lemma list_index_Ok (x : string) (l : list string) (i : nat) :
  list_index x l = Ok i -> l !! i = Some x.
Proof.
  unfold list_index. destruct (index_of x l) as [j|] eqn:E; [|discriminate].
  intros [= <-]. revert j E. induction l as [|y l IH]; intros j E; [discriminate E|].
  cbn [index_of] in E. destruct (String.eqb_spec y x) as [->|_].
  - by injection E as <-.
  - destruct (index_of x l) as [k|]; [|discriminate E]. injection E as <-. by apply IH.
Qed.

(** X25.  The check that is to tell whether the runlevels asked for cover
    those of the log file compares a part of [log.Runlevel] with
    [log.Runlevel], so it never fails: when [addLimit] is set and the read
    limit is missing or larger, the read limit becomes [addLimit], whatever
    was asked for, unless the log file is configured with a level that is
    no runlevel, which is a [ValueError]. *)
Theorem cropReadLimit_always_crops (loggingTypes : string) (readLimit : option Z)
    (a : Z) :
  a <> 0 ->
  match readLimit with Some r => r = 0 \/ a < r | None => True end ->
  (cropReadLimit log_Runlevel loggingTypes readLimit (Some a) = Ok (Some a)
   \/ cropReadLimit log_Runlevel loggingTypes readLimit (Some a) = Raise ValueError)
  /\ (loggingTypes ∈ log_Runlevel -> Py.find_char "-" loggingTypes = None ->
      cropReadLimit log_Runlevel loggingTypes readLimit (Some a) = Ok (Some a)).
Proof.
  intros Ha Hr. unfold cropReadLimit.
  assert (Hwanted : truthy (Some a)
                    && (negb (truthy readLimit)
                        || match readLimit with Some r => r >? a | None => false end) = true).
  { cbn [truthy]. destruct (Z.eqb_spec a 0); [contradiction|]. cbn [negb andb].
    destruct readLimit as [r|]; [|reflexivity]. cbn [truthy].
    destruct Hr as [->|Hr]; [reflexivity|].
    destruct (Z.eqb_spec r 0); [reflexivity|]. cbn [negb orb]. lia. }
  rewrite Hwanted.
  assert (Hsub : forall s e : nat,
            forallb (fun runlevelType => bool_decide (runlevelType ∈ log_Runlevel))
                    (drop s (take e log_Runlevel)) = true).
  { intros s e. apply forallb_forall. intros x Hx. apply bool_decide_eq_true.
    apply list_elem_of_In in Hx. eapply subseteq_take, subseteq_drop, Hx. }
  assert (Hsub' : forall s : nat,
            forallb (fun runlevelType => bool_decide (runlevelType ∈ log_Runlevel))
                    (drop s log_Runlevel) = true).
  { intros s. pose proof (Hsub s (length log_Runlevel)) as H. by rewrite take_ge in H. }
  assert (Hraise : forall x, (exists i, list_index x log_Runlevel = Ok i)
                             \/ list_index x log_Runlevel = Raise ValueError).
  { intros x. unfold list_index. destruct (index_of x log_Runlevel); eauto. }
  split.
  - destruct (Py.find_char "-" loggingTypes) as [divIndex|].
    + destruct (Hraise (Py.take divIndex loggingTypes)) as [[s ->]| ->]; [|by right].
      cbn [mbind res_bind].
      destruct (Hraise (Py.drop (S divIndex) loggingTypes)) as [[e ->]| ->]; [|by right].
      cbn [mbind res_bind]. rewrite Hsub. by left.
    + destruct (Hraise loggingTypes) as [[s ->]| ->]; [|by right].
      cbn [mbind res_bind]. rewrite Hsub'. by left.
  - intros Hin ->. destruct (Hraise loggingTypes) as [[s ->]|Hno].
    + cbn [mbind res_bind]. by rewrite Hsub'.
    + exfalso. unfold list_index in Hno.
      destruct (index_of loggingTypes log_Runlevel) eqn:E; [discriminate Hno|].
      clear -Hin E. induction log_Runlevel as [|y l IH]; [by apply elem_of_nil in Hin|].
      cbn [index_of] in E. destruct (String.eqb_spec y loggingTypes) as [|Hne]; [discriminate E|].
      apply elem_of_cons in Hin as [->|Hin]; [contradiction|].
      destruct (index_of loggingTypes l); [discriminate E|]. by apply IH.
Qed.

(** ** The regex filters *)

Lemma loadFilterOptions_acc (configured : list string) :
  forall filterOptions,
    (length filterOptions <= MAX_REGEX_FILTERS)%nat ->
    loadFilterOptions configured filterOptions
    = filterOptions
      ++ take (MAX_REGEX_FILTERS - length filterOptions)
              (filter (fun pattern => re_valid pattern = true) configured).
Proof.
  induction configured as [|pattern configured IH]; intros acc Hlen; cbn [loadFilterOptions].
  - by rewrite filter_nil, take_nil, app_nil_r.
  - destruct (Nat.leb_spec MAX_REGEX_FILTERS (length acc)) as [Hfull|Hroom].
    + replace (MAX_REGEX_FILTERS - length acc)%nat with 0%nat by lia.
      by rewrite take_0, app_nil_r.
    + rewrite filter_cons. destruct (re_valid pattern) eqn:Hvalid.
      * rewrite decide_True by done. rewrite IH by (rewrite length_app; cbn; lia).
        rewrite length_app. cbn [length].
        replace (MAX_REGEX_FILTERS - length acc)%nat
          with (S (MAX_REGEX_FILTERS - (length acc + 1)))%nat by lia.
        cbn [take]. by rewrite <- app_assoc.
      * rewrite decide_False by done. apply IH. lia.
Qed.

(** X26.  The panel starts with the first [MAX_REGEX_FILTERS] of the
    configured filters that compile, in their order: a pattern that does not
    compile takes no place. *)
Theorem loadFilterOptions_valid (configured : list string) :
  loadFilterOptions configured []
  = take MAX_REGEX_FILTERS (filter (fun pattern => re_valid pattern = true) configured)
  /\ filters_ok (mkFilters (loadFilterOptions configured []) None).
Proof.
  assert (H : loadFilterOptions configured []
              = take MAX_REGEX_FILTERS
                     (filter (fun pattern => re_valid pattern = true) configured)).
  { rewrite loadFilterOptions_acc by (cbn; lia). reflexivity. }
  split; [exact H|]. rewrite H. unfold filters_ok. cbn [filterOptions regexPattern].
  split; [|split; [|discriminate]].
  - apply Forall_take, Forall_forall. intros x Hx. by apply list_elem_of_filter in Hx as [? _].
  - rewrite length_take. lia.
Qed.

Lemma list_remove_Some (x : string) (l rest : list string) :
  list_remove x l = Some rest ->
  exists l1 l2, l = l1 ++ x :: l2 /\ (x ∉ l1) /\ rest = l1 ++ l2.
Proof.
  revert rest. induction l as [|y l IH]; intros rest; cbn [list_remove]; [discriminate|].
  destruct (String.eqb_spec y x) as [->|Hne].
  - intros [= <-]. exists [], l. split; [reflexivity|].
    split; [apply not_elem_of_nil|reflexivity].
  - destruct (list_remove x l) as [r|]; [|discriminate]. intros [= <-].
    destruct (IH r eq_refl) as (l1 & l2 & -> & Hno & ->).
    exists (y :: l1), l2. split; [reflexivity|]. split; [|reflexivity].
    intros Hin. apply elem_of_cons in Hin as [->|Hin]; [contradiction|by apply Hno].
Qed.

Lemma list_remove_elem_of (x : string) (l : list string) :
  x ∈ l -> exists rest, list_remove x l = Some rest.
Proof.
  induction l as [|y l IH]; intros Hin; [by apply elem_of_nil in Hin|].
  cbn [list_remove]. destruct (String.eqb_spec y x) as [->|Hne]; [eauto|].
  apply elem_of_cons in Hin as [->|Hin]; [contradiction|].
  destruct (IH Hin) as [rest ->]. eauto.
Qed.

Lemma list_remove_Forall (P : string -> Prop) (x : string) (l rest : list string) :
  list_remove x l = Some rest -> Forall P l -> Forall P rest /\ (length l = S (length rest)).
Proof.
  intros Hr Hall. apply list_remove_Some in Hr as (l1 & l2 & -> & _ & ->).
  apply Forall_app in Hall as [H1 H2]. inversion H2; subst.
  split; [by apply Forall_app|]. rewrite !length_app. cbn. lia.
Qed.

(** X27.  Selecting one of the filters moves it to the front of the list,
    the others keeping their order, and makes it the filter in use, which is
    what [getFilter] then returns. *)
Theorem makeFilterSelection_moves_to_front (self : Filters) (selected : string) :
  selected <> "" -> selected ∈ filterOptions self -> re_valid selected = true ->
  exists before after,
    filterOptions self = before ++ selected :: after
    /\ (selected ∉ before)
    /\ makeFilterSelection self (Some selected)
       = Ok (mkFilters (selected :: before ++ after) (Some selected))
    /\ selected :: before ++ after ≡ₚ filterOptions self
    /\ getFilter (mkFilters (selected :: before ++ after) (Some selected)) = Ok (Some selected).
Proof.
  intros Hne Hin Hvalid.
  destruct (list_remove_elem_of _ _ Hin) as [rest Hrest].
  pose proof Hrest as Hr. apply list_remove_Some in Hr as (before & after & Hl & Hno & ->).
  exists before, after. split; [exact Hl|]. split; [exact Hno|]. split; [|split].
  - unfold makeFilterSelection. destruct selected as [|c s]; [contradiction|].
    rewrite Hvalid. cbn [setFilter filterOptions regexPattern]. by rewrite Hrest.
  - rewrite Hl. by rewrite Permutation_middle.
  - reflexivity.
Qed.

(** X28.  The filter menu keeps the filters in order: if every filter
    offered compiles and the filter in use is the first of them, then after
    the menu, whatever was selected or typed, the same holds, the list has
    at most [MAX_REGEX_FILTERS] entries, and [getFilter] returns the pattern
    in use; the only exception is the [IndexError] of a selection that is no
    entry of the menu. *)
Theorem handleKey_f_keeps_filters (self : Filters) (selection : Z)
    (regexInput : option string) :
  Forall (fun pattern => re_valid pattern = true) (filterOptions self) ->
  (forall pattern, regexPattern self = Some pattern -> head (filterOptions self) = Some pattern) ->
  match handleKey_f self selection regexInput with
  | Ok self' => filters_ok self' /\ getFilter self' = Ok (regexPattern self')
  | Raise e =>
      e = IndexError
      /\ ~ (- Z.of_nat (length (filterOptions self)) < selection
            <= Z.of_nat (length (filterOptions self)) + 1)
  end.
Proof.
  intros Hvalid Hhead. unfold handleKey_f.
  assert (Hcrop : forall s : Filters,
            Forall (fun pattern => re_valid pattern = true) (filterOptions s) ->
            (forall pattern, regexPattern s = Some pattern -> head (filterOptions s) = Some pattern) ->
            let s' := if Nat.ltb MAX_REGEX_FILTERS (length (filterOptions s))
                      then mkFilters (take MAX_REGEX_FILTERS (filterOptions s)) (regexPattern s)
                      else s in
            filters_ok s' /\ getFilter s' = Ok (regexPattern s')).
  { intros s Hv Hh s'. unfold s'.
    destruct (Nat.ltb_spec MAX_REGEX_FILTERS (length (filterOptions s))) as [Hlong|Hshort].
    - unfold filters_ok, getFilter. cbn [filterOptions regexPattern].
      split; [split; [by apply Forall_take|split; [rewrite length_take; lia|]]|].
      + intros p Hp. apply Hh in Hp. by destruct (filterOptions s).
      + destruct (regexPattern s) as [p|]; [|reflexivity].
        specialize (Hh p eq_refl). by destruct (filterOptions s) as [|? ?]; [|injection Hh as ->].
    - unfold filters_ok, getFilter. split; [by repeat split|].
      destruct (regexPattern s) as [p|]; [|reflexivity].
      specialize (Hh p eq_refl). by destruct (filterOptions s) as [|? ?]; [|injection Hh as ->]. }
  destruct (Z.eqb_spec selection 0) as [->|H0].
  { cbn [mbind res_bind]. apply Hcrop; cbn [setFilter filterOptions regexPattern]; [done|discriminate]. }
  rewrite !length_app. cbn [length].
  destruct (Z.eqb_spec selection (Z.of_nat (1 + (length (filterOptions self) + 1)) - 1)) as [Hnew|Hsel].
  { cbn [mbind res_bind]. apply Hcrop.
    - unfold showFilterPrompt. destruct regexInput as [[|c s]|]; [done| |done].
      destruct (re_valid (String c s)) eqn:Hv; [|done].
      cbn [setFilter filterOptions regexPattern]. constructor; [exact Hv|].
      destruct (list_remove (String c s) (filterOptions self)) as [rest|] eqn:E; [|done].
      by apply (list_remove_Forall _ _ _ _ E) in Hvalid as [? _].
    - unfold showFilterPrompt. destruct regexInput as [[|c s]|]; [done| |done].
      destruct (re_valid (String c s)) eqn:Hv; [|done].
      cbn [setFilter filterOptions regexPattern]. by intros p [= <-]. }
  destruct (Z.eqb_spec selection (-1)) as [->|Hm1]; cbn [negb].
  { cbn [mbind res_bind]. by apply Hcrop. }
  destruct (py_index (filterOptions self) (selection - 1)) as [selected|] eqn:Hidx.
  - assert (selected ∈ filterOptions self) as Hin.
    { unfold py_index in Hidx. destruct (selection - 1 <? 0).
      - destruct (0 <=? _); [|discriminate Hidx]. by eapply list_elem_of_lookup_2.
      - by eapply list_elem_of_lookup_2. }
    assert (re_valid selected = true) as Hv by (rewrite Forall_forall in Hvalid; by apply Hvalid).
    destruct (list_remove_elem_of _ _ Hin) as [rest Hrest].
    unfold makeFilterSelection. destruct selected as [|c s].
    + cbn [mbind res_bind]. apply Hcrop; cbn [setFilter filterOptions regexPattern]; [done|discriminate].
    + rewrite Hv. cbn [setFilter filterOptions regexPattern]. rewrite Hrest.
      cbn [mbind res_bind]. apply Hcrop; cbn [filterOptions regexPattern].
      * constructor; [exact Hv|]. by apply (list_remove_Forall _ _ _ _ Hrest) in Hvalid as [? _].
      * by intros p [= <-].
  - cbn [mbind res_bind]. split; [reflexivity|].
    unfold py_index in Hidx. intros [Hlo Hhi].
    destruct (Z.ltb_spec (selection - 1) 0) as [Hneg|Hpos].
    + destruct (Z.leb_spec 0 (Z.of_nat (length (filterOptions self)) + (selection - 1))) as [Hok|Hbad].
      * apply lookup_ge_None in Hidx. lia.
      * lia.
    + apply lookup_ge_None in Hidx. lia.
Qed.

(** ** The log as it is drawn *)

Lemma module_ok_ev_alloc (g : Globals) (v : list ref) : module_ok g -> module_ok (ev_alloc g v).2.
Proof.
  intros ([HaD HaU] & HokD & HokU).
  unfold module_ok, caches_allocated, daybreaks_cache_ok, duplicates_cache_ok in *.
  unfold ev_alloc. cbn [snd CACHED_DAYBREAKS CACHED_DUPLICATES evlists duplists store].
  destruct (CACHED_DAYBREAKS g) as [[[a d] c]|], (CACHED_DUPLICATES g) as [[a' c']|];
    rewrite ?length_app; cbn [length]; repeat split; try lia; try exact I;
    rewrite ?ev_read_old by lia; try assumption.
Qed.

Lemma module_ok_dup_alloc (g : Globals) (v : list (ref * nat)) :
  module_ok g -> module_ok (dup_alloc g v).2.
Proof.
  intros ([HaD HaU] & HokD & HokU).
  unfold module_ok, caches_allocated, daybreaks_cache_ok, duplicates_cache_ok in *.
  unfold dup_alloc. cbn [snd CACHED_DAYBREAKS CACHED_DUPLICATES evlists duplists store].
  destruct (CACHED_DAYBREAKS g) as [[[a d] c]|], (CACHED_DUPLICATES g) as [[a' c']|];
    rewrite ?length_app; cbn [length]; repeat split; try lia; try exact I;
    rewrite ?dup_read_old by lia; try assumption.
Qed.

Lemma count_sum_plain (l : list ref) :
  (count_sum ((fun entry => (entry, 0%nat)) <$> l) + length ((fun entry => (entry, 0%nat)) <$> l)
   = length l)%nat.
Proof.
  rewrite length_fmap. unfold count_sum.
  induction l as [|x l IH]; [reflexivity|]. cbn [fmap list_fmap sum_list_with snd] in *. lia.
Qed.

(** What [getDaybreaks] returns, with the memo as it should be. *)
Lemma getDaybreaks_inserted (now : Q) (events : nat) (ignoreTimeForCache : bool) (g : Globals) :
  daybreaks_cache_ok g ->
  let '(result, g') := getDaybreaks now events ignoreTimeForCache g in
  inserted (fun x => is_daybreak (store g') x = true) (ev_read g events) (ev_read g' result)
  /\ COMMON_LOG_MESSAGES g' = COMMON_LOG_MESSAGES g.
Proof.
  intros Hok.
  destruct (getDaybreaks_spec now events ignoreTimeForCache g)
    as [[HE ->] | [(cargs & cday & cres & _ & Hc & Hargs & Hday & ->) | (out & st' & HE & Hloop & ->)]];
    rewrite ev_read_first; cbn [store COMMON_LOG_MESSAGES].
  - rewrite HE. split; [constructor|reflexivity].
  - unfold daybreaks_cache_ok in Hok. rewrite Hc, Hargs in Hok. by split.
  - pose proof (daybreaks_loop_inserted (store g) (daysSince_now now) (ev_read g events)) as Hins.
    rewrite Hloop in Hins. by split.
Qed.

(** X29.  In [draw] every entry of the log to draw is accounted for once:
    the log goes through [getDaybreaks] when no filter is set and the date
    dividers are on, and what is then drawn holds, for each of its entries
    and markers, either a pair of its own or a count in the pair of an
    earlier entry.  When duplicates are to be shown, or the deduplication
    timed out, which turns the showing of duplicates on, every entry has its
    pair, with the count 0. *)
Theorem draw_log_accounts (now startTime : Q) (clock : nat -> Q)
    (filtered showDateDividers showDuplicateEntries isPaused : bool)
    (currentLog : nat) (g : Globals) :
  module_ok g ->
  match draw_log now startTime clock filtered showDateDividers showDuplicateEntries isPaused
                 currentLog g with
  | (Ok (deduplicatedLog, showDuplicateEntries'), g') =>
      let out := dup_read g' deduplicatedLog in
      exists eventLog,
        inserted (fun x => is_daybreak (store g') x = true) (ev_read g currentLog) eventLog
        /\ (filtered = true \/ showDateDividers = false -> eventLog = ev_read g currentLog)
        /\ (count_sum out + length out = length eventLog)%nat
        /\ (showDuplicateEntries' = true -> out = (fun entry => (entry, 0%nat)) <$> eventLog)
        /\ (showDuplicateEntries' <> showDuplicateEntries ->
            exists k, timed_out startTime (clock k) = true)
        /\ module_ok g'
  | (Raise e, g') => e = IndexError /\ has_empty_message (effective_common g)
  end.
Proof.
  intros Hok. unfold draw_log.
  assert (HA : let '(eventLog, g1) :=
                 if negb filtered && showDateDividers
                 then getDaybreaks now currentLog isPaused g
                 else ev_alloc g (ev_read g currentLog) in
               module_ok g1
               /\ inserted (fun x => is_daybreak (store g1) x = true)
                           (ev_read g currentLog) (ev_read g1 eventLog)
               /\ (filtered = true \/ showDateDividers = false ->
                   ev_read g1 eventLog = ev_read g currentLog)
               /\ COMMON_LOG_MESSAGES g1 = COMMON_LOG_MESSAGES g).
  { destruct (negb filtered && showDateDividers) eqn:Hdates.
    - pose proof (getDaybreaks_ok now currentLog isPaused g Hok) as Hok1.
      pose proof (getDaybreaks_inserted now currentLog isPaused g (proj1 (proj2 Hok))) as Hins.
      destruct (getDaybreaks now currentLog isPaused g) as [eventLog g1].
      destruct Hins as [Hins Hcommon]. split; [exact Hok1|]. split; [exact Hins|].
      split; [|exact Hcommon].
      intros [-> | ->]; [discriminate Hdates|]. by rewrite andb_false_r in Hdates.
    - pose proof (module_ok_ev_alloc g (ev_read g currentLog) Hok) as Hok1.
      unfold ev_alloc in *. cbn [snd] in Hok1. split; [exact Hok1|].
      rewrite ev_read_first. cbn [store COMMON_LOG_MESSAGES].
      split; [apply inserted_refl|]. by split. }
  destruct (if negb filtered && showDateDividers then _ else _) as [eventLog g1].
  destruct HA as (Hok1 & Hins & Hplain & Hcommon).
  set (EL := ev_read g1 eventLog) in *.
  destruct showDuplicateEntries; cbn [negb].
  - pose proof (module_ok_dup_alloc g1 ((fun entry => (entry, 0%nat)) <$> EL) Hok1) as Hok2.
    unfold dup_alloc in *. cbn [snd] in Hok2. rewrite dup_read_first. cbn [store].
    exists EL. split; [exact Hins|]. split; [exact Hplain|]. split; [apply count_sum_plain|].
    split; [done|]. split; [done|exact Hok2].
  - pose proof (getDuplicates_ok startTime clock eventLog g1 Hok1) as Hok2.
    destruct (getDuplicates_spec startTime clock eventLog g1)
      as [(cargs & cres & Hc & Hargs & Hrun) | Hrun]; cbv zeta in Hrun; rewrite Hrun in *.
    + cbn [snd] in Hok2. rewrite dup_read_first. cbn [store].
      exists EL. split; [exact Hins|]. split; [exact Hplain|]. split.
      * destruct Hok1 as (_ & _ & HokU). unfold duplicates_cache_ok in HokU.
        rewrite Hc, Hargs in HokU. exact HokU.
      * split; [discriminate|]. split; [done|exact Hok2].
    + fold EL in Hrun, Hok2 |- *.
      destruct (dedup_loop _ _ _ _ _ _ _) as [[out|]|e] eqn:Hloop.
      * cbn [snd] in Hok2. rewrite dup_read_first. cbn [store].
        exists EL. split; [exact Hins|]. split; [exact Hplain|]. split.
        -- apply (dedup_loop_counts _ _ _ _ _ _ _ _ _ eq_refl) in Hloop. cbn in Hloop. lia.
        -- split; [discriminate|]. split; [done|exact Hok2].
      * cbn [snd] in Hok2.
        match goal with |- context [ev_read ?g2 eventLog] =>
          change (ev_read g2 eventLog) with EL
        end.
        pose proof (module_ok_dup_alloc _ ((fun entry => (entry, 0%nat)) <$> EL) Hok2) as Hok3.
        unfold dup_alloc in *. cbn [snd duplists] in Hok3 |- *.
        rewrite dup_read_first. cbn [store].
        exists EL. split; [exact Hins|]. split; [exact Hplain|].
        split; [apply count_sum_plain|]. split; [done|]. split; [|exact Hok3].
        intros _. by apply (dedup_loop_timeout _ _ _ _ _ _ _ _ eq_refl) in Hloop.
      * apply (dedup_loop_raise _ _ _ _ _ _ _ _ _ eq_refl) in Hloop.
        unfold effective_common in *. by rewrite Hcommon in Hloop.
Qed.


End LogPanel.

(** * The module on the sample inputs

    The primitives and the functions evaluated, the properties above applied
    at the sample inputs, and the inputs at which the code and the
    specification part. *)

(** ** The primitives on examples *)

Example upper_notice : Py.upper "notice" = "NOTICE".
Proof. reflexivity. Qed.

Example split_line :
  Py.split "Jul 15  18:29:48.806 [notice] Parsing GEOIP file." =
  ["Jul"; "15"; "18:29:48.806"; "[notice]"; "Parsing"; "GEOIP"; "file."].
Proof. reflexivity. Qed.

Example fmt_examples :
  (Py.fmt_i 2012, Py.fmt_i 0, Py.fmt_i (-37), Py.fmt_02i 7, Py.fmt_02i 48, Py.fmt_02i (-1))
  = ("2012", "0", "-37", "07", "48", "-1").
Proof. reflexivity. Qed.

Example strip_ends_examples :
  (Py.strip_ends "[notice]", Py.strip_ends "[]", Py.strip_ends "x", Py.strip_ends "")
  = ("notice", "", "", "").
Proof. reflexivity. Qed.

Example strptime_examples :
  (tm_list <$> strptime "2012 Feb 29 00:00:00", strptime "2012 Feb 30 00:00:00",
   tm_list <$> strptime "2012 jul 5 1:2:3", strptime "2012 Jul 15 24:00:00",
   strptime "2012 Jul 15")
  = (Some [2012; 2; 29; 0; 0; 0; 2; 60; -1], None,
     Some [2012; 7; 5; 1; 2; 3; 3; 187; -1], None, None).
Proof. vm_compute. reflexivity. Qed.

Example utc_mktime_july15 :
  (utc_mktime (july15 2012 0), utc_mktime (july15 2011 0))
  = (inject_Z 1342376988, inject_Z 1310754588).
Proof. vm_compute. reflexivity. Qed.

(** The sample log through the pipeline: a marker before the entries of day
    10, and the second notice of day 11 folded into the first. *)
Example sample_pipeline :
  let '(annotated, g1) := getDaybreaks 0 sample_now 0%nat false sample_globals in
  let '(deduplicated, g2) := getDuplicates [] 0%Q (fun _ => 0%Q) annotated g1 in
  ev_read g1 annotated = [0; 1; 4; 2; 3]%nat
  /\ type (objs (store g1) 4%nat) = DAYBREAK_EVENT
  /\ timestamp (objs (store g1) 4%nat) = PyInt (10 * 86400)
  /\ deduplicated = Ok (Some 0%nat)
  /\ dup_read g2 0%nat = [(0, 1); (4, 0); (2, 0); (3, 0)]%nat.
Proof. vm_compute. repeat split. Qed.

(** ** Display strings *)

(** C7, as stated, fails: on July 5 the dated string starts [7/5/2012], not
    [07/05/2012]. *)
Lemma getDisplayMessage_dated_without_padding :
  let self := LogEntry_init (PyInt 0) "NOTICE" "Parsing GEOIP file." "green" in
  (getDisplayMessage july5_localtime self true).1
    = "7/5/2012 18:29:48 [NOTICE] Parsing GEOIP file."
  /\ spec_dated_message (july5_localtime (PyInt 0)) "NOTICE" "Parsing GEOIP file."
    = "07/05/2012 18:29:48 [NOTICE] Parsing GEOIP file."
  /\ (getDisplayMessage july5_localtime self true).1
    <> spec_dated_message (july5_localtime (PyInt 0)) "NOTICE" "Parsing GEOIP file.".
Proof. vm_compute. repeat split. discriminate. Qed.

Example getDisplayMessage_caches :
  let self := LogEntry_init (PyInt 0) "NOTICE" "Parsing GEOIP file." "green" in
  let '(line, self') := getDisplayMessage july5_localtime self false in
  line = "18:29:48 [NOTICE] Parsing GEOIP file."
  /\ _displayMessage self' = Some line
  /\ getDisplayMessage (fun _ => mkTm 1999 1 1 0 0 0 4 1 0) self' false = (line, self').
Proof. vm_compute. repeat split. Qed.

(** ** Trimming *)

(** C3, as stated, fails: with a duration of 7 days, [_trimEvents] on day 100
    keeps an entry of day 0 that stands before an entry of day 100. *)
Lemma trimEvents_keeps_old_entry_before_young :
  let now := inject_Z (100 * 86400 + 5) in
  let kept := _trimEvents 0 sample_config unordered_store now [0; 1]%nat in
  kept = [0; 1]%nat
  /\ CONFIG sample_config "features.log.entryDuration" = 7
  /\ daysSinceEvent 0 unordered_store now 0%nat = 100
  /\ ~ Forall (fun r => daysSinceEvent 0 unordered_store now r
                        <= CONFIG sample_config "features.log.entryDuration") kept.
Proof.
  intros now kept.
  assert (kept = [0; 1]%nat) as Hkept by (vm_compute; reflexivity).
  assert (CONFIG sample_config "features.log.entryDuration" = 7) as Httl by reflexivity.
  assert (daysSinceEvent 0 unordered_store now 0%nat = 100) as Hage
    by (vm_compute; reflexivity).
  split; [exact Hkept|]. split; [exact Httl|]. split; [exact Hage|].
  rewrite Hkept, Httl. intros H. inversion H as [|? ? Hold _].
  rewrite Hage in Hold. apply Hold. reflexivity.
Qed.

Lemma trimEvents_capacity_and_age_witness :
  let now := inject_Z (100 * 86400 + 5) in
  let kept := _trimEvents 0 sample_config unordered_store now [1; 0; 0]%nat in
  kept = [1%nat]
  /\ Forall (fun r => daysSinceEvent 0 unordered_store now r <= 7) kept.
Proof.
  intros now kept.
  assert (kept = [1%nat]) as Hkept by (vm_compute; reflexivity).
  split; [exact Hkept|].
  destruct (trimEvents_capacity_and_age 0 sample_config unordered_store now [1; 0; 0]%nat)
    as (_ & _ & _ & H & _).
  destruct (H ltac:(vm_compute; reflexivity)) as (_ & _ & Hall).
  apply Hall. fold kept. rewrite Hkept.
  intros i j a b Hij Hi Hj.
  destruct i as [|i]; [|discriminate Hi]. destruct j as [|j]; [|discriminate Hj].
  injection Hi as <-. injection Hj as <-. reflexivity.
Defined.

Example trimEvents_drops_old_tail :
  let now := inject_Z (100 * 86400 + 5) in
  _trimEvents 0 sample_config unordered_store now [1; 0; 0]%nat = [1%nat].
Proof. vm_compute. reflexivity. Qed.

(** ** Day boundaries *)

(** C9, as stated, fails: an input entry of the DAYBREAK category is removed
    with the markers. *)
Lemma getDaybreaks_filter_drops_input_daybreak :
  let '(result, g') := getDaybreaks 0 sample_now 0%nat false daybreak_globals in
  ev_read daybreak_globals 0%nat = [0%nat]
  /\ ev_read g' result = [0%nat]
  /\ filter (fun x => is_daybreak (store g') x = false) (ev_read g' result) = []
  /\ filter (fun x => is_daybreak (store g') x = false) (ev_read g' result)
     <> ev_read daybreak_globals 0%nat.
Proof. vm_compute. repeat split. discriminate. Qed.

Lemma getDaybreaks_inserts_markers_witness :
  daybreaks_cache_ok sample_globals
  /\ let '(result, g') := getDaybreaks 0 sample_now 0%nat false sample_globals in
     inserted (fun x => is_daybreak (store g') x = true) [0; 1; 2; 3]%nat (ev_read g' result)
     /\ filter (fun x => is_daybreak (store g') x = false) (ev_read g' result)
        = [0; 1; 2; 3]%nat.
Proof.
  split; [exact I|].
  pose proof (getDaybreaks_inserts_markers 0 sample_now 0%nat false sample_globals I) as H.
  cbv zeta in H.
  destruct (getDaybreaks 0 sample_now 0%nat false sample_globals) as [result g'].
  destruct H as [H1 H2]. split; [exact H1|]. apply H2.
  - repeat constructor.
  - repeat constructor.
Defined.

(** C4, as stated, fails: [getDaybreaks] on its own output puts a second
    marker before the first. *)
Lemma getDaybreaks_of_its_output_adds_marker :
  let '(result, g1) := getDaybreaks 0 sample_now 0%nat false sample_globals in
  let '(again, g2) := getDaybreaks 0 sample_now result false g1 in
  ev_read g1 result = [0; 1; 4; 2; 3]%nat
  /\ ev_read g2 again = [0; 1; 5; 4; 2; 3]%nat
  /\ ev_read g2 again <> ev_read g1 result.
Proof. vm_compute. repeat split. discriminate. Qed.

Lemma getDaybreaks_again_witness :
  (caches_allocated sample_globals /\ daybreaks_cache_ok sample_globals
   /\ (0 < length (evlists sample_globals))%nat)
  /\ let '(result, g1) := getDaybreaks 0 sample_now 0%nat false sample_globals in
     let '(again, g2) :=
       getDaybreaks 0 (sample_now + inject_Z 60)%Q 0%nat false g1 in
     ev_read g2 again = ev_read g1 result.
Proof.
  assert (caches_allocated sample_globals) as Ha by (split; exact I).
  assert (0 < length (evlists sample_globals))%nat as Hl by (simpl; lia).
  split; [split; [exact Ha|split; [exact I|exact Hl]]|].
  pose proof (getDaybreaks_again 0 sample_now (sample_now + inject_Z 60)%Q 0%nat false
                sample_globals Ha I Hl eq_refl) as H.
  cbv zeta in H.
  destruct (getDaybreaks 0 sample_now 0%nat false sample_globals) as [result g1].
  destruct H as [H _]. exact H.
Defined.

(** ** Duplicates *)

(** C2, as stated, fails: for one entry and no day boundary the counts sum
    to 0, not to 1; and for the sample log with its marker they sum to 1, not
    to 4. *)
Lemma getDuplicates_counts_do_not_sum_to_input :
  let '(result, g') := getDuplicates [] 0%Q (fun _ => 0%Q) 0%nat single_globals in
  let '(annotated, g1) := getDaybreaks 0 sample_now 0%nat false sample_globals in
  let '(result2, g2) := getDuplicates [] 0%Q (fun _ => 0%Q) annotated g1 in
  (result = Ok (Some 0%nat)
   /\ dup_read g' 0%nat = [(3, 0)]%nat
   /\ count_sum (dup_read g' 0%nat) = 0%nat
   /\ (length (ev_read single_globals 0%nat)
       - boundaries (store single_globals) (ev_read single_globals 0%nat) = 1)%nat)
  /\ (result2 = Ok (Some 0%nat)
      /\ count_sum (dup_read g2 0%nat) = 1%nat
      /\ (length (ev_read g1 annotated) - boundaries (store g1) (ev_read g1 annotated) = 4)%nat).
Proof. vm_compute. repeat split. Qed.

Lemma getDuplicates_counts_witness :
  duplicates_cache_ok sample_globals
  /\ match getDuplicates [] 0%Q (fun _ => 0%Q) 0%nat sample_globals with
     | (Ok (Some result), g') =>
         (count_sum (dup_read g' result) + length (dup_read g' result) = 4)%nat
     | _ => False
     end.
Proof.
  split; [exact I|].
  pose proof (getDuplicates_counts [] 0%Q (fun _ => 0%Q) 0%nat sample_globals I) as H.
  cbv zeta in H.
  destruct (getDuplicates [] 0%Q (fun _ => 0%Q) 0%nat sample_globals) as [[[result|]|e] g'] eqn:E;
    [exact (proj2 H) | |]; vm_compute in E; discriminate E.
Defined.

(** The budget of 100 ms: a clock that has run 0.2 s at the first check. *)
Example getDuplicates_times_out :
  (getDuplicates [] 0%Q (fun _ => (2 # 10)%Q) 0%nat sample_globals).1 = Ok None.
Proof. vm_compute. reflexivity. Qed.

(** An empty common message raises. *)
Example getDuplicates_empty_common_message :
  (getDuplicates [("msg.notice", [""])] 0%Q (fun _ => 0%Q) 0%nat
     (mkGlobals (mkStore (fun r => LogEntry_init (PyInt 0) "NOTICE"
                                     (if Nat.eqb r 0 then "a" else "b") "green") 2%nat)
                [[0; 1]%nat] [] None None None)).1
  = Raise IndexError.
Proof. vm_compute. reflexivity. Qed.

Lemma duplicates_same_day_same_category_witness :
  duplicate_of (Some []) sample_store [0; 1; 2; 3]%nat 0%nat 1%nat
  /\ type (objs sample_store 0%nat) = type (objs sample_store 1%nat).
Proof.
  assert (duplicate_of (Some []) sample_store [0; 1; 2; 3]%nat 0%nat 1%nat) as H.
  { apply (duplicate_now (Some []) sample_store 0%nat [1; 2; 3]%nat (DupIndices [0; 1]%nat)
             0%nat 1%nat); [reflexivity|left|reflexivity]. }
  split; [exact H|].
  exact (proj1 (duplicates_same_day_same_category _ _ _ _ _ H)).
Defined.

(** With the marker in the list, the notice of day 10 is not counted for the
    notices of day 11. *)
Example isDuplicate_stops_at_daybreak :
  let '(annotated, g1) := getDaybreaks 0 sample_now 0%nat false sample_globals in
  isDuplicate (Some []) (store g1) 0%nat [1; 4; 2; 3]%nat true = Ok (DupIndices [0%nat])
  /\ isDuplicate (Some []) (store g1) 0%nat [1; 2; 3]%nat true = Ok (DupIndices [0; 1]%nat)
  /\ isDuplicate (Some []) (store g1) 0%nat [1; 2; 3]%nat false = Ok (DupBool true).
Proof. vm_compute. repeat split. Qed.

(** ** The memos *)

Lemma memo_results_survive_mutation_witness :
  caches_allocated sample_globals
  /\ (let '(result, g1) := getDaybreaks 0 sample_now 0%nat false sample_globals in
      let g1' := ev_write g1 result [] in
      let '(again, g2) := getDaybreaks 0 sample_now 0%nat false g1' in
      again <> result /\ ev_read g2 again = [0; 1; 4; 2; 3]%nat)
  /\ (exists again g2,
        getDuplicates [] 0%Q (fun _ => 0%Q) 0%nat
          (dup_write (getDuplicates [] 0%Q (fun _ => 0%Q) 0%nat sample_globals).2 0%nat [])
        = (Ok (Some again), g2)
        /\ again <> 0%nat /\ dup_read g2 again = [(0, 2); (3, 0)]%nat).
Proof.
  assert (caches_allocated sample_globals) as Ha by (split; exact I).
  split; [exact Ha|].
  destruct (memo_results_survive_mutation 0 [] sample_globals 0%nat 0%nat Ha) as [H1 H2].
  split.
  - specialize (H1 sample_now sample_now false [] eq_refl).
    vm_compute in H1. vm_compute. exact (H1 eq_refl).
  - exact (H2 0%Q (fun _ => 0%Q) 0%Q (fun _ => 0%Q) [] 0%nat
              (getDuplicates [] 0%Q (fun _ => 0%Q) 0%nat sample_globals).2
              eq_refl eq_refl).
Defined.

(** ** Backfill *)

(** C1 fails on the code: asked for DEBUG only, [getLogFileEntries] returns
    the NOTICE line of the log. *)
Theorem getLogFileEntries_returns_unaccepted_category :
  match getLogFileEntries utc_mktime stem_Runlevel "DEBUG" "INFO" "NOTICE" "WARN" "ERROR"
          sample_tor (inject_Z 1342400000) 0 ["DEBUG"] (Some 5000) (Some 1000) empty_store with
  | Ok (entries, st') => Ok (map (fun x => (type (objs st' x), msg (objs st' x))) entries)
  | Raise e => Raise e
  end = Ok [("NOTICE", "Parsing GEOIP file.")].
Proof. vm_compute. reflexivity. Qed.


(** A line of three words is passed over, and nothing before the start-up
    marker is read. *)
Example scanLogLines_short_line_and_marker :
  let lines := ["Jul 14 10:00:00.000 [notice] Before the restart.";
                "Jul 15 18:00:00.000 [notice] Tor 0.2.3.25 opening log file.";
                "out of space";
                "Jul 15 18:29:48.806 [notice] Parsing GEOIP file."] in
  match scanLogLines utc_mktime "DEBUG" "INFO" "NOTICE" "WARN" "ERROR" stem_Runlevel
          (inject_Z 1342400000) 0 (reverse lines) empty_store with
  | Ok (entries, st') => Ok (map (fun x => msg (objs st' x)) entries)
  | Raise e => Raise e
  end = Ok ["Parsing GEOIP file."; "Tor 0.2.3.25 opening log file."].
Proof. vm_compute. reflexivity. Qed.

(** ** The redraw loop *)

(** C5, as stated, fails: with nothing changed the wait has a timeout of 5
    seconds, after which the thread runs again though no event came and
    nobody halted it; and with a change and the refresh period over there is
    no wait at all. *)
Lemma run_idle_wait_has_timeout :
  run_iteration 0 sample_config idle_panel 0 0%Q 1%Q = CondWait (Some 5%Q)
  /\ wait_returns 1%Q (Some 5%Q) None = Some (1 + 5)%Q
  /\ CondWait (Some 5%Q) <> CondWait None
  /\ run_iteration 0 sample_config changed_panel 0 0%Q 1%Q = Redraw 0.
Proof. vm_compute. repeat split. discriminate. Qed.

Lemma run_iteration_waits_witness :
  _halt changed_panel = false
  /\ run_iteration 0 sample_config idle_panel 0 0%Q 1%Q = CondWait (Some 5%Q)
  /\ run_iteration 0 sample_config changed_panel 0 0%Q (1 # 10)%Q
     = CondWait (Some (Qmax (5 # 100) (inject_Z 300 / inject_Z 1000 - ((1 # 10) - 0)))%Q).
Proof.
  split; [reflexivity|]. split.
  - apply (run_iteration_waits 0 july5_localtime sample_config (fun m => m) idle_panel 0 0%Q 1%Q
             eq_refl).
    left. split; reflexivity.
  - destruct (run_iteration_waits 0 july5_localtime sample_config (fun m => m) changed_panel 0
                0%Q (1 # 10)%Q eq_refl)
      as (_ & H & _).
    apply H.
    + intros [Heq _]. discriminate Heq.
    + reflexivity.
    + reflexivity.
Defined.

(** ** Event flags *)

(** The examples of the docstring of [expandEvents], of which the first
    names [STREAM_BW] where the table has [STATUS_CLIENT] for [t]. *)
Example expandEvents_docstring :
  expandEvents arm_Runlevel "inUt"
    = Expanded (list_to_set ["INFO"; "NOTICE"; "UNKNOWN"; "STATUS_CLIENT"])
  /\ expandEvents arm_Runlevel "N4"
    = Expanded (list_to_set ["NOTICE"; "WARN"; "ERR"; "ARM_WARN"; "ARM_ERR"])
  /\ expandEvents arm_Runlevel "cfX" = Expanded ∅
  /\ expandEvents arm_Runlevel "c?f%" = InvalidFlags "?%".
Proof. vm_compute. repeat split. Qed.

Lemma expandEvents_stops_at_A_or_X_witness :
  plain_flags "cf"
  /\ expandEvents arm_Runlevel "cfX??" = Expanded ∅
  /\ expandEvents arm_Runlevel "cfA??" = Expanded (all_events arm_Runlevel).
Proof.
  assert (plain_flags "cf") as H by (split; reflexivity).
  split; [exact H|].
  destruct (expandEvents_stops_at_A_or_X arm_Runlevel "cf" "??") as (_ & _ & Hplain).
  destruct (Hplain H) as [HA HX]. split; [exact HX|exact HA].
Defined.

Lemma expandEvents_union_witness :
  expandEvents arm_Runlevel "inUt"
  = Expanded (list_to_set ["INFO"; "NOTICE"] ∪ list_to_set ["UNKNOWN"; "STATUS_CLIENT"]).
Proof.
  exact (proj1 (expandEvents_union arm_Runlevel "in" "Ut" _ _ eq_refl eq_refl
                  ltac:(vm_compute; reflexivity) ltac:(vm_compute; reflexivity))).
Defined.

Lemma expandEvents_runlevel_and_higher_witness :
  expandEvents arm_Runlevel "N" = Expanded (list_to_set ["NOTICE"; "WARN"; "ERR"])
  /\ expandEvents arm_Runlevel "3"
     = Expanded (list_to_set ["ARM_NOTICE"; "ARM_WARN"; "ARM_ERR"]).
Proof.
  destruct (expandEvents_runlevel_and_higher arm_Runlevel 2 "N" "3" eq_refl eq_refl)
    as (H1 & H2 & _).
  split; [exact H1|exact H2].
Defined.


(** ** The event types listened to *)

(** Asked for warnings under their other name, bandwidth (which this tor
    refuses), circuits twice, arm's errors, what arm has no flag for, and a
    type nobody knows. *)
Example setEventListening_sample :
  match setEventListening ["TRACE"; "DEBUG"; "INFO"; "NOTICE"; "WARN"; "ERR"] sample_controller
          ["WARNING"; "BW"; "UNKNOWN"; "ARM_ERR"; "CIRC"; "bogus"; "CIRC"] with
  | Ok (result, listening) => Ok (result, sorted (elements listening))
  | Raise e => Raise e
  end
  = Ok (["ARM_ERR"; "CIRC"; "CONF_CHANGED"; "SIGNAL"; "WARN"],
        ["CIRC"; "CONF_CHANGED"; "SIGNAL"; "WARN"]).
Proof. vm_compute. reflexivity. Qed.

Lemma setEventListening_sorted_witness :
  StronglySorted str_le ["ARM_ERR"; "CIRC"; "CONF_CHANGED"; "SIGNAL"; "WARN"].
Proof.
  assert (setEventListening ["TRACE"; "DEBUG"; "INFO"; "NOTICE"; "WARN"; "ERR"]
            sample_controller ["WARNING"; "BW"; "UNKNOWN"; "ARM_ERR"; "CIRC"; "bogus"; "CIRC"]
          = Ok (["ARM_ERR"; "CIRC"; "CONF_CHANGED"; "SIGNAL"; "WARN"],
                list_to_set ["CIRC"; "CONF_CHANGED"; "SIGNAL"; "WARN"])) as Hrun
    by (vm_compute; reflexivity).
  exact (proj1 (setEventListening_sorted _ _ _ _ _ Hrun)).
Defined.

Lemma setEventListening_returns_what_is_set_witness :
  addEventListener_ok sample_controller "CIRC" = true.
Proof.
  assert (setEventListening ["TRACE"; "DEBUG"; "INFO"; "NOTICE"; "WARN"; "ERR"]
            sample_controller ["WARNING"; "BW"; "UNKNOWN"; "ARM_ERR"; "CIRC"; "bogus"; "CIRC"]
          = Ok (["ARM_ERR"; "CIRC"; "CONF_CHANGED"; "SIGNAL"; "WARN"],
                list_to_set ["CIRC"; "CONF_CHANGED"; "SIGNAL"; "WARN"])) as Hrun
    by (vm_compute; reflexivity).
  destruct (setEventListening_returns_what_is_set _ _ _ _ _ Hrun) as (Hset & _).
  apply (Hset "CIRC"). apply elem_of_list_to_set. left.
Defined.

Example setEventListening_unknown_without_getinfo :
  setEventListening ["TRACE"; "DEBUG"; "INFO"; "NOTICE"; "WARN"; "ERR"]
    (mkController None (fun _ => true)) ["UNKNOWN"; "BW"] = Raise TypeError.
Proof. vm_compute. reflexivity. Qed.

Lemma setEventListening_again_witness :
  setEventListening ["TRACE"; "DEBUG"; "INFO"; "NOTICE"; "WARN"; "ERR"] sample_controller
    ["ARM_ERR"; "CIRC"; "WARN"]
  = Ok (["ARM_ERR"; "CIRC"; "WARN"], list_to_set ["CIRC"; "WARN"]).
Proof.
  assert (setEventListening ["TRACE"; "DEBUG"; "INFO"; "NOTICE"; "WARN"; "ERR"]
            sample_controller ["WARNING"; "BW"; "ARM_ERR"; "CIRC"]
          = Ok (["ARM_ERR"; "CIRC"; "WARN"], list_to_set ["CIRC"; "WARN"])) as Hrun
    by (vm_compute; reflexivity).
  apply (setEventListening_again _ _ ["WARNING"; "BW"; "ARM_ERR"; "CIRC"]); [|exact Hrun].
  intros H. repeat (apply elem_of_cons in H as [H|H]; [discriminate H|]).
  by apply elem_of_nil in H.
Defined.

(** ** Days *)

Lemma daysSince_monotone_witness :
  daysSince 3600 (PyInt 0) <= daysSince 3600 (PyInt 86400)
  /\ daysSince 3600 (PyFloat 0) <= daysSince 3600 (PyFloat (inject_Z 86400)).
Proof.
  destruct (daysSince_monotone 3600) as [Hint Hfloat].
  split; [apply Hint; lia|apply Hfloat; by apply Qle_bool_imp_le].
Defined.

(** An hour west of Greenwich, the first second of 1970 has not come yet in
    local time: the [int] is of day -1, the [float] of day 0. *)
Lemma daysSince_rounding_witness :
  daysSince 3600 (PyInt 0) = -1 /\ daysSince 3600 (PyFloat (inject_Z 0)) = 0.
Proof.
  destruct (daysSince_rounding 3600) as (_ & _ & _ & H). apply H. lia.
Defined.

(** ** More on day boundaries *)



(** ** More on duplicates *)

Lemma getDuplicates_entries_in_order_witness :
  duplicates_not_cached sample_globals 0%nat
  /\ exists result g',
       getDuplicates [] 0%Q (fun _ => 0%Q) 0%nat sample_globals = (Ok (Some result), g')
       /\ (dup_read g' result).*1 `sublist_of` [0; 1; 2; 3]%nat.
Proof.
  assert (duplicates_not_cached sample_globals 0%nat) as Hmiss by (intros ? ? H; discriminate H).
  split; [exact Hmiss|].
  destruct (getDuplicates [] 0%Q (fun _ => 0%Q) 0%nat sample_globals) as [[[result|]|e] g']
    eqn:E; [|vm_compute in E; discriminate E..].
  exists result, g'. split; [reflexivity|].
  exact (proj1 (getDuplicates_entries_in_order [] 0%Q (fun _ => 0%Q) 0%nat sample_globals
                  result g' Hmiss E)).
Defined.

Lemma getDuplicates_keeps_daybreaks_witness :
  let '(annotated, g1) := getDaybreaks 0 sample_now 0%nat false sample_globals in
  duplicates_not_cached g1 annotated
  /\ exists result g',
       getDuplicates [] 0%Q (fun _ => 0%Q) annotated g1 = (Ok (Some result), g')
       /\ Forall (fun p => is_daybreak (store g') p.1 = true -> p.2 = 0%nat) (dup_read g' result).
Proof.
  destruct (getDaybreaks 0 sample_now 0%nat false sample_globals) as [annotated g1] eqn:E1.
  vm_compute in E1. injection E1 as <- <-.
  match goal with |- duplicates_not_cached ?g ?l /\ _ =>
    assert (duplicates_not_cached g l) as Hmiss by (intros ? ? H; discriminate H)
  end.
  split; [exact Hmiss|].
  match goal with |- exists result g', ?run = _ /\ _ =>
    destruct run as [[[result|]|e] g'] eqn:E; [|vm_compute in E; discriminate E..]
  end.
  exists result, g'. split; [reflexivity|].
  exact (proj2 (getDuplicates_keeps_daybreaks _ _ _ _ _ _ _ Hmiss E)).
Defined.

Lemma getDuplicates_equal_messages_witness :
  exists result g',
    getDuplicates [] 0%Q (fun _ => 0%Q) 0%nat notices_globals = (Ok (Some result), g')
    /\ dup_read g' result = [(0, 2)]%nat.
Proof.
  apply (getDuplicates_equal_messages [] 0%Q (fun _ => 0%Q) 0%nat notices_globals
           0%nat [1; 2]%nat).
  - intros ? ? H. discriminate H.
  - reflexivity.
  - reflexivity.
  - repeat constructor.
  - reflexivity.
Defined.

Lemma getDuplicates_deadline_witness :
  (getDuplicates [] 0%Q (fun _ => 0%Q) 0%nat sample_globals).1 <> Ok None
  /\ ((getDuplicates [] 0%Q (fun _ => 1%Q) 0%nat sample_globals).1 = Ok None
      \/ (getDuplicates [] 0%Q (fun _ => 1%Q) 0%nat sample_globals).1 = Raise IndexError).
Proof.
  split.
  - apply (proj1 (getDuplicates_deadline [] 0%Q (fun _ => 0%Q) 0%nat sample_globals)).
    intros k. reflexivity.
  - apply (proj2 (getDuplicates_deadline [] 0%Q (fun _ => 1%Q) 0%nat sample_globals)).
    + intros ? ? H. discriminate H.
    + discriminate.
    + reflexivity.
Defined.

(** ** More on isDuplicate *)

Lemma sameMessage_symmetric_witness :
  let bootstrapped := LogEntry_init (PyInt 0) "NOTICE" "Bootstrapped 85%" "green" in
  let done := LogEntry_init (PyInt 9) "NOTICE" "Bootstrapped 100%: Done" "green" in
  let common := Some [("NOTICE", ["Bootstrapped"])] in
  sameMessage common bootstrapped done = Ok true
  /\ sameMessage common done bootstrapped = Ok true.
Proof.
  intros bootstrapped done common.
  assert (sameMessage common bootstrapped done = Ok true) as H by reflexivity.
  split; [exact H|].
  rewrite <- (proj1 (sameMessage_symmetric common bootstrapped done) eq_refl). exact H.
Defined.

Lemma isDuplicate_modes_agree_witness :
  isDuplicate (Some []) sample_store 0%nat [1; 2; 3]%nat false = Ok (DupBool true)
  /\ isDuplicate (Some []) sample_store 3%nat [0; 1; 2]%nat false = Ok (DupBool false).
Proof.
  split.
  - exact (isDuplicate_modes_agree (Some []) sample_store 0%nat [1; 2; 3]%nat [0; 1]%nat eq_refl).
  - exact (isDuplicate_modes_agree (Some []) sample_store 3%nat [0; 1; 2]%nat [] eq_refl).
Defined.

Lemma isDuplicate_indices_exact_witness :
  exists f, [1; 2; 3]%nat !! 1%nat = Some f
            /\ sameMessage (Some []) (objs sample_store 0%nat) (objs sample_store f) = Ok true.
Proof.
  destruct (isDuplicate_indices_exact (Some []) sample_store 0%nat [1; 2; 3]%nat [0; 1]%nat
              eq_refl) as [_ H].
  destruct (proj1 (H 1%nat) ltac:(right; left)) as (f & Hf & _ & _ & Hsame).
  by exists f.
Defined.

(** ** The log after an event and after a repopulation *)

(** A warning is not logged by the sample panel; a notice is, and goes in
    front. *)
Lemma registerEvent_log_witness :
  let '(self', st', notified) :=
    registerEvent 0 july5_localtime sample_config (fun m => m) idle_panel sample_store 3%nat
                  sample_now in
  (self' = idle_panel /\ st' = sample_store /\ notified = false)
  /\ let '(self', st', notified) :=
       registerEvent 0 july5_localtime sample_config (fun m => m) idle_panel sample_store 2%nat
                     sample_now in
     head (msgLog self') = Some 2%nat.
Proof.
  pose proof (registerEvent_log 0 july5_localtime sample_config (fun m => m) idle_panel
                sample_store 3%nat sample_now) as H3.
  pose proof (registerEvent_log 0 july5_localtime sample_config (fun m => m) idle_panel
                sample_store 2%nat sample_now) as H2.
  revert H3 H2.
  destruct (registerEvent 0 july5_localtime sample_config (fun m => m) idle_panel sample_store
              3%nat sample_now) as [[self3 st3] n3].
  destruct (registerEvent 0 july5_localtime sample_config (fun m => m) idle_panel sample_store
              2%nat sample_now) as [[self2 st2] n2].
  intros [H3 _] [_ H2]. split.
  - apply H3. intros H. apply list_elem_of_singleton in H. discriminate H.
  - destruct (H2 ltac:(left)) as (_ & _ & Hhead & _). apply Hhead. right.
    vm_compute. discriminate.
Defined.

Lemma getLogFileEntries_new_entries_witness :
  exists entries st',
    getLogFileEntries utc_mktime stem_Runlevel "DEBUG" "INFO" "NOTICE" "WARN" "ERROR"
      sample_tor (inject_Z 1342400000) 0 ["NOTICE"] (Some 5000) (Some 1000) sample_store
    = Ok (entries, st')
    /\ entries = seq 4 (length entries)
    /\ Forall (fun r => type (objs st' r) ∈ stem_Runlevel) entries.
Proof.
  destruct (getLogFileEntries utc_mktime stem_Runlevel "DEBUG" "INFO" "NOTICE" "WARN" "ERROR"
              sample_tor (inject_Z 1342400000) 0 ["NOTICE"] (Some 5000) (Some 1000)
              sample_store) as [[entries st']|e] eqn:E; [|vm_compute in E; discriminate E].
  exists entries, st'. split; [reflexivity|].
  assert (0 <= 1000) as Hadd by lia.
  destruct (getLogFileEntries_new_entries utc_mktime stem_Runlevel "DEBUG" "INFO" "NOTICE"
              "WARN" "ERROR" sample_tor (inject_Z 1342400000) 0 ["NOTICE"] (Some 5000)
              (Some 1000) sample_store entries st' Hadd E) as (H1 & _ & _ & H4 & _).
  split; [exact H1|exact H4].
Defined.

Lemma reprepopulateEvents_log_witness :
  exists self' st',
    reprepopulateEvents 0 utc_mktime stem_Runlevel "DEBUG" "INFO" "NOTICE" "WARN" "ERROR"
      sample_config sample_tor (inject_Z 1342400000) (inject_Z 1342400000) 0 true
      idle_panel sample_store
    = Ok (self', st')
    /\ msgLog self' = seq 4 (length (msgLog self'))
    /\ loggedEvents self' = ["NOTICE"].
Proof.
  destruct (reprepopulateEvents 0 utc_mktime stem_Runlevel "DEBUG" "INFO" "NOTICE" "WARN"
              "ERROR" sample_config sample_tor (inject_Z 1342400000) (inject_Z 1342400000) 0
              true idle_panel sample_store) as [[self' st']|e] eqn:E;
    [|vm_compute in E; discriminate E].
  exists self', st'. split; [reflexivity|].
  destruct (reprepopulateEvents_log _ _ _ _ _ _ _ _ _ _ _ _ _ _ _ _ _ _ E)
    as (H1 & _ & _ & _ & _ & H6 & _).
  split; [exact H1|exact H6].
Defined.

(** ** More on the backfill *)

Lemma scanLogLines_stops_at_marker_witness :
  let marker := "Jul 15 18:00:00.000 [notice] Tor 0.2.3.25 opening log file." in
  scanLogLines utc_mktime "DEBUG" "INFO" "NOTICE" "WARN" "ERROR" stem_Runlevel
    (inject_Z 1342400000) 0 [geoip_line; marker; "no date [notice] and no time"] empty_store
  = scanLogLines utc_mktime "DEBUG" "INFO" "NOTICE" "WARN" "ERROR" stem_Runlevel
      (inject_Z 1342400000) 0 [geoip_line; marker] empty_store.
Proof.
  intros marker.
  apply (scanLogLines_stops_at_marker utc_mktime "DEBUG" "INFO" "NOTICE" "WARN" "ERROR"
           stem_Runlevel (inject_Z 1342400000) 0 [geoip_line]
           ["no date [notice] and no time"] marker empty_store).
  - reflexivity.
  - vm_compute. lia.
Defined.

Lemma getLogFileEntries_bad_timestamp_witness :
  getLogFileEntries utc_mktime stem_Runlevel "DEBUG" "INFO" "NOTICE" "WARN" "ERROR"
    undated_tor (inject_Z 1342400000) 0 ["NOTICE"] (Some 5000) (Some 1000) empty_store
  = Raise ValueError.
Proof.
  apply (getLogFileEntries_bad_timestamp utc_mktime stem_Runlevel "DEBUG" "INFO" "NOTICE"
           "WARN" "ERROR" undated_tor (inject_Z 1342400000) 0 ["NOTICE"] (Some 5000)
           (Some 1000) (Some 1000) empty_store notices_log
           "out of order [notice] Parsing GEOIP file."
           ["Jul 15 18:29:48.806 [notice] Parsing GEOIP file."]).
  - discriminate.
  - reflexivity.
  - vm_compute. lia.
  - vm_compute. do 3 right. left.
  - reflexivity.
Defined.

(** Asked for errors only, with a log file of notices and higher, the read
    is still cropped to the limit of entries. *)
Lemma cropReadLimit_always_crops_witness :
  cropReadLimit stem_Runlevel "NOTICE" (Some 5000) (Some 1000) = Ok (Some 1000).
Proof.
  destruct (cropReadLimit_always_crops stem_Runlevel "NOTICE" (Some 5000) 1000
              ltac:(discriminate) ltac:(right; reflexivity)) as [_ H].
  apply H; [do 3 right; left|reflexivity].
Defined.

(** ** The regex filters *)

Example loadFilterOptions_sample :
  loadFilterOptions sample_valid ["a"; "("; "b"; "c"; "("; "d"; "e"; "f"] []
  = ["a"; "b"; "c"; "d"; "e"].
Proof. reflexivity. Qed.

Lemma makeFilterSelection_moves_to_front_witness :
  exists before after,
    filterOptions sample_filters = before ++ "circ" :: after
    /\ makeFilterSelection sample_valid sample_filters (Some "circ")
       = Ok (mkFilters ("circ" :: before ++ after) (Some "circ")).
Proof.
  destruct (makeFilterSelection_moves_to_front sample_valid sample_filters "circ"
              ltac:(discriminate) ltac:(do 2 right; left) eq_refl)
    as (before & after & Hl & _ & Hrun & _).
  by exists before, after.
Defined.

Example makeFilterSelection_sample :
  makeFilterSelection sample_valid sample_filters (Some "circ")
  = Ok (mkFilters ["circ"; "warn"; "bw"] (Some "circ")).
Proof. reflexivity. Qed.

Lemma handleKey_f_keeps_filters_witness :
  match handleKey_f sample_valid sample_filters 4 (Some "new") with
  | Ok self' => getFilter self' = Ok (regexPattern self')
  | Raise e => False
  end.
Proof.
  pose proof (handleKey_f_keeps_filters sample_valid sample_filters 4 (Some "new")
                ltac:(repeat constructor) ltac:(by intros p [= <-])) as H.
  destruct (handleKey_f sample_valid sample_filters 4 (Some "new")) as [self'|e] eqn:E.
  - exact (proj2 H).
  - vm_compute in E. discriminate E.
Defined.

Example handleKey_f_sample :
  handleKey_f sample_valid sample_filters 4 (Some "new")
    = Ok (mkFilters ["new"; "warn"; "bw"; "circ"] (Some "new"))
  /\ handleKey_f sample_valid sample_filters 2 None
     = Ok (mkFilters ["bw"; "warn"; "circ"] (Some "bw"))
  /\ handleKey_f sample_valid sample_filters 0 None
     = Ok (mkFilters ["warn"; "bw"; "circ"] None)
  /\ handleKey_f sample_valid sample_filters 9 None = Raise IndexError.
Proof. repeat split. Qed.

(** ** The log as it is drawn *)

Lemma draw_log_accounts_witness :
  module_ok sample_globals
  /\ match draw_log 0 [] sample_now 0%Q (fun _ => 0%Q) false true false false 0%nat
                    sample_globals with
     | (Ok (deduplicatedLog, _), g') =>
         (count_sum (dup_read g' deduplicatedLog) + length (dup_read g' deduplicatedLog) = 5)%nat
     | (Raise _, _) => False
     end.
Proof.
  assert (module_ok sample_globals) as Hok by (repeat split).
  split; [exact Hok|].
  pose proof (draw_log_accounts 0 [] sample_now 0%Q (fun _ => 0%Q) false true false false
                0%nat sample_globals Hok) as H.
  destruct (draw_log 0 [] sample_now 0%Q (fun _ => 0%Q) false true false false 0%nat
              sample_globals) as [[[deduplicatedLog flag]|e] g'] eqn:E;
    [|vm_compute in E; discriminate E].
  destruct H as (eventLog & Hins & _ & Hcount & _).
  rewrite Hcount. apply inserted_length in Hins as Hlen.
  assert (dup_read g' deduplicatedLog = [(0, 1); (4, 0); (2, 0); (3, 0)]%nat) as Hout.
  { vm_compute in E. by injection E as <- _ <-. }
  rewrite Hout in Hcount. cbn in Hcount. lia.
Defined.

